(** * secure-chat: the server's connection handler, credential table and
      session registry (server.go), embedded in Rocq.

    Go strings are byte sequences; they are modelled by [string], whose
    characters are the 256 byte values.

    [handleClient] is cut at its blocking reads: a handler is a program
    point [pc] with its live variables, and an event resumes one handler
    with the outcome of the read it waits in and runs it to its next read.
    The goroutines of the server interleave at these points. The package
    variables [clients], [masterRegKey] and the table [users] of [db] are
    fields of the state [Server]; the bytes handed to each connection are
    recorded in order, each [Write] apart. [db] is a pool of connections
    to in-memory databases, one database for each connection, and only one
    of them has the table: an event says which connection serves the
    statement a handler executes. *)

From Stdlib Require Import ZArith Ascii String List Lia.
From stdpp Require Import gmap strings list fin_maps finite.

Local Open Scope Z_scope.

(** ** Bytes *)

Definition byte_val (a : ascii) : Z := Z.of_N (N_of_ascii a).
Definition byte_of (z : Z) : ascii := ascii_of_N (Z.to_N (z mod 256)).

Fixpoint bytes_of_string (s : string) : list Z :=
  match s with
  | EmptyString => []
  | String a s' => byte_val a :: bytes_of_string s'
  end.

Fixpoint string_of_bytes (l : list Z) : string :=
  match l with
  | [] => EmptyString
  | b :: l' => String (byte_of b) (string_of_bytes l')
  end.

(** ** crypto/sha256: [sha256.Sum256] (FIPS 180-4), on 32-bit words kept
    in [Z] with the wrap-around written out. *)

Module SHA256.

Definition w32 (x : Z) : Z := x mod 2 ^ 32.
Definition add32 (x y : Z) : Z := w32 (x + y).
Definition rotr (n x : Z) : Z :=
  Z.lor (Z.shiftr x n) (w32 (Z.shiftl x (32 - n))).
Definition not32 (x : Z) : Z := Z.lxor x 0xffffffff.

Definition Ch (x y z : Z) : Z := Z.lxor (Z.land x y) (Z.land (not32 x) z).
Definition Maj (x y z : Z) : Z :=
  Z.lxor (Z.lxor (Z.land x y) (Z.land x z)) (Z.land y z).
Definition Sigma0 (x : Z) : Z := Z.lxor (Z.lxor (rotr 2 x) (rotr 13 x)) (rotr 22 x).
Definition Sigma1 (x : Z) : Z := Z.lxor (Z.lxor (rotr 6 x) (rotr 11 x)) (rotr 25 x).
Definition sigma0 (x : Z) : Z := Z.lxor (Z.lxor (rotr 7 x) (rotr 18 x)) (Z.shiftr x 3).
Definition sigma1 (x : Z) : Z := Z.lxor (Z.lxor (rotr 17 x) (rotr 19 x)) (Z.shiftr x 10).

(** The constants are defined as FIPS 180-4 defines them, from the first
    sixty-four primes: [K] holds the first thirty-two bits of the fractional
    parts of their cube roots, [H0] those of the square roots of the first
    eight. *)
Definition is_prime (n : Z) : bool :=
  forallb (fun d => negb (n mod Z.of_nat d =? 0)) (seq 2 (Z.to_nat n - 2)).

Definition primes : list Z :=
  filter (fun n => is_prime n) (map Z.of_nat (seq 2 310)).

(** The integer cube root of [n], bit by bit from bit [k - 1] down. *)
Fixpoint cbrt_bits (k : nat) (n r : Z) : Z :=
  match k with
  | O => r
  | S k' =>
      let r' := r + 2 ^ Z.of_nat k' in
      if r' * r' * r' <=? n then cbrt_bits k' n r' else cbrt_bits k' n r
  end.

Definition frac_cbrt (p : Z) : Z := w32 (cbrt_bits 36 (p * 2 ^ 96) 0).
Definition frac_sqrt (p : Z) : Z := w32 (Z.sqrt (p * 2 ^ 64)).

Definition K : list Z := Eval vm_compute in map frac_cbrt primes.

Definition H0 : list Z := Eval vm_compute in map frac_sqrt (firstn 8 primes).

(** Big-endian bytes of a [n]-byte quantity. *)
Fixpoint be_bytes (n : nat) (x : Z) : list Z :=
  match n with
  | O => []
  | S k => (Z.shiftr x (8 * Z.of_nat k)) mod 256 :: be_bytes k x
  end.

(** Padding: 0x80, zeros up to 56 mod 64, then the bit length on 64 bits. *)
Definition pad (msg : list Z) : list Z :=
  let len := Z.of_nat (length msg) in
  let zeros := Z.to_nat ((55 - len) mod 64) in
  msg ++ 0x80 :: repeat 0 zeros ++ be_bytes 8 ((8 * len) mod 2 ^ 64).

Fixpoint words (n : nat) (l : list Z) : list Z :=
  match n, l with
  | S k, a :: b :: c :: d :: l' =>
      (a * 2 ^ 24 + b * 2 ^ 16 + c * 2 ^ 8 + d) :: words k l'
  | _, _ => []
  end.

Definition nthw (l : list Z) (i : nat) : Z := nth i l 0.

(** The message schedule: [w] holds W[0..t-1]; sixteen words come from the
    block and forty-eight are derived. *)
Fixpoint schedule (n : nat) (w : list Z) : list Z :=
  match n with
  | O => w
  | S k =>
      let t := length w in
      let x := add32 (add32 (sigma1 (nthw w (t - 2))) (nthw w (t - 7)))
                     (add32 (sigma0 (nthw w (t - 15))) (nthw w (t - 16))) in
      schedule k (w ++ [x])
  end.

Definition round (st : list Z) (kw : Z * Z) : list Z :=
  match st with
  | [a; b; c; d; e; f; g; h] =>
      let t1 := add32 (add32 (add32 h (Sigma1 e)) (add32 (Ch e f g) (fst kw))) (snd kw) in
      let t2 := add32 (Sigma0 a) (Maj a b c) in
      [add32 t1 t2; a; b; c; add32 d t1; e; f; g]
  | _ => st
  end.

Definition zip_add (h st : list Z) : list Z :=
  map (fun p => add32 (fst p) (snd p)) (combine h st).

Definition block (h : list Z) (blk : list Z) : list Z :=
  let w := schedule 48 (words 16 blk) in
  zip_add h (fold_left round (combine K w) h).

Fixpoint blocks (n : nat) (h : list Z) (l : list Z) : list Z :=
  match n with
  | O => h
  | S k => blocks k (block h (firstn 64 l)) (skipn 64 l)
  end.

Definition Sum256 (msg : list Z) : list Z :=
  let p := pad msg in
  flat_map (be_bytes 4) (blocks (Nat.div (length p) 64) H0 p).

End SHA256.

(** ** encoding/hex: [hex.EncodeToString] *)

Definition hextable : string := "0123456789abcdef".

Definition hexdigit (z : Z) : ascii :=
  match String.get (Z.to_nat z) hextable with
  | Some a => a
  | None => "0"%char
  end.

Fixpoint EncodeToString (src : list Z) : string :=
  match src with
  | [] => EmptyString
  | v :: src' =>
      String (hexdigit (Z.shiftr v 4)) (String (hexdigit (Z.land v 15))
        (EncodeToString src'))
  end.

(** ** server.go:52 [hashPassword] *)

Definition hashPassword (password : string) : string :=
  let hash := SHA256.Sum256 (bytes_of_string password) in
  EncodeToString hash.

(** ** strings: the library functions [handleClient] calls *)

Definition byte_eqb (c : ascii) (n : Z) : bool := byte_val c =? n.

(** [asciiSpace]: tab, line feed, vertical tab, form feed, carriage return
    and space. *)
Definition asciiSpace (c : ascii) : bool :=
  ((9 <=? byte_val c) && (byte_val c <=? 13)) || (byte_val c =? 32).

(** UTF-8 encodings of the code points of [unicode.IsSpace] above U+007F:
    U+0085 and U+00A0 on two bytes; U+1680, U+2000..U+200A, U+2028, U+2029,
    U+202F, U+205F and U+3000 on three. *)
Definition space2 (c d : ascii) : bool :=
  byte_eqb c 0xC2 && (byte_eqb d 0x85 || byte_eqb d 0xA0).

Definition space3 (c d e : ascii) : bool :=
  (byte_eqb c 0xE1 && byte_eqb d 0x9A && byte_eqb e 0x80)
  || (byte_eqb c 0xE2 && byte_eqb d 0x80 &&
      (((0x80 <=? byte_val e) && (byte_val e <=? 0x8A))
       || byte_eqb e 0xA8 || byte_eqb e 0xA9 || byte_eqb e 0xAF))
  || (byte_eqb c 0xE2 && byte_eqb d 0x81 && byte_eqb e 0x9F)
  || (byte_eqb c 0xE3 && byte_eqb d 0x80 && byte_eqb e 0x80).

(** Drops the white space a string starts with; [sp2] and [sp3] recognise
    the two- and three-byte white-space characters in reading order. *)
Fixpoint stripSpace (sp2 : ascii -> ascii -> bool)
    (sp3 : ascii -> ascii -> ascii -> bool) (s : string) : string :=
  match s with
  | EmptyString => EmptyString
  | String c s1 =>
      if asciiSpace c then stripSpace sp2 sp3 s1 else
      match s1 with
      | EmptyString => s
      | String d s2 =>
          if sp2 c d then stripSpace sp2 sp3 s2 else
          match s2 with
          | EmptyString => s
          | String e s3 => if sp3 c d e then stripSpace sp2 sp3 s3 else s
          end
      end
  end.

Fixpoint srev (s : string) : string :=
  match s with
  | EmptyString => EmptyString
  | String c s' => srev s' +:+ String c EmptyString
  end.

Definition TrimLeftSpace (s : string) : string := stripSpace space2 space3 s.

(** The same scan from the end: on the reversed string the bytes of a
    character come last byte first. *)
Definition TrimRightSpace (s : string) : string :=
  srev (stripSpace (fun d c => space2 c d) (fun e d c => space3 c d e) (srev s)).

(** [strings.TrimSpace]: leading and trailing white space removed. *)
Definition TrimSpace (s : string) : string := TrimRightSpace (TrimLeftSpace s).

Definition lowerASCII (c : ascii) : ascii :=
  if (0x41 <=? byte_val c) && (byte_val c <=? 0x5A)
  then byte_of (byte_val c + 32) else c.

(** [lowerIs w s] decides [strings.ToLower(s) == w] for a word [w] of
    lower-case ASCII letters. An ASCII byte of [s] is lowered; of the
    characters beyond ASCII only U+0130 (bytes C4 B0) and U+212A (bytes
    E2 84 AA) lower to an ASCII letter, to [i] and to [k]; every other one,
    and every invalid byte, leaves a byte above 0x7F in the result. *)
Fixpoint lowerIs (w s : string) : bool :=
  match w, s with
  | EmptyString, EmptyString => true
  | String x w', String c s1 =>
      if byte_val c <? 0x80 then Ascii.eqb (lowerASCII c) x && lowerIs w' s1
      else
        match s1 with
        | EmptyString => false
        | String d s2 =>
            if byte_eqb c 0xC4 && byte_eqb d 0xB0 then
              Ascii.eqb x "i" && lowerIs w' s2
            else
              match s2 with
              | EmptyString => false
              | String e s3 =>
                  byte_eqb c 0xE2 && byte_eqb d 0x84 && byte_eqb e 0xAA
                  && Ascii.eqb x "k" && lowerIs w' s3
              end
        end
  | _, _ => false
  end.

(** [strings.ReplaceAll s old new] for a non-empty [old], as at both call
    sites: the occurrences of [old] are replaced from left to right without
    overlap. [skip] counts the bytes of a matched occurrence still to pass. *)
Fixpoint replaceFrom (old new : string) (skip : nat) (s : string) : string :=
  match s with
  | EmptyString => EmptyString
  | String c s' =>
      match skip with
      | S k => replaceFrom old new k s'
      | O =>
          if String.prefix old s
          then new +:+ replaceFrom old new (Nat.pred (String.length old)) s'
          else String c (replaceFrom old new O s')
      end
  end.

Definition ReplaceAll (s old new : string) : string := replaceFrom old new O s.

Definition LF : string := String (byte_of 10) EmptyString.

Fixpoint stake (n : nat) (s : string) : string :=
  match n, s with
  | S k, String c s' => String c (stake k s')
  | _, _ => EmptyString
  end.

Fixpoint sdrop (n : nat) (s : string) : string :=
  match n, s with
  | S k, String _ s' => sdrop k s'
  | _, _ => s
  end.

Definition sconcat (l : list string) : string :=
  fold_right String.append EmptyString l.

Fixpoint allBytes (P : ascii -> bool) (s : string) : bool :=
  match s with
  | EmptyString => true
  | String c s' => P c && allBytes P s'
  end.

Definition isNot (x c : ascii) : bool := negb (Ascii.eqb c x).

(** The digits of [hextable]. *)
Definition isHex (c : ascii) : bool :=
  ((0x30 <=? byte_val c) && (byte_val c <=? 0x39))
  || ((0x61 <=? byte_val c) && (byte_val c <=? 0x66)).

(** An ASCII byte that is not white space. *)
Definition plainByte (c : ascii) : Prop := byte_val c < 0x80 /\ asciiSpace c = false.

(** ** server.go: data *)

(** A [net.Conn] value: the identity of one accepted connection. *)
Definition Conn : Type := nat.

Record Client : Type := { conn : Conn; username : string }.

(** A row of the table [users] (server.go:74). *)
Record user_row : Type :=
  { row_id : Z; row_username : string; row_password : string }.

(** The errors of the driver: [username TEXT UNIQUE] is violated, or the
    database the statement runs in has no table [users]. *)
Inductive sql_error : Type := ErrUnique | ErrNoTable.

Definition Error (e : sql_error) : string :=
  match e with
  | ErrUnique => "UNIQUE constraint failed: users.username"
  | ErrNoTable => "no such table: users"
  end.

(** The two statements of [handleClient], in a database that has the table
    [users] with the rows [t]. *)

(** [SELECT password FROM users WHERE username = ?]: the password of the
    first row found, if there is one. *)
Definition select_password (usr : string) (t : list user_row) : option string :=
  row_password <$> List.find (fun r => String.eqb (row_username r) usr) t.

(** [INSERT INTO users (username, password) VALUES (?, ?)] under the schema
    of server.go:74-78: a name the table holds violates
    [username TEXT UNIQUE]; otherwise a row is added, with the next [id] of
    [AUTOINCREMENT]. *)
Definition insert_user (usr hashed : string) (t : list user_row)
    : sql_error + list user_row :=
  match select_password usr t with
  | Some _ => inl ErrUnique
  | None =>
      inr (t ++ [ {| row_id := Z.of_nat (length t) + 1;
                     row_username := usr; row_password := hashed |} ])
  end.

(** ** server.go:61: the pool behind [db]

    [sql.Open("sqlite3", ":memory:")] makes [db] a pool of connections, and
    server.go sets no limit on their number. Under the name [:memory:]
    every connection of the pool opens an in-memory database of its own.
    [initDatabase] creates the table [users] through one of them; no other
    statement of server.go creates a table, so the database of every other
    connection has none. [db.Exec] and [db.QueryRow] are served by the
    connection the pool picks: an idle one, or a new one when the others
    are in use by handlers that run at the same time. The pool may also
    close a connection it keeps idle; once it has closed [Creator], no
    connection has the table and every statement is served by [Another]. *)
Inductive pooled : Type :=
  | Creator   (* the connection the table was created through *)
  | Another.  (* any other connection of the pool *)

(** The table [users] as a statement served by [k] finds it, where [t] are
    the rows stored through [Creator]; [None]: no such table. *)
Definition database (k : pooled) (t : list user_row) : option (list user_row) :=
  match k with
  | Creator => Some t
  | Another => None
  end.

(** [db.Exec("INSERT INTO users ...", usr, hashed)] in the database [d]:
    the error, or the rows of that database afterwards. *)
Definition Exec_insert (d : option (list user_row)) (usr hashed : string)
    : sql_error + list user_row :=
  match d with
  | None => inl ErrNoTable
  | Some t => insert_user usr hashed t
  end.

(** [db.QueryRow("SELECT password ...", usr)] in the database [d] and
    [row.Scan(&storedPassword)]; [None] is a non-nil error: the one of the
    query, or [sql.ErrNoRows]. *)
Definition QueryRow_Scan (d : option (list user_row)) (usr : string)
    : option string :=
  match d with
  | None => None
  | Some t => select_password usr t
  end.

(** Where a [handleClient] goroutine stands: the read it is blocked in,
    with the local variables that are live there. *)
Inductive pc : Type :=
  | AtChoice                  (* server.go:93 *)
  | AtRegCode                 (* server.go:103 *)
  | AtRegUser                 (* server.go:123 *)
  | AtRegPass (usr : string)  (* server.go:132 *)
  | AtLoginUser               (* server.go:151 *)
  | AtLoginPass (usr : string) (* server.go:159 *)
  | AtChat (usr : string)     (* server.go:191 *)
  | Returned.                 (* returned; the deferred conn.Close() ran *)

(** The outcome of the read a handler is blocked in. At a
    [reader.ReadString('\n')], [Bytes l] is the string it returned with a
    nil error (the line with its delimiter). At the [conn.Read(buf)] of the
    chat loop, [Bytes d] is the data pending on the socket, which successive
    reads take [len(buf)] bytes at a time. [Failed] is a non-nil error. *)
Inductive read_result : Type :=
  | Bytes (data : string)
  | Failed.

(** The package-level variables, the goroutines and, for every connection,
    the writes made to it in order. Of [db], [users] are the rows of the
    table in the database of [Creator]; the databases of the other
    connections of the pool hold nothing. *)
Record Server : Type := {
  clients : gmap Conn Client;
  users : list user_row;
  masterRegKey : string;
  handlers : gmap Conn pc;
  wire : gmap Conn (list string)
}.

Definition written (s : Server) (c : Conn) : list string :=
  default [] (wire s !! c).

Definition set_clients (m : gmap Conn Client) (s : Server) : Server :=
  {| clients := m; users := users s; masterRegKey := masterRegKey s;
     handlers := handlers s; wire := wire s |}.

Definition set_users (t : list user_row) (s : Server) : Server :=
  {| clients := clients s; users := t; masterRegKey := masterRegKey s;
     handlers := handlers s; wire := wire s |}.

Definition goto (c : Conn) (p : pc) (s : Server) : Server :=
  {| clients := clients s; users := users s; masterRegKey := masterRegKey s;
     handlers := <[c := p]> (handlers s); wire := wire s |}.

(** One [Write] on a connection. Its error is ignored everywhere in
    server.go, so the model only records the bytes handed to it. *)
Definition Write (c : Conn) (data : string) (s : Server) : Server :=
  {| clients := clients s; users := users s; masterRegKey := masterRegKey s;
     handlers := handlers s;
     wire := <[c := written s c ++ [data]]> (wire s) |}.

Definition Fprintln (c : Conn) (a : string) (s : Server) : Server :=
  Write c (a +:+ LF) s.

(** [fmt.Fprintln] with two operands: a space between them. *)
Definition Fprintln2 (c : Conn) (a b : string) (s : Server) : Server :=
  Write c (a +:+ " " +:+ b +:+ LF) s.

(** ** server.go:209 [broadcast] *)

Definition broadcast (message : string) (sender : Conn) (s : Server) : Server :=
  map_fold (fun c (client : Client) st =>
              if decide (c <> sender) then Fprintln c message st else st)
           s (clients s).

(** ** server.go:34, 43: the secrets *)

(** [hex.EncodeToString(key)[:20]] of the bytes [rand.Read] put in [key]. *)
Definition generateRegistrationKey (key : list Z) : string :=
  stake 20 (EncodeToString key).

(** ** server.go:85 [handleClient] *)

Definition msgWelcome : string := "Welcome to the secure chat server!".
Definition msgChoice : string := "Enter 'login' or 'register': ".
Definition msgRegCode : string := "Enter the server's registration code: ".
Definition msgBadCode : string := "Invalid registration code. Closing connection.".
Definition msgRegUser : string := "Enter your desired username: ".
Definition msgRegPass : string := "Enter your desired password (typing not hidden): ".
Definition msgRegFail : string := "Failed to register: %v" +:+ LF.
Definition msgRegOk : string := "Registration successful! You can now login.".
Definition msgUser : string := "Username: ".
Definition msgPass : string := "Password (typing not hidden): ".
Definition msgBadLogin : string := "Invalid username or password.".
Definition msgBadChoice : string := "Invalid choice. Closing.".

Definition msgWelcomeBack (usr : string) : string :=
  "Welcome back, " +:+ usr +:+ "!" +:+ LF.
Definition msgJoined (usr : string) : string := usr +:+ " has joined the chat".
Definition msgLeft (usr : string) : string := usr +:+ " has left the chat".
Definition msgChat (usr message : string) : string := usr +:+ ": " +:+ message.

Definition bufLen : nat := 1024.

(** The chunks [conn.Read(buf)] returns while [pending] is on the socket:
    each call takes what is there, at most [len(buf)] bytes. *)
Fixpoint reads (fuel : nat) (pending : string) : list string :=
  match fuel, pending with
  | S k, String _ _ => stake bufLen pending :: reads k (sdrop bufLen pending)
  | _, _ => []
  end.

Definition connReads (pending : string) : list string :=
  reads (String.length pending) pending.

(** The chat loop (server.go:190) over the chunks its reads return: one
    broadcast for each. *)
Definition relay (usr : string) (c : Conn) (l : list string) (s : Server) : Server :=
  fold_left (fun st message => broadcast (msgChat usr message) c st) l s.

(** From the entry of [handleClient] to its first read. *)
Definition handleClient_start (c : Conn) (s : Server) : Server :=
  goto c AtChoice (Fprintln c msgChoice (Fprintln c msgWelcome s)).

(** From the return of the read at [p] to the next read, or to the return
    of [handleClient]; [k] is the connection of the pool that serves the
    statement executed on the way, if there is one. *)
Definition handleClient_resume (k : pooled) (c : Conn) (p : pc)
    (r : read_result) (s : Server) : Server :=
  match p, r with
  | Returned, _ => s
  | AtChat usr, Failed =>
      goto c Returned
        (broadcast (msgLeft usr) c (set_clients (delete c (clients s)) s))
  | AtChat usr, Bytes data =>
      relay usr c (connReads data) s
  | _, Failed => goto c Returned s
  | AtChoice, Bytes l =>
      let userChoice := TrimSpace l in
      if lowerIs "register" userChoice then
        goto c AtRegCode (Fprintln c msgRegCode s)
      else if lowerIs "login" userChoice then
        goto c AtLoginUser (Fprintln c msgUser s)
      else goto c Returned (Fprintln c msgBadChoice s)
  | AtRegCode, Bytes l =>
      let regAttempt := TrimSpace l in
      let regAttempt := ReplaceAll regAttempt "[" "" in
      let regAttempt := ReplaceAll regAttempt "]" "" in
      if negb (String.eqb regAttempt (masterRegKey s)) then
        goto c Returned (Fprintln c msgBadCode s)
      else goto c AtRegUser (Fprintln c msgRegUser s)
  | AtRegUser, Bytes l =>
      let usr := TrimSpace l in
      goto c (AtRegPass usr) (Fprintln c msgRegPass s)
  | AtRegPass usr, Bytes l =>
      let pwd := TrimSpace l in
      let hashed := hashPassword pwd in
      match Exec_insert (database k (users s)) usr hashed with
      | inl err => goto c Returned (Fprintln2 c msgRegFail (Error err) s)
      | inr t => goto c Returned (Fprintln c msgRegOk (set_users t s))
      end
  | AtLoginUser, Bytes l =>
      let usr := TrimSpace l in
      goto c (AtLoginPass usr) (Fprintln c msgPass s)
  | AtLoginPass usr, Bytes l =>
      let pwd := TrimSpace l in
      match QueryRow_Scan (database k (users s)) usr with
      | None => goto c Returned (Fprintln c msgBadLogin s)
      | Some storedPassword =>
          if negb (String.eqb (hashPassword pwd) storedPassword) then
            goto c Returned (Fprintln c msgBadLogin s)
          else
            let s := Write c (msgWelcomeBack usr) s in
            let s := set_clients
                       (<[c := {| conn := c; username := usr |}]> (clients s)) s in
            let s := broadcast (msgJoined usr) c s in
            goto c (AtChat usr) s
      end
  end.

(** ** server.go:220 [main]: the accept loop and the goroutines *)

Inductive Event : Type :=
  | Accept (c : Conn)                 (* ln.Accept() returned [c] *)
  | Recv (c : Conn) (r : read_result) (* the read [c]'s handler waits in
                                         returned; [Creator] serves the
                                         statement that follows, if any *)
  | RecvOther (c : Conn) (l : string). (* that read returned the line [l],
                                         and [Another] serves the statement
                                         that follows *)

(** The reads after which [handleClient] executes a statement. *)
Definition beforeStatement (p : pc) : bool :=
  match p with
  | AtRegPass _ | AtLoginPass _ => true
  | _ => false
  end.

(** One event. A connection value is accepted once, a read returns only for
    a connection that has a handler, and the pool serves a statement only
    where the handler executes one; other events change nothing. *)
Definition step (s : Server) (e : Event) : Server :=
  match e with
  | Accept c =>
      match handlers s !! c with
      | None => handleClient_start c s
      | Some _ => s
      end
  | Recv c r =>
      match handlers s !! c with
      | Some p => handleClient_resume Creator c p r s
      | None => s
      end
  | RecvOther c l =>
      match handlers s !! c with
      | Some p =>
          if beforeStatement p then handleClient_resume Another c p (Bytes l) s
          else s
      | None => s
      end
  end.

Definition run (s : Server) (evs : list Event) : Server := fold_left step evs s.

(** The state [main] enters its accept loop in: an empty table, an empty
    registry and the registration key. *)
Definition start (regKey : string) : Server :=
  {| clients := ∅; users := []; masterRegKey := regKey;
     handlers := ∅; wire := ∅ |}.

(** ** Vocabulary of the properties *)

(** What the handler compares with the key (server.go:110-117). *)
Definition submittedCode (l : string) : string :=
  ReplaceAll (ReplaceAll (TrimSpace l) "[" "") "]" "".

Definition broadcast_post (message : string) (sender : Conn) (s r : Server)
    (m : gmap Conn Client) : Prop :=
  clients r = clients s /\ users r = users s
  /\ masterRegKey r = masterRegKey s /\ handlers r = handlers s
  /\ forall c, written r c =
               if decide (is_Some (m !! c) /\ c <> sender)
               then written s c ++ [message +:+ LF] else written s c.

Definition notChat (p : pc) : Prop := forall usr, p <> AtChat usr.

(** The registry holds, under each connection, a client with that
    connection, whose handler is in the chat loop under the same name, and
    whose name is in the table. *)
Definition registry_ok (s : Server) : Prop :=
  forall c cl, clients s !! c = Some cl ->
    conn cl = c
    /\ handlers s !! c = Some (AtChat (username cl))
    /\ is_Some (select_password (username cl) (users s)).

(** A handler in the chat loop is registered. *)
Definition chatting_ok (s : Server) : Prop :=
  forall c usr, handlers s !! c = Some (AtChat usr) ->
    clients s !! c = Some {| conn := c; username := usr |}.

Definition Inv (s : Server) : Prop := registry_ok s /\ chatting_ok s.

(** The handler of [c] has returned and [c] is not registered. *)
Definition gone (s : Server) (c : Conn) : Prop :=
  handlers s !! c = Some Returned /\ clients s !! c = None.

(** ** Concrete runs *)

Definition line (s : string) : read_result := Bytes (s +:+ LF).

(** The key [main] derives when [rand.Read] yields the bytes 1, 2, ..., 20. *)
Definition exKey : string :=
  generateRegistrationKey
    [1; 2; 3; 4; 5; 6; 7; 8; 9; 10; 11; 12; 13; 14; 15; 16; 17; 18; 19; 20].

(** A client registers under the given name and password, on connection
    [c]. *)
Definition registers (c : Conn) (usr pwd : string) : list Event :=
  [Accept c; Recv c (line "register"); Recv c (line exKey);
   Recv c (line usr); Recv c (line pwd)].

(** A client logs in on connection [c]. *)
Definition logsIn (c : Conn) (usr pwd : string) : list Event :=
  [Accept c; Recv c (line "login"); Recv c (line usr); Recv c (line pwd)].

(** Alice, on connection 3, and Bob, on connection 4, are in the chat. *)
Definition twoChatting : Server :=
  run (start exKey)
      (registers 1%nat "alice" "pw1" ++ registers 2%nat "bob" "pw2"
       ++ logsIn 3%nat "alice" "pw1" ++ logsIn 4%nat "bob" "pw2").

Ltac split_post := split; [|split; [|split; [|split]]].

(** ** server.go:34 and 67: the encryption key *)

(** [hex.EncodeToString(key)] of the 32 bytes [rand.Read] put in [key]. *)
Definition generateEncryptionKey (key : list Z) : string := EncodeToString key.

(** The statement [initDatabase] builds with
    [fmt.Sprintf("PRAGMA key = '%s';", encryptionKey)]. *)
Definition pragmaKey (encryptionKey : string) : string :=
  "PRAGMA key = '" +:+ encryptionKey +:+ "';".

(** ** More vocabulary *)

(** The connection an event is about. *)
Definition event_conn (e : Event) : Conn :=
  match e with
  | Accept c => c
  | Recv c _ => c
  | RecvOther c _ => c
  end.

Definition isASCII (c : ascii) : bool := byte_val c <? 0x80.

Fixpoint lowerBytes (s : string) : string :=
  match s with
  | EmptyString => EmptyString
  | String c s' => String (lowerASCII c) (lowerBytes s')
  end.

(** A row as [handleClient] inserts it: a digest of 64 hexadecimal digits. *)
Definition row_ok (row : user_row) : Prop :=
  String.length (row_password row) = 64%nat
  /\ allBytes isHex (row_password row) = true.

(** The row a registration under [usr] with the password line [l] adds to
    the table [t] (server.go:139-141). *)
Definition new_row (t : list user_row) (usr l : string) : user_row :=
  {| row_id := Z.of_nat (length t) + 1; row_username := usr;
     row_password := hashPassword (TrimSpace l) |}.

(** The user names differ, the ids count from 1, the passwords are
    digests. *)
Definition table_ok (t : list user_row) : Prop :=
  List.NoDup (map row_username t)
  /\ map row_id t = map (fun i => Z.of_nat i + 1) (seq 0 (length t))
  /\ Forall row_ok t.

(** What a connection has been written starts with the two lines of
    [handleClient]'s entry, once it is accepted. *)
Definition transcript_ok (s : Server) : Prop :=
  forall c,
    match handlers s !! c with
    | None => written s c = []
    | Some _ =>
        exists rest, written s c = (msgWelcome +:+ LF) :: (msgChoice +:+ LF) :: rest
    end.

(** The value of a hexadecimal digit. *)
Definition hexval (c : ascii) : Z :=
  if byte_val c <? 0x3A then byte_val c - 0x30 else byte_val c - 0x61 + 10.

(** How many times a byte occurs in a string. *)
Fixpoint countByte (x : ascii) (s : string) : nat :=
  match s with
  | EmptyString => O
  | String c s' => ((if Ascii.eqb c x then 1 else 0) + countByte x s')%nat
  end.

(** The bytes a string of hexadecimal digits encodes. *)
Fixpoint decodeHex (s : string) : list Z :=
  match s with
  | String a (String b s') => (16 * hexval a + hexval b) :: decodeHex s'
  | _ => []
  end.

(** * chat_client.go *)

(** ** strings and bufio: the library functions the client calls *)

(** [strings.Contains]. *)
Fixpoint Contains (s substr : string) : bool :=
  String.prefix substr s
  || match s with
     | EmptyString => false
     | String _ s' => Contains s' substr
     end.

Fixpoint inCutset (c : ascii) (cutset : string) : bool :=
  match cutset with
  | EmptyString => false
  | String x cutset' => Ascii.eqb c x || inCutset c cutset'
  end.

Fixpoint dropWhileIn (cutset s : string) : string :=
  match s with
  | EmptyString => EmptyString
  | String c s' => if inCutset c cutset then dropWhileIn cutset s' else s
  end.

(** [strings.TrimRight s cutset] for a cut set of ASCII characters, as at
    its call site: the trailing bytes that are in the cut set are removed. *)
Definition TrimRight (s cutset : string) : string :=
  srev (dropWhileIn cutset (srev s)).

(** [strings.Repeat]. *)
Fixpoint Repeat (s : string) (count : nat) : string :=
  match count with
  | O => EmptyString
  | S k => s +:+ Repeat s k
  end.

Definition CR : string := String (byte_of 13) EmptyString.

(** [dropCR] of bufio: one trailing carriage return is dropped. *)
Definition dropCR (data : string) : string :=
  match srev data with
  | String c r => if Ascii.eqb c (byte_of 13) then srev r else data
  | EmptyString => data
  end.

Definition endsWithCR (data : string) : bool :=
  match srev data with
  | String c _ => Ascii.eqb c (byte_of 13)
  | EmptyString => false
  end.

(** [bufio.MaxScanTokenSize]: the size the buffer of a Scanner grows to. *)
Definition maxScanTokenSize : Z := 64 * 1024.

(** How a scan ends: at the end of the stream, or on [bufio.ErrTooLong]
    when the buffer is full and holds no line feed. *)
Inductive scan_end : Type := ScanDone | ScanTooLong.

(** The tokens [scanner.Scan()] yields with the default split function
    [bufio.ScanLines] over the bytes of a stream up to its end: [cur] holds
    the bytes read since the last line feed. A line feed ends a token; the
    bytes left at the end of the stream are a last token when there are
    any; each token loses one trailing carriage return. *)
Fixpoint scanFrom (cur data : string) : list string * scan_end :=
  match data with
  | EmptyString =>
      if String.eqb cur "" then ([], ScanDone)
      else if Z.of_nat (String.length cur) <? maxScanTokenSize
           then ([dropCR cur], ScanDone)
           else ([], ScanTooLong)
  | String c rest =>
      if Ascii.eqb c (byte_of 10) then
        if Z.of_nat (String.length cur) + 1 <=? maxScanTokenSize then
          let (toks, e) := scanFrom EmptyString rest in (dropCR cur :: toks, e)
        else ([], ScanTooLong)
      else scanFrom (cur +:+ String c EmptyString) rest
  end.

Definition scanLines (data : string) : list string * scan_end :=
  scanFrom EmptyString data.

(** A line that [fmt.Fprintln] can carry and [bufio.ScanLines] gives back:
    no line feed in it, no carriage return at its end, and short enough
    for the buffer of the Scanner. *)
Definition wholeLine (l : string) : Prop :=
  allBytes (isNot (byte_of 10)) l = true
  /\ endsWithCR l = false
  /\ Z.of_nat (String.length l) < maxScanTokenSize.

(** ** chat_client.go: the Bubble Tea model *)

Module ChatClient.

Inductive clientState : Type := stateLogin | statePassword | stateChat.

Definition clientState_eqb (a b : clientState) : bool :=
  match a, b with
  | stateLogin, stateLogin | statePassword, statePassword
  | stateChat, stateChat => true
  | _, _ => false
  end.

(** [conn] is [None] for a nil connection. *)
Record model : Type := {
  messages : list string;
  input : string;
  conn : option Conn;
  exit : bool;
  state : clientState;
  prevState : clientState
}.

(** The type of a key message, as far as [Update] tells them apart. *)
Inductive KeyType : Type := KeyEnter | KeyBackspace | KeyOther.

(** What [Update] is sent: a key, with its type and the text of
    [msg.String()]; a string, which is a line from the server; or a message
    of another type. *)
Inductive Msg : Type :=
  | KeyMsg (type : KeyType) (str : string)
  | ServerLine (msg : string)
  | OtherMsg.

Inductive Cmd : Type := Quit.

(** What one call of [Update] gives: the model, the command, and the bytes
    it wrote to the connection, if any. *)
Record result : Type := {
  next : model;
  cmd : option Cmd;
  sent : option string
}.

Definition set_input (i : string) (m : model) : model :=
  {| messages := messages m; input := i; conn := conn m; exit := exit m;
     state := state m; prevState := prevState m |}.

Definition set_messages (l : list string) (m : model) : model :=
  {| messages := l; input := input m; conn := conn m; exit := exit m;
     state := state m; prevState := prevState m |}.

Definition set_state (st : clientState) (m : model) : model :=
  {| messages := messages m; input := input m; conn := conn m; exit := exit m;
     state := st; prevState := prevState m |}.

Definition set_prevState (st : clientState) (m : model) : model :=
  {| messages := messages m; input := input m; conn := conn m; exit := exit m;
     state := state m; prevState := st |}.

Definition set_exit (b : bool) (m : model) : model :=
  {| messages := messages m; input := input m; conn := conn m; exit := b;
     state := state m; prevState := prevState m |}.

(** chat_client.go:134 [exitProgram]. *)
Definition exitProgram (m : model) (w : option string) : result :=
  {| next := set_exit true m; cmd := Some Quit; sent := w |}.

Definition msgClosed : string := "Connection closed by server.".
Definition markPassword : string := "(typing not hidden):".
Definition markWelcome : string := "Welcome back".
Definition markJoined : string := "has joined the chat".

(** chat_client.go:35 [Update]. *)
Definition Update (m : model) (msg : Msg) : result :=
  match msg with
  | KeyMsg KeyEnter _ =>
      match conn m with
      | Some _ =>
          if (0 <? String.length (input m))%nat then
            if String.eqb (input m) "/exit" then exitProgram m None
            else
              let w := input m +:+ LF in
              let m :=
                if clientState_eqb (state m) stateChat
                then set_messages (messages m ++ ["You: " +:+ input m]) m
                else m in
              let m :=
                if clientState_eqb (state m) statePassword
                then set_state (prevState m) m
                else m in
              {| next := set_input "" m; cmd := None; sent := Some w |}
          else {| next := set_input "" m; cmd := None; sent := None |}
      | None => {| next := set_input "" m; cmd := None; sent := None |}
      end
  | KeyMsg KeyBackspace _ =>
      let m :=
        if (0 <? String.length (input m))%nat
        then set_input (stake (String.length (input m) - 1) (input m)) m
        else m in
      {| next := m; cmd := None; sent := None |}
  | KeyMsg KeyOther str =>
      {| next := set_input (input m +:+ str) m; cmd := None; sent := None |}
  | ServerLine msg =>
      let serverLine := TrimRight msg (CR +:+ LF) in
      if String.eqb serverLine msgClosed then
        exitProgram (set_messages (messages m ++ [serverLine]) m) None
      else
        let m :=
          if Contains serverLine markPassword
          then set_state statePassword (set_prevState (state m) m)
          else m in
        if Contains serverLine markWelcome || Contains serverLine markJoined then
          {| next := set_messages [serverLine] (set_state stateChat m);
             cmd := None; sent := None |}
        else
          let trimmed := TrimSpace serverLine in
          let m :=
            if negb (String.eqb trimmed "")
            then set_messages (messages m ++ [trimmed]) m
            else m in
          {| next := m; cmd := None; sent := None |}
  | OtherMsg => {| next := m; cmd := None; sent := None |}
  end.

(** chat_client.go:118 [View]. *)
Definition View (m : model) : string :=
  let sb := fold_left (fun sb l => sb +:+ (l +:+ LF)) (messages m) EmptyString in
  let sb := sb +:+ (LF +:+ "Type /exit to quit." +:+ LF +:+ "> ") in
  if clientState_eqb (state m) statePassword
  then sb +:+ Repeat "*" (String.length (input m))
  else sb +:+ input m.

(** The messages in order through [Update], the commands dropped. *)
Definition updates (m : model) (msgs : list Msg) : model :=
  fold_left (fun m msg => next (Update m msg)) msgs m.

(** chat_client.go:158: the messages the reading goroutine sends for the
    bytes of the server, up to a clean end of the stream. *)
Definition serverMsgs (data : string) : list Msg :=
  let (toks, e) := scanLines data in
  map ServerLine toks
  ++ [ServerLine
        match e with
        | ScanDone => msgClosed
        | ScanTooLong => "Error reading from server: bufio.Scanner: token too long"
        end].

End ChatClient.

(** ** Passwords and digests *)

(** The number a list of bytes writes in base 256, the first byte the least
    significant. *)
Fixpoint bytesNumber (l : list Z) : Z :=
  match l with
  | [] => 0
  | b :: l' => b + 256 * bytesNumber l'
  end.

(** The passwords [pw], [paw], [paaw], ... *)
Definition longPassword (n : nat) : string :=
  String "p" (Repeat "a" n +:+ "w").

(** [sha256.Sum256] of the password [handleClient] keeps of a line. *)
Definition lineSum (l : string) : list Z :=
  SHA256.Sum256 (bytes_of_string (TrimSpace l)).

(** * Properties *)

(** ** The library functions on known values *)

Example SHA256_constants :
  length SHA256.K = 64%nat
  /\ nth 0 SHA256.K 0 = 0x428a2f98 /\ nth 63 SHA256.K 0 = 0xc67178f2
  /\ nth 0 SHA256.H0 0 = 0x6a09e667 /\ nth 7 SHA256.H0 0 = 0x5be0cd19.
Proof. repeat split; reflexivity. Qed.

Example hashPassword_abc :
  hashPassword "abc" =
  "ba7816bf8f01cfea414140de5dae2223b00361a396177a9cb410ff61f20015ad".
Proof. vm_compute. reflexivity. Qed.

Example hashPassword_empty :
  hashPassword "" =
  "e3b0c44298fc1c149afbf4c8996fb92427ae41e4649b934ca495991b7852b855".
Proof. vm_compute. reflexivity. Qed.

Example TrimSpace_ex1 : TrimSpace ("  bob " +:+ LF) = "bob".
Proof. reflexivity. Qed.
Example TrimSpace_ex2 : TrimSpace ("a b" +:+ String (byte_of 13) LF) = "a b".
Proof. reflexivity. Qed.
Example TrimSpace_ex3 :
  TrimSpace (string_of_bytes [0xC2; 0xA0; 0x61; 0xE2; 0x80; 0x8A; 0xE3; 0x80; 0x80; 32])
  = "a".
Proof. reflexivity. Qed.
Example TrimSpace_ex4 :
  TrimSpace (string_of_bytes [0x61; 0xE2; 0x80; 0x8B]) = string_of_bytes [0x61; 0xE2; 0x80; 0x8B].
Proof. reflexivity. Qed.
Example ReplaceAll_ex : ReplaceAll "[a[]b]" "[" "" = "a]b]".
Proof. reflexivity. Qed.
Example ReplaceAll_ex2 : ReplaceAll "aaab" "aa" "x" = "xab".
Proof. reflexivity. Qed.
Example lowerIs_ex : lowerIs "register" "ReGiStEr" = true.
Proof. reflexivity. Qed.
Example lowerIs_ex2 : lowerIs "login" "logins" = false.
Proof. reflexivity. Qed.

(** ** Strings *)

Section StringFacts.

Implicit Types (s t u : string) (c d e : ascii).

Lemma sapp_cons c s t : String c s +:+ t = String c (s +:+ t).
Proof. reflexivity. Qed.

Lemma sapp_nil_l s : "" +:+ s = s.
Proof. reflexivity. Qed.

Lemma sapp_nil_r s : s +:+ "" = s.
Proof.
  induction s as [|c s IH]; [reflexivity|]. now rewrite sapp_cons, IH.
Qed.

Lemma sapp_assoc s t u : (s +:+ t) +:+ u = s +:+ (t +:+ u).
Proof.
  induction s as [|c s IH]; [reflexivity|]. now rewrite !sapp_cons, IH.
Qed.

Lemma sapp_inv_head s t u : s +:+ t = s +:+ u -> t = u.
Proof.
  induction s as [|c s IH]; [easy|].
  rewrite !sapp_cons. intros H. injection H. exact IH.
Qed.

Lemma length_sapp s t :
  String.length (s +:+ t) = (String.length s + String.length t)%nat.
Proof.
  induction s as [|c s IH]; [reflexivity|].
  rewrite sapp_cons. cbn [String.length]. now rewrite IH.
Qed.

Lemma srev_app s t : srev (s +:+ t) = srev t +:+ srev s.
Proof.
  induction s as [|c s IH].
  - rewrite sapp_nil_l. cbn [srev]. now rewrite sapp_nil_r.
  - rewrite sapp_cons. cbn [srev]. now rewrite IH, sapp_assoc.
Qed.

Lemma srev_involutive s : srev (srev s) = s.
Proof.
  induction s as [|c s IH]; [reflexivity|].
  cbn [srev]. now rewrite srev_app, IH.
Qed.

Lemma stake_sdrop n s : stake n s +:+ sdrop n s = s.
Proof.
  revert s. induction n as [|n IH]; intros [|c s]; try reflexivity.
  cbn [stake sdrop]. now rewrite sapp_cons, IH.
Qed.

Lemma length_stake n s : String.length (stake n s) = Nat.min n (String.length s).
Proof.
  revert s. induction n as [|n IH]; intros [|c s]; try reflexivity.
  cbn [stake String.length Nat.min]. now rewrite IH.
Qed.

Lemma length_sdrop n s : String.length (sdrop n s) = (String.length s - n)%nat.
Proof.
  revert s. induction n as [|n IH]; intros [|c s]; try reflexivity.
  cbn [sdrop String.length Nat.sub]. apply IH.
Qed.

(** What [stripSpace] returns is the end of its argument. *)
Lemma stripSpace_suffix sp2 sp3 s : exists a, s = a +:+ stripSpace sp2 sp3 s.
Proof.
  assert (H : forall n s, (String.length s < n)%nat ->
                          exists a, s = a +:+ stripSpace sp2 sp3 s).
  { clear s. induction n as [|n IH]; intros s Hn; [lia|].
    destruct s as [|c s1]; [now exists ""|].
    cbn [stripSpace]. destruct (asciiSpace c).
    { destruct (IH s1) as [a Ha]; [cbn [String.length] in Hn; lia|].
      exists (String c a). now rewrite sapp_cons, <- Ha. }
    destruct s1 as [|d s2]; [now exists ""|].
    destruct (sp2 c d).
    { destruct (IH s2) as [a Ha]; [cbn [String.length] in Hn; lia|].
      exists (String c (String d a)). now rewrite !sapp_cons, <- Ha. }
    destruct s2 as [|e s3]; [now exists ""|].
    destruct (sp3 c d e); [|now exists ""].
    destruct (IH s3) as [a Ha]; [cbn [String.length] in Hn; lia|].
    exists (String c (String d (String e a))). now rewrite !sapp_cons, <- Ha. }
  apply (H (S (String.length s))). lia.
Qed.

(** [TrimSpace] keeps a contiguous piece of its argument: nothing inside
    is changed. *)
Lemma TrimSpace_infix s : exists a b, s = a +:+ TrimSpace s +:+ b.
Proof.
  unfold TrimSpace, TrimLeftSpace, TrimRightSpace.
  destruct (stripSpace_suffix space2 space3 s) as [a Ha].
  set (m := stripSpace space2 space3 s) in *.
  destruct (stripSpace_suffix (fun d c => space2 c d)
              (fun e d c => space3 c d e) (srev m)) as [b Hb].
  exists a, (srev b).
  rewrite <- srev_app, <- Hb, srev_involutive. exact Ha.
Qed.

Lemma byte_eqb_ascii c n : byte_val c < 0x80 -> 0x80 <= n -> byte_eqb c n = false.
Proof. intros. unfold byte_eqb. apply Z.eqb_neq. lia. Qed.

Lemma space2_ascii_l c d : byte_val c < 0x80 -> space2 c d = false.
Proof. intros H. unfold space2. now rewrite (byte_eqb_ascii c) by (assumption || lia). Qed.

Lemma space2_ascii_r c d : byte_val d < 0x80 -> space2 c d = false.
Proof.
  intros H. unfold space2.
  rewrite !(byte_eqb_ascii d) by (assumption || lia). apply andb_false_r.
Qed.

Lemma space3_ascii_l c d e : byte_val c < 0x80 -> space3 c d e = false.
Proof. intros H. unfold space3. now rewrite !(byte_eqb_ascii c) by (assumption || lia). Qed.

Lemma space3_ascii_r c d e : byte_val e < 0x80 -> space3 c d e = false.
Proof.
  intros H. unfold space3.
  rewrite !(byte_eqb_ascii e) by (assumption || lia).
  replace (0x80 <=? byte_val e) with false by (symmetry; apply Z.leb_gt; lia).
  rewrite !andb_false_r. reflexivity.
Qed.

Lemma TrimLeftSpace_plain c s : plainByte c -> TrimLeftSpace (String c s) = String c s.
Proof.
  intros [Hlt Hsp]. unfold TrimLeftSpace. cbn [stripSpace]. rewrite Hsp.
  destruct s as [|d [|e s]]; try reflexivity.
  - now rewrite space2_ascii_l.
  - now rewrite space2_ascii_l, space3_ascii_l.
Qed.

Lemma TrimRightSpace_plain_LF s c :
  plainByte c -> TrimRightSpace (s +:+ String c LF) = s +:+ String c "".
Proof.
  intros [Hlt Hsp]. unfold TrimRightSpace.
  rewrite srev_app. change (srev (String c LF)) with (LF +:+ String c "").
  change ((LF +:+ String c "") +:+ srev s)
    with (String (byte_of 10) (String c (srev s))).
  cbn [stripSpace]. change (asciiSpace (byte_of 10)) with true. cbv iota.
  rewrite Hsp.
  assert (E : forall t, srev (String c t) = srev t +:+ String c "") by reflexivity.
  destruct (srev s) as [|d [|e t]] eqn:Hs.
  - rewrite E. simpl. rewrite <- (srev_involutive s), Hs. reflexivity.
  - rewrite space2_ascii_r by assumption.
    rewrite <- (srev_involutive s), Hs. reflexivity.
  - rewrite space2_ascii_r, space3_ascii_r by assumption.
    rewrite <- (srev_involutive s), Hs. reflexivity.
Qed.

(** A line made of a string that starts and ends with plain ASCII bytes,
    and the line feed: [TrimSpace] removes the line feed only. *)
Lemma TrimSpace_plain_line c s d :
  plainByte c -> plainByte d ->
  TrimSpace (String c (s +:+ String d LF)) = String c (s +:+ String d "").
Proof.
  intros Hc Hd. unfold TrimSpace. rewrite TrimLeftSpace_plain by assumption.
  apply (TrimRightSpace_plain_LF (String c s) d Hd).
Qed.

End StringFacts.

Section ReplaceFacts.

Implicit Types (s t : string) (x c : ascii).

Lemma prefix_one x c s :
  String.prefix (String x "") (String c s) = Ascii.eqb c x.
Proof.
  cbn [String.prefix]. destruct (ascii_dec x c) as [->|Hne].
  - rewrite Ascii.eqb_refl. now destruct s.
  - symmetry. apply Ascii.eqb_neq. congruence.
Qed.

(** Replacing the one-byte string [x] by the empty string passes over a
    stretch that has no [x] and drops an [x]. *)
Lemma replace_one_skip x s t :
  allBytes (isNot x) s = true ->
  ReplaceAll (s +:+ t) (String x "") "" = s +:+ ReplaceAll t (String x "") "".
Proof.
  unfold ReplaceAll. induction s as [|c s IH]; intros H; [reflexivity|].
  cbn [allBytes] in H. apply andb_true_iff in H as [Hc Hs].
  rewrite !sapp_cons. cbn [replaceFrom]. rewrite prefix_one.
  unfold isNot in Hc. apply negb_true_iff in Hc. rewrite Hc.
  now rewrite IH.
Qed.

Lemma replace_one_hit x t :
  ReplaceAll (String x t) (String x "") "" = ReplaceAll t (String x "") "".
Proof.
  unfold ReplaceAll. cbn [replaceFrom]. rewrite prefix_one, Ascii.eqb_refl.
  reflexivity.
Qed.

Lemma replace_one_none x s :
  allBytes (isNot x) s = true -> ReplaceAll s (String x "") "" = s.
Proof.
  intros H. rewrite <- (sapp_nil_r s) at 1.
  rewrite replace_one_skip by assumption. now rewrite sapp_nil_r.
Qed.

Lemma allBytes_impl (P Q : ascii -> bool) s :
  (forall c, P c = true -> Q c = true) ->
  allBytes P s = true -> allBytes Q s = true.
Proof.
  intros HPQ. induction s as [|c s IH]; [easy|]. cbn [allBytes].
  rewrite !andb_true_iff. intros [? ?]. split; auto.
Qed.

Lemma allBytes_stake P n s : allBytes P s = true -> allBytes P (stake n s) = true.
Proof.
  revert s. induction n as [|n IH]; intros [|c s]; try easy.
  cbn [stake allBytes]. rewrite !andb_true_iff. intros [? ?]. split; auto.
Qed.

End ReplaceFacts.

(** ** The registration key is made of hexadecimal digits *)

Lemma hexdigit_isHex z : isHex (hexdigit z) = true.
Proof.
  unfold hexdigit. generalize (Z.to_nat z). intros n.
  do 16 (destruct n as [|n]; [reflexivity|]).
  destruct n; reflexivity.
Qed.

Lemma EncodeToString_isHex l : allBytes isHex (EncodeToString l) = true.
Proof.
  induction l as [|v l IH]; [reflexivity|].
  cbn [EncodeToString allBytes]. now rewrite !hexdigit_isHex, IH.
Qed.

Lemma isHex_isNot c x : isHex x = false -> isHex c = true -> isNot x c = true.
Proof.
  intros Hx Hc. unfold isNot. apply negb_true_iff, Ascii.eqb_neq.
  intros ->. congruence.
Qed.

Lemma generateRegistrationKey_isHex key :
  allBytes isHex (generateRegistrationKey key) = true.
Proof. apply allBytes_stake, EncodeToString_isHex. Qed.

(** ** The reads of the chat loop *)

Section ReadFacts.

Implicit Types (p : string) (fuel : nat).

Lemma reads_cons fuel c p :
  reads (S fuel) (String c p) =
  stake bufLen (String c p) :: reads fuel (sdrop bufLen (String c p)).
Proof. reflexivity. Qed.

Lemma bufLen_pos : (0 < bufLen)%nat.
Proof. unfold bufLen. lia. Qed.

Lemma reads_concat fuel p :
  (String.length p <= fuel)%nat -> sconcat (reads fuel p) = p.
Proof.
  revert p. induction fuel as [|fuel IH]; intros [|c p] H;
    try reflexivity; [cbn [String.length] in H; lia|].
  rewrite reads_cons. cbn [sconcat fold_right]. fold (sconcat (reads fuel (sdrop bufLen (String c p)))).
  rewrite IH; [apply stake_sdrop|].
  rewrite length_sdrop. pose proof bufLen_pos. lia.
Qed.

Lemma reads_bounded fuel p :
  Forall (fun chunk => (0 < String.length chunk <= bufLen)%nat) (reads fuel p).
Proof.
  revert p. induction fuel as [|fuel IH]; intros [|c p]; try constructor.
  - rewrite length_stake. cbn [String.length]. pose proof bufLen_pos. lia.
  - apply IH.
Qed.

Lemma reads_one fuel p :
  (0 < String.length p <= bufLen)%nat -> (String.length p <= fuel)%nat ->
  reads fuel p = [p].
Proof.
  intros Hp Hf. destruct fuel as [|fuel]; [lia|].
  destruct p as [|c p]; [cbn [String.length] in Hp; lia|].
  rewrite reads_cons.
  assert (Hd : String.length (sdrop bufLen (String c p)) = 0%nat)
    by (rewrite length_sdrop; lia).
  assert (Ht : stake bufLen (String c p) = String c p).
  { rewrite <- (stake_sdrop bufLen (String c p)) at 2.
    destruct (sdrop bufLen (String c p)); [now rewrite sapp_nil_r | discriminate]. }
  rewrite Ht. f_equal.
  destruct (sdrop bufLen (String c p)); [|discriminate].
  now destruct fuel.
Qed.

Lemma reads_many fuel p :
  (bufLen < String.length p)%nat -> (String.length p <= fuel)%nat ->
  (2 <= length (reads fuel p))%nat.
Proof.
  intros Hp Hf. destruct fuel as [|fuel]; [lia|].
  destruct p as [|c p]; [cbn [String.length] in Hp; lia|].
  rewrite reads_cons. cbn [length].
  assert (Hd : (0 < String.length (sdrop bufLen (String c p)))%nat)
    by (rewrite length_sdrop; lia).
  assert (Hd' : (String.length (sdrop bufLen (String c p)) <= fuel)%nat).
  { rewrite length_sdrop. pose proof bufLen_pos. lia. }
  destruct (sdrop bufLen (String c p)) as [|d q]; [cbn in Hd; lia|].
  destruct fuel as [|fuel]; [cbn [String.length] in Hd'; lia|].
  rewrite reads_cons. cbn [length]. lia.
Qed.

End ReadFacts.

(** ** The table [users] *)

Section TableFacts.

Implicit Types (t : list user_row) (usr hashed : string).

Lemma select_password_app usr t r :
  select_password usr (t ++ [r]) =
  match select_password usr t with
  | Some h => Some h
  | None => if String.eqb (row_username r) usr then Some (row_password r) else None
  end.
Proof.
  unfold select_password. induction t as [|r0 t IH]; cbn [List.find app].
  - now destruct (String.eqb (row_username r) usr).
  - destruct (String.eqb (row_username r0) usr); [reflexivity | exact IH].
Qed.

Lemma insert_user_fresh usr hashed t :
  select_password usr t = None ->
  exists t', insert_user usr hashed t = inr t'
             /\ select_password usr t' = Some hashed
             /\ forall u h, select_password u t = Some h -> select_password u t' = Some h.
Proof.
  intros Hn. unfold insert_user. rewrite Hn. eexists. split; [reflexivity|].
  split.
  - rewrite select_password_app, Hn. cbn [row_username row_password].
    now rewrite String.eqb_refl.
  - intros u h Hu. now rewrite select_password_app, Hu.
Qed.

Lemma insert_user_taken usr hashed t :
  is_Some (select_password usr t) -> insert_user usr hashed t = inl ErrUnique.
Proof. intros [h Hh]. unfold insert_user. now rewrite Hh. Qed.

Lemma insert_user_inr usr hashed t t' :
  insert_user usr hashed t = inr t' ->
  select_password usr t = None
  /\ t' = t ++ [ {| row_id := Z.of_nat (length t) + 1;
                    row_username := usr; row_password := hashed |} ].
Proof.
  unfold insert_user. destruct (select_password usr t); [discriminate|].
  intros [= <-]. auto.
Qed.

Lemma insert_user_keeps usr hashed t t' u h :
  insert_user usr hashed t = inr t' ->
  select_password u t = Some h -> select_password u t' = Some h.
Proof.
  intros Hi Hu. apply insert_user_inr in Hi as [_ ->].
  now rewrite select_password_app, Hu.
Qed.

End TableFacts.

(** ** Writes and [broadcast] *)

Section WireFacts.

Implicit Types (s : Server) (c sender : Conn) (message data : string).

Lemma written_Write c data s c' :
  written (Write c data s) c' =
  if decide (c = c') then written s c ++ [data] else written s c'.
Proof.
  unfold written at 1. cbn [wire Write]. rewrite lookup_insert.
  destruct (decide (c = c')) as [->|Hne]; reflexivity.
Qed.

Lemma written_goto c p s c' : written (goto c p s) c' = written s c'.
Proof. reflexivity. Qed.

Lemma written_set_clients m s c' : written (set_clients m s) c' = written s c'.
Proof. reflexivity. Qed.

Lemma written_set_users t s c' : written (set_users t s) c' = written s c'.
Proof. reflexivity. Qed.

(** [broadcast] writes the message once to every registered connection
    other than the sender and changes nothing else. *)
Lemma broadcast_spec message sender s :
  broadcast_post message sender s (broadcast message sender s) (clients s).
Proof.
  unfold broadcast.
  apply (map_fold_weak_ind (broadcast_post message sender s)).
  - unfold broadcast_post. split_post; reflexivity.
  - intros i x m r Hi (Hc & Hu & Hk & Hh & Hw).
    destruct (decide (i <> sender)) as [Hne|Heq].
    + split_post; try assumption. intros c.
      unfold Fprintln. rewrite written_Write, !Hw.
      destruct (decide (i = c)) as [->|Hic].
      * rewrite lookup_insert_eq, Hi.
        destruct (decide (is_Some None /\ c <> sender)) as [[[? [=]] _]|_].
        destruct (decide _) as [_|Hn]; [reflexivity|].
        exfalso. apply Hn. split; [eauto | assumption].
      * rewrite lookup_insert_ne by assumption. reflexivity.
    + split_post; try assumption. intros c. rewrite Hw.
      assert (i = sender) as -> by (destruct (decide (i = sender)); [assumption|contradiction]).
      destruct (decide (sender = c)) as [<-|Hic].
      * destruct (decide _) as [[_ ?]|_]; [contradiction|].
        destruct (decide _) as [[_ ?]|_]; [contradiction|reflexivity].
      * rewrite lookup_insert_ne by assumption. reflexivity.
Qed.

Lemma clients_broadcast message sender s :
  clients (broadcast message sender s) = clients s.
Proof. apply broadcast_spec. Qed.

Lemma users_broadcast message sender s :
  users (broadcast message sender s) = users s.
Proof. apply broadcast_spec. Qed.

Lemma masterRegKey_broadcast message sender s :
  masterRegKey (broadcast message sender s) = masterRegKey s.
Proof. apply broadcast_spec. Qed.

Lemma handlers_broadcast message sender s :
  handlers (broadcast message sender s) = handlers s.
Proof. apply broadcast_spec. Qed.

Lemma written_broadcast message sender s c :
  written (broadcast message sender s) c =
  if decide (is_Some (clients s !! c) /\ c <> sender)
  then written s c ++ [message +:+ LF] else written s c.
Proof. apply broadcast_spec. Qed.

Lemma relay_spec usr sender l s :
  clients (relay usr sender l s) = clients s
  /\ users (relay usr sender l s) = users s
  /\ masterRegKey (relay usr sender l s) = masterRegKey s
  /\ handlers (relay usr sender l s) = handlers s
  /\ forall c, written (relay usr sender l s) c =
               if decide (is_Some (clients s !! c) /\ c <> sender)
               then written s c ++ map (fun m => msgChat usr m +:+ LF) l
               else written s c.
Proof.
  unfold relay. revert s. induction l as [|m l IH]; intros s; cbn [fold_left map].
  - split_post; try reflexivity. intros c.
    destruct (decide _); [now rewrite app_nil_r | reflexivity].
  - destruct (IH (broadcast (msgChat usr m) sender s)) as (Hc & Hu & Hk & Hh & Hw).
    rewrite Hc, Hu, Hk, Hh, clients_broadcast, users_broadcast,
      masterRegKey_broadcast, handlers_broadcast.
    split_post; try reflexivity. intros c.
    rewrite Hw, clients_broadcast, written_broadcast.
    destruct (decide _); [|reflexivity].
    now rewrite <- app_assoc.
Qed.

End WireFacts.

(** ** The handler, one read at a time *)

Section HandlerFacts.

Implicit Types (s : Server) (c : Conn) (p : pc) (r : read_result) (usr l : string).

Lemma step_Recv s c p r :
  handlers s !! c = Some p ->
  step s (Recv c r) = handleClient_resume Creator c p r s.
Proof. intros H. cbn [step]. now rewrite H. Qed.

Lemma step_RecvOther s c p l :
  handlers s !! c = Some p -> beforeStatement p = true ->
  step s (RecvOther c l) = handleClient_resume Another c p (Bytes l) s.
Proof. intros H Hb. cbn [step]. now rewrite H, Hb. Qed.

(** Every event is the entry of a handler, the resumption of one, or
    nothing. *)
Lemma step_cases s e :
  step s e = s
  \/ (exists c, e = Accept c /\ handlers s !! c = None
                /\ step s e = handleClient_start c s)
  \/ (exists k p r, handlers s !! event_conn e = Some p
                /\ step s e = handleClient_resume k (event_conn e) p r s).
Proof.
  destruct e as [c|c r|c l]; cbn [step event_conn].
  - destruct (handlers s !! c) eqn:Hp; [now left|]. right; left. eauto.
  - destruct (handlers s !! c) as [p|] eqn:Hp; [|now left].
    right; right. eauto.
  - destruct (handlers s !! c) as [p|] eqn:Hp; [|now left].
    destruct (beforeStatement p); [|now left]. right; right. eauto.
Qed.

Lemma resume_chat k usr c data s :
  handleClient_resume k c (AtChat usr) (Bytes data) s
  = relay usr c (connReads data) s.
Proof. reflexivity. Qed.

Lemma Exec_insert_Creator usr hashed (t : list user_row) :
  Exec_insert (database Creator t) usr hashed = insert_user usr hashed t.
Proof. reflexivity. Qed.

Lemma QueryRow_Scan_Creator usr (t : list user_row) :
  QueryRow_Scan (database Creator t) usr = select_password usr t.
Proof. reflexivity. Qed.

Ltac proj :=
  cbn [clients users handlers masterRegKey goto Fprintln Fprintln2 Write
       set_clients set_users];
  rewrite ?clients_broadcast, ?users_broadcast, ?handlers_broadcast,
    ?masterRegKey_broadcast;
  cbn [clients users handlers masterRegKey goto Fprintln Fprintln2 Write
       set_clients set_users].

(** What one resumption does to the table, the registry and the
    goroutines; the five shapes are: a login accepted, a chat read failed,
    a chat read served, a handler that returned earlier, and the dialogue
    steps, which leave the registry alone. *)
Lemma resume_shape k c p r s :
  let s' := handleClient_resume k c p r s in
  (forall u h, select_password u (users s) = Some h ->
               select_password u (users s') = Some h)
  /\ masterRegKey s' = masterRegKey s
  /\ ((exists usr, p = AtLoginPass usr
          /\ is_Some (select_password usr (users s'))
          /\ clients s' = <[c := {| conn := c; username := usr |}]> (clients s)
          /\ handlers s' = <[c := AtChat usr]> (handlers s))
      \/ (exists usr, p = AtChat usr
          /\ clients s' = delete c (clients s)
          /\ handlers s' = <[c := Returned]> (handlers s))
      \/ (exists usr, p = AtChat usr
          /\ clients s' = clients s /\ handlers s' = handlers s)
      \/ (p = Returned /\ s' = s)
      \/ (notChat p /\ clients s' = clients s
          /\ exists p', notChat p' /\ handlers s' = <[c := p']> (handlers s))).
Proof.
  assert (Hdial : forall p', notChat p -> notChat p' ->
            notChat p /\ clients s = clients s
            /\ exists p'', notChat p'' /\ <[c := p']> (handlers s) = <[c := p'']> (handlers s))
    by (intros p' ? ?; split; [assumption|split; [reflexivity|eauto]]).
  assert (HR : notChat Returned) by (intros ?; discriminate).
  destruct p as [| | |usr| |usr|usr|]; destruct r as [l|];
    cbn [handleClient_resume Exec_insert QueryRow_Scan database]; cbv zeta;
    try (split; [intros u h Hu; exact Hu | split; [reflexivity|];
         do 4 right; apply Hdial; [intros ?; discriminate | exact HR]]).
  - (* AtChoice *)
    destruct (lowerIs "register" (TrimSpace l)); [|destruct (lowerIs "login" (TrimSpace l))];
      (split; [intros u h Hu; exact Hu | split; [reflexivity|];
         do 4 right; apply Hdial; intros ?; discriminate]).
  - (* AtRegCode *)
    destruct (negb _);
      (split; [intros u h Hu; exact Hu | split; [reflexivity|];
         do 4 right; apply Hdial; intros ?; discriminate]).
  - (* AtRegUser *)
    split; [intros u h Hu; exact Hu | split; [reflexivity|];
         do 4 right; apply Hdial; intros ?; discriminate].
  - (* AtRegPass *)
    destruct (Exec_insert (database k (users s)) usr (hashPassword (TrimSpace l)))
      as [e|t] eqn:Hi.
    + split; [intros u h Hu; exact Hu | split; [reflexivity|];
         do 4 right; apply Hdial; intros ?; discriminate].
    + destruct k; [|discriminate]. rewrite Exec_insert_Creator in Hi.
      split; [intros u h Hu; proj; eapply insert_user_keeps; eassumption|].
      split; [reflexivity|].
      do 4 right. proj. apply Hdial; intros ?; discriminate.
  - (* AtLoginUser *)
    split; [intros u h Hu; exact Hu | split; [reflexivity|];
         do 4 right; apply Hdial; intros ?; discriminate].
  - (* AtLoginPass *)
    destruct (QueryRow_Scan (database k (users s)) usr) as [stored|] eqn:Hsel.
    + destruct k; [|discriminate]. rewrite QueryRow_Scan_Creator in Hsel.
      destruct (negb _).
      * split; [intros u h Hu; exact Hu | split; [reflexivity|];
         do 4 right; apply Hdial; intros ?; discriminate].
      * split; [intros u h Hu; proj; exact Hu|]. split; [now proj|].
        left. exists usr. proj. rewrite Hsel. eauto.
    + split; [intros u h Hu; exact Hu | split; [reflexivity|];
         do 4 right; apply Hdial; intros ?; discriminate].
  - (* AtChat, data *)
    fold (relay usr c (connReads l) s).
    destruct (relay_spec usr c (connReads l) s) as (Hc & Hu & Hk & Hh & _).
    split; [intros u h; now rewrite Hu|]. split; [assumption|].
    right; right; left. eauto.
  - (* AtChat, failure *)
    split; [intros u h Hu; proj; exact Hu|]. split; [now proj|].
    right; left. exists usr. proj. auto.
  - (* Returned *)
    split; [intros u h Hu; exact Hu|]. split; [reflexivity|].
    do 3 right. left. auto.
  - split; [intros u h Hu; exact Hu|]. split; [reflexivity|].
    do 3 right. left. auto.
Qed.

End HandlerFacts.

(** ** Invariants of the reachable states *)

Section Invariants.

Implicit Types (s : Server) (c : Conn) (e : Event) (evs : list Event).

Lemma Inv_start regKey : Inv (start regKey).
Proof.
  split.
  - intros c cl H. cbn [clients start] in H. now rewrite lookup_empty in H.
  - intros c usr H. cbn [handlers start] in H. now rewrite lookup_empty in H.
Qed.

Lemma run_app s evs evs' : run s (evs ++ evs') = run (run s evs) evs'.
Proof. apply fold_left_app. Qed.

Lemma run_cons s e evs : run s (e :: evs) = run (step s e) evs.
Proof. reflexivity. Qed.

Lemma Inv_step s e : Inv s -> Inv (step s e).
Proof.
  intros [Hreg Hchat].
  destruct (step_cases s e) as [->|[(c & _ & Hp & ->)|(k & p & r & Hp & ->)]];
    [now split| |set (c := event_conn e) in *].
  - unfold handleClient_start. split.
    + intros c0 cl H. cbn [clients users handlers goto Fprintln Write] in *.
      destruct (Hreg c0 cl H) as (? & Hh & ?).
      split; [assumption|]. split; [|assumption].
      rewrite lookup_insert_ne; [assumption|]. intros ->. congruence.
    + intros c0 usr H. cbn [clients users handlers goto Fprintln Write] in *.
      destruct (decide (c = c0)) as [->|Hne].
      * rewrite lookup_insert_eq in H. discriminate.
      * rewrite lookup_insert_ne in H by assumption. now apply Hchat.
  - destruct (resume_shape k c p r s) as (Hmono & _ & Hshape).
    set (s' := handleClient_resume k c p r s) in *.
    assert (Hsel : forall u, is_Some (select_password u (users s)) ->
                             is_Some (select_password u (users s')))
      by (intros u [h Hh]; exists h; now apply Hmono).
    destruct Hshape as [(usr & -> & Hin & Hc & Hh)
                       |[(usr & -> & Hc & Hh)
                       |[(usr & -> & Hc & Hh)
                       |[(-> & Hs)
                       |(Hnc & Hc & p' & Hnc' & Hh)]]]].
    + (* login accepted *)
      split.
      * intros c0 cl H. rewrite Hc in H. rewrite Hh.
        destruct (decide (c = c0)) as [->|Hne].
        -- rewrite lookup_insert_eq in H. injection H as <-.
           rewrite lookup_insert_eq. auto.
        -- rewrite lookup_insert_ne in H by assumption.
           rewrite lookup_insert_ne by assumption.
           destruct (Hreg c0 cl H) as (? & ? & ?). auto.
      * intros c0 usr0 H. rewrite Hh in H. rewrite Hc.
        destruct (decide (c = c0)) as [->|Hne].
        -- rewrite lookup_insert_eq in H. injection H as <-.
           now rewrite lookup_insert_eq.
        -- rewrite lookup_insert_ne in H by assumption.
           rewrite lookup_insert_ne by assumption. now apply Hchat.
    + (* chat read failed *)
      split.
      * intros c0 cl H. rewrite Hc in H. rewrite Hh.
        destruct (decide (c = c0)) as [->|Hne].
        -- now rewrite lookup_delete_eq in H.
        -- rewrite lookup_delete_ne in H by assumption.
           rewrite lookup_insert_ne by assumption.
           destruct (Hreg c0 cl H) as (? & ? & ?). auto.
      * intros c0 usr0 H. rewrite Hh in H. rewrite Hc.
        destruct (decide (c = c0)) as [->|Hne].
        -- rewrite lookup_insert_eq in H. discriminate.
        -- rewrite lookup_insert_ne in H by assumption.
           rewrite lookup_delete_ne by assumption. now apply Hchat.
    + (* chat read served *)
      split.
      * intros c0 cl H. rewrite Hc in H. rewrite Hh.
        destruct (Hreg c0 cl H) as (? & ? & ?). auto.
      * intros c0 usr0 H. rewrite Hh in H. rewrite Hc. now apply Hchat.
    + rewrite Hs. now split.
    + (* dialogue *)
      split.
      * intros c0 cl H. rewrite Hc in H. rewrite Hh.
        destruct (Hreg c0 cl H) as (? & Hh0 & ?).
        split; [assumption|]. split; [|auto].
        rewrite lookup_insert_ne; [assumption|].
        intros ->. rewrite Hp in Hh0. injection Hh0 as ->. now apply (Hnc (username cl)).
      * intros c0 usr0 H. rewrite Hh in H. rewrite Hc.
        destruct (decide (c = c0)) as [->|Hne].
        -- rewrite lookup_insert_eq in H. injection H as ->. now destruct (Hnc' usr0).
        -- rewrite lookup_insert_ne in H by assumption. now apply Hchat.
Qed.

Lemma Inv_run s evs : Inv s -> Inv (run s evs).
Proof.
  revert s. induction evs as [|e evs IH]; intros s H; [assumption|].
  rewrite run_cons. apply IH, Inv_step, H.
Qed.

(** The table only grows: a stored digest is never changed or removed. *)
Lemma users_step s e u h :
  select_password u (users s) = Some h ->
  select_password u (users (step s e)) = Some h.
Proof.
  intros H.
  destruct (step_cases s e) as [->|[(c & _ & _ & ->)|(k & p & r & _ & ->)]];
    [assumption|assumption|].
  now apply resume_shape.
Qed.

Lemma users_run s evs u h :
  select_password u (users s) = Some h ->
  select_password u (users (run s evs)) = Some h.
Proof.
  revert s. induction evs as [|e evs IH]; intros s H; [assumption|].
  rewrite run_cons. apply IH, users_step, H.
Qed.

Lemma masterRegKey_step s e : masterRegKey (step s e) = masterRegKey s.
Proof.
  destruct (step_cases s e) as [->|[(c & _ & _ & ->)|(k & p & r & _ & ->)]];
    [reflexivity|reflexivity|].
  apply resume_shape.
Qed.

Lemma masterRegKey_run s evs : masterRegKey (run s evs) = masterRegKey s.
Proof.
  revert s. induction evs as [|e evs IH]; intros s; [reflexivity|].
  rewrite run_cons, IH. apply masterRegKey_step.
Qed.

End Invariants.

(** ** A connection nobody writes to *)

Section Gone.

Implicit Types (s : Server) (c : Conn) (e : Event) (evs : list Event).

Ltac wr :=
  repeat first
    [ rewrite written_goto | rewrite written_set_clients
    | rewrite written_set_users | rewrite written_broadcast
    | rewrite written_Write
    | progress unfold Fprintln, Fprintln2
    | progress cbn [clients set_clients set_users Write goto]
    | rewrite clients_broadcast ].

(** A handler writes to its own connection and, through [broadcast], to
    registered ones; an unregistered connection other than its own gets
    nothing. *)
Lemma resume_written_other k c' p r s c :
  c <> c' -> clients s !! c = None ->
  written (handleClient_resume k c' p r s) c = written s c.
Proof.
  intros Hne Hc.
  assert (Hd : forall (A : Type) (x y : A),
             (if decide (c' = c) then x else y) = y)
    by (intros; destruct (decide (c' = c)); [congruence|reflexivity]).
  assert (Hd' : forall (A : Type) (x y : A),
             (if decide (is_Some (clients s !! c) /\ c <> c') then x else y) = y).
  { intros. destruct (decide (is_Some (clients s !! c) /\ c <> c')) as [[Hs _]|];
      [|reflexivity].
    rewrite Hc in Hs. now destruct Hs. }
  destruct p as [| | |usr| |usr|usr|]; destruct r as [l|];
    cbn [handleClient_resume Exec_insert QueryRow_Scan database]; cbv zeta; try reflexivity.
  - destruct (lowerIs "register" (TrimSpace l)); [|destruct (lowerIs "login" (TrimSpace l))];
      wr; apply Hd.
  - destruct (negb _); wr; apply Hd.
  - wr; apply Hd.
  - destruct (Exec_insert _ _ _); wr; apply Hd.
  - wr; apply Hd.
  - destruct (QueryRow_Scan _ _); [destruct (negb _)|]; wr; try apply Hd.
    rewrite lookup_insert_ne by congruence. rewrite Hd', Hd. reflexivity.
  - change (written (relay usr c' (connReads l) s) c = written s c).
    destruct (relay_spec usr c' (connReads l) s) as (_ & _ & _ & _ & Hw).
    rewrite Hw. apply Hd'.
  - wr. rewrite lookup_delete_ne by congruence. apply Hd'.
Qed.

Lemma gone_step s c e :
  gone s c -> gone (step s e) c /\ written (step s e) c = written s c.
Proof.
  intros [Hh Hc].
  destruct (step_cases s e) as [->|[(c' & _ & Hp & ->)|(k & p & r & Hp & ->)]];
    [now repeat split| |set (c' := event_conn e) in *].
  - assert (c' <> c) by congruence.
    unfold handleClient_start, gone.
    cbn [clients handlers goto Fprintln Write].
    rewrite lookup_insert_ne by assumption.
    repeat split; try assumption.
    rewrite written_goto. unfold Fprintln. rewrite !written_Write.
    destruct (decide (c' = c)); [contradiction|reflexivity].
  - destruct (decide (c' = c)) as [Heq|Hne].
    { rewrite Heq, Hh in Hp. injection Hp as <-. now repeat split. }
    split; [|apply resume_written_other; [congruence|assumption]].
    destruct (resume_shape k c' p r s) as (_ & _ & Hshape).
    unfold gone.
    destruct Hshape as [(usr & -> & Hin & Hc' & Hh')
                       |[(usr & -> & Hc' & Hh')
                       |[(usr & -> & Hc' & Hh')
                       |[(-> & Hs)
                       |(Hnc & Hc' & p' & Hnc' & Hh')]]]];
      rewrite ?Hs, ?Hc', ?Hh', ?lookup_insert_ne, ?lookup_delete_ne by assumption;
      now split.
Qed.

Lemma gone_run s c evs :
  gone s c -> gone (run s evs) c /\ written (run s evs) c = written s c.
Proof.
  revert s. induction evs as [|e evs IH]; intros s H; [now split|].
  rewrite run_cons. destruct (gone_step s c e H) as [H1 H2].
  destruct (IH _ H1) as [H3 H4]. split; [assumption | congruence].
Qed.

End Gone.

Section ServerProperties.

Implicit Types (s : Server) (c : Conn) (usr l : string) (evs : list Event).

Lemma written_Fprintln c a s : written (Fprintln c a s) c = written s c ++ [a +:+ LF].
Proof.
  unfold Fprintln. rewrite written_Write.
  destruct (decide (c = c)); [reflexivity|contradiction].
Qed.

Lemma written_Fprintln2 c a b s :
  written (Fprintln2 c a b s) c = written s c ++ [a +:+ " " +:+ b +:+ LF].
Proof.
  unfold Fprintln2. rewrite written_Write.
  destruct (decide (c = c)); [reflexivity|contradiction].
Qed.

Lemma handlers_goto c p s : handlers (goto c p s) !! c = Some p.
Proof. cbn [handlers goto]. apply lookup_insert_eq. Qed.

(** *** The registration of a name *)

Lemma register_fresh s c usr l :
  handlers s !! c = Some (AtRegPass usr) ->
  select_password usr (users s) = None ->
  let s' := step s (Recv c (Bytes l)) in
  written s' c = written s c ++ [msgRegOk +:+ LF]
  /\ handlers s' !! c = Some Returned
  /\ users s' = users s ++ [ {| row_id := Z.of_nat (length (users s)) + 1;
                               row_username := usr;
                               row_password := hashPassword (TrimSpace l) |} ]
  /\ select_password usr (users s') = Some (hashPassword (TrimSpace l)).
Proof.
  intros Hp Hn s'. subst s'. rewrite (step_Recv _ _ _ _ Hp).
  cbn [handleClient_resume Exec_insert QueryRow_Scan database]. cbv zeta. unfold insert_user. rewrite Hn.
  rewrite written_goto, written_Fprintln, handlers_goto.
  cbn [users goto Fprintln Write set_users].
  repeat split; try reflexivity.
  rewrite select_password_app, Hn. cbn [row_username row_password].
  now rewrite String.eqb_refl.
Qed.

Lemma register_taken s c usr l :
  handlers s !! c = Some (AtRegPass usr) ->
  is_Some (select_password usr (users s)) ->
  let s' := step s (Recv c (Bytes l)) in
  written s' c = written s c ++ [msgRegFail +:+ " " +:+ Error ErrUnique +:+ LF]
  /\ handlers s' !! c = Some Returned
  /\ users s' = users s.
Proof.
  intros Hp Hin s'. subst s'. rewrite (step_Recv _ _ _ _ Hp).
  cbn [handleClient_resume Exec_insert QueryRow_Scan database]. cbv zeta. rewrite insert_user_taken by assumption.
  rewrite written_goto, written_Fprintln2, handlers_goto.
  repeat split; reflexivity.
Qed.

(** *** The registration code *)

Lemma isHex_plain a : isHex a = true -> plainByte a.
Proof.
  unfold isHex, plainByte, asciiSpace. intros H. split; [lia|].
  apply orb_false_iff. split; [apply andb_false_iff|]; lia.
Qed.

Lemma isHex_no_bracket (k : string) :
  allBytes isHex k = true ->
  allBytes (isNot "[") k = true /\ allBytes (isNot "]") k = true.
Proof.
  intros H. split; apply (allBytes_impl isHex); try assumption;
    intros a; now apply isHex_isNot.
Qed.

(** The key between brackets, followed by the line feed, reads as the key. *)
Lemma submittedCode_bracketed k :
  allBytes isHex k = true -> submittedCode ("[" +:+ k +:+ "]" +:+ LF) = k.
Proof.
  intros Hk. destruct (isHex_no_bracket k Hk) as [Ho Hc]. unfold submittedCode.
  change ("[" +:+ k +:+ "]" +:+ LF) with (String "[" (k +:+ String "]" LF)).
  rewrite TrimSpace_plain_line by (split; [vm_compute|]; reflexivity).
  rewrite replace_one_hit, replace_one_skip by assumption.
  change (ReplaceAll "]" "[" "") with "]"%string.
  rewrite replace_one_skip by assumption.
  change (ReplaceAll "]" "]" "") with ""%string.
  apply sapp_nil_r.
Qed.

(** C3 (amended). At the registration-code prompt the line is trimmed and
    every [ and ] in it is removed. If what remains differs from the key,
    the handler writes the invalid-code line and returns; if it equals the
    key, the handler prompts for the user name. In particular the generated
    key between brackets is accepted. *)
Theorem registration_code s c l :
  handlers s !! c = Some AtRegCode ->
  let s' := step s (Recv c (Bytes l)) in
  (submittedCode l <> masterRegKey s ->
     written s' c = written s c ++ [msgBadCode +:+ LF]
     /\ handlers s' !! c = Some Returned)
  /\ (submittedCode l = masterRegKey s ->
     written s' c = written s c ++ [msgRegUser +:+ LF]
     /\ handlers s' !! c = Some AtRegUser)
  /\ (forall key, masterRegKey s = generateRegistrationKey key ->
       l = "[" +:+ masterRegKey s +:+ "]" +:+ LF ->
       written s' c = written s c ++ [msgRegUser +:+ LF]
       /\ handlers s' !! c = Some AtRegUser).
Proof.
  intros Hp s'.
  assert (Hacc : submittedCode l = masterRegKey s ->
            written s' c = written s c ++ [msgRegUser +:+ LF]
            /\ handlers s' !! c = Some AtRegUser).
  { intros He. subst s'. rewrite (step_Recv _ _ _ _ Hp).
    cbn [handleClient_resume Exec_insert QueryRow_Scan database]. cbv zeta. fold (submittedCode l).
    rewrite He, String.eqb_refl. cbn [negb].
    now rewrite written_goto, written_Fprintln, handlers_goto. }
  split; [|split; [exact Hacc|]].
  - intros Hne. subst s'. rewrite (step_Recv _ _ _ _ Hp).
    cbn [handleClient_resume Exec_insert QueryRow_Scan database]. cbv zeta. fold (submittedCode l).
    apply String.eqb_neq in Hne. rewrite Hne. cbn [negb].
    now rewrite written_goto, written_Fprintln, handlers_goto.
  - intros key Hkey ->. apply Hacc. rewrite Hkey.
    apply submittedCode_bracketed, generateRegistrationKey_isHex.
Qed.

Lemma registration_code_witness :
  let s := run (start exKey) [Accept 1%nat; Recv 1%nat (line "register")] in
  handlers s !! 1%nat = Some AtRegCode
  /\ submittedCode ("0102030405060708090b" +:+ LF) <> masterRegKey s
  /\ (let s' := step s (Recv 1%nat (line "0102030405060708090b")) in
      written s' 1%nat = written s 1%nat ++ [msgBadCode +:+ LF]
      /\ handlers s' !! 1%nat = Some Returned)
  /\ masterRegKey s = generateRegistrationKey
                        [1; 2; 3; 4; 5; 6; 7; 8; 9; 10; 11; 12; 13; 14; 15; 16;
                         17; 18; 19; 20]
  /\ (let s' := step s (Recv 1%nat (line ("[" +:+ masterRegKey s +:+ "]"))) in
      written s' 1%nat = written s 1%nat ++ [msgRegUser +:+ LF]
      /\ handlers s' !! 1%nat = Some AtRegUser).
Proof.
  intros s.
  assert (Hp : handlers s !! 1%nat = Some AtRegCode) by (vm_compute; reflexivity).
  assert (Hne : submittedCode ("0102030405060708090b" +:+ LF) <> masterRegKey s)
    by (vm_compute; discriminate).
  assert (Hk : masterRegKey s = generateRegistrationKey
                 [1; 2; 3; 4; 5; 6; 7; 8; 9; 10; 11; 12; 13; 14; 15; 16;
                  17; 18; 19; 20]) by (vm_compute; reflexivity).
  split; [exact Hp|]. split; [exact Hne|]. split; [|split; [exact Hk|]].
  - destruct (registration_code s 1%nat ("0102030405060708090b" +:+ LF) Hp)
      as (H1 & _ & _).
    exact (H1 Hne).
  - destruct (registration_code s 1%nat ("[" +:+ masterRegKey s +:+ "]" +:+ LF) Hp)
      as (_ & _ & H3).
    exact (H3 _ Hk eq_refl).
Defined.

(** C3, as stated, fails: the key followed by one closing bracket differs
    from the key by one character once trimmed, and is accepted. *)
Lemma registration_code_counterexample :
  let s := run (start exKey) [Accept 1%nat; Recv 1%nat (line "register")] in
  let l := exKey +:+ "]" +:+ LF in
  let s' := step s (Recv 1%nat (Bytes l)) in
  masterRegKey s = "0102030405060708090a"
  /\ TrimSpace l = "0102030405060708090a]"
  /\ TrimSpace l <> masterRegKey s
  /\ written s' 1%nat = written s 1%nat ++ [msgRegUser +:+ LF]
  /\ handlers s' !! 1%nat = Some AtRegUser.
Proof. vm_compute. repeat split; discriminate. Qed.

(** *** Logging in *)

Lemma login_user_step s c l :
  handlers s !! c = Some AtLoginUser ->
  step s (Recv c (Bytes l)) = goto c (AtLoginPass (TrimSpace l)) (Fprintln c msgPass s).
Proof. intros Hp. now rewrite (step_Recv _ _ _ _ Hp). Qed.

Lemma login_rejected s c usr l :
  handlers s !! c = Some (AtLoginPass usr) ->
  match select_password usr (users s) with
  | None => True
  | Some stored => hashPassword (TrimSpace l) <> stored
  end ->
  step s (Recv c (Bytes l)) = goto c Returned (Fprintln c msgBadLogin s).
Proof.
  intros Hp Hsel. rewrite (step_Recv _ _ _ _ Hp).
  cbn [handleClient_resume Exec_insert QueryRow_Scan database]. cbv zeta.
  destruct (select_password usr (users s)) as [stored|]; [|reflexivity].
  apply String.eqb_neq in Hsel. now rewrite Hsel.
Qed.

Lemma login_accepted s c usr l :
  handlers s !! c = Some (AtLoginPass usr) ->
  select_password usr (users s) = Some (hashPassword (TrimSpace l)) ->
  let s' := step s (Recv c (Bytes l)) in
  written s' c = written s c ++ [msgWelcomeBack usr]
  /\ handlers s' !! c = Some (AtChat usr)
  /\ clients s' = <[c := {| conn := c; username := usr |}]> (clients s)
  /\ forall c', c' <> c -> is_Some (clients s !! c') ->
       written s' c' = written s c' ++ [msgJoined usr +:+ LF].
Proof.
  intros Hp Hsel s'. subst s'. rewrite (step_Recv _ _ _ _ Hp).
  cbn [handleClient_resume Exec_insert QueryRow_Scan database]. cbv zeta. rewrite Hsel, String.eqb_refl. cbn [negb].
  rewrite handlers_goto. cbn [clients goto]. rewrite clients_broadcast.
  cbn [clients set_clients Write].
  split; [|split; [reflexivity|split; [reflexivity|]]].
  - rewrite written_goto, written_broadcast.
    destruct (decide _) as [[_ Hne]|_]; [contradiction|].
    rewrite written_set_clients, written_Write.
    destruct (decide (c = c)); [reflexivity|contradiction].
  - intros c' Hne Hin. rewrite written_goto, written_broadcast.
    cbn [clients set_clients Write]. rewrite lookup_insert_ne by congruence.
    destruct (decide _) as [_|Hn]; [|exfalso; apply Hn; now split].
    rewrite written_set_clients, written_Write.
    destruct (decide (c = c')); [congruence|reflexivity].
Qed.

Lemma registered_of_success s c usr l :
  handlers s !! c = Some (AtRegPass usr) ->
  written (step s (Recv c (Bytes l))) c = written s c ++ [msgRegOk +:+ LF] ->
  select_password usr (users (step s (Recv c (Bytes l))))
  = Some (hashPassword (TrimSpace l)).
Proof.
  intros Hp Hw. destruct (select_password usr (users s)) as [stored|] eqn:Hsel.
  - destruct (register_taken s c usr l Hp) as (Hw' & _); [rewrite Hsel; eauto|].
    cbv zeta in Hw'. rewrite Hw' in Hw. apply app_inv_head in Hw.
    vm_compute in Hw. discriminate.
  - now apply register_fresh.
Qed.

(** After a registration that wrote the success line, a login under the
    same name served by the connection that holds the table is decided by
    the digest. *)
Lemma login_decided s c1 usr l1 evs c2 l2 :
  handlers s !! c1 = Some (AtRegPass usr) ->
  let s1 := step s (Recv c1 (Bytes l1)) in
  written s1 c1 = written s c1 ++ [msgRegOk +:+ LF] ->
  let s2 := run s1 evs in
  handlers s2 !! c2 = Some (AtLoginPass usr) ->
  let s3 := step s2 (Recv c2 (Bytes l2)) in
  (hashPassword (TrimSpace l2) = hashPassword (TrimSpace l1) ->
     written s3 c2 = written s2 c2 ++ [msgWelcomeBack usr]
     /\ handlers s3 !! c2 = Some (AtChat usr)
     /\ clients s3 !! c2 = Some {| conn := c2; username := usr |})
  /\ (hashPassword (TrimSpace l2) <> hashPassword (TrimSpace l1) ->
      written s3 c2 = written s2 c2 ++ [msgBadLogin +:+ LF]
      /\ handlers s3 !! c2 = Some Returned
      /\ clients s3 = clients s2).
Proof.
  intros Hp1 s1 Hok s2 Hp2 s3.
  assert (Hsel : select_password usr (users s2) = Some (hashPassword (TrimSpace l1)))
    by (apply users_run, registered_of_success; assumption).
  split.
  - intros He. rewrite <- He in Hsel.
    destruct (login_accepted s2 c2 usr l2 Hp2 Hsel) as (Hw & Hh & Hc & _).
    fold s3 in Hw, Hh, Hc. rewrite Hc, lookup_insert_eq. auto.
  - intros Hne. unfold s3.
    rewrite (login_rejected s2 c2 usr l2 Hp2) by now rewrite Hsel.
    now rewrite written_goto, written_Fprintln, handlers_goto.
Qed.

(** *** A statement served by a connection without the table *)

Lemma register_elsewhere s c usr l :
  handlers s !! c = Some (AtRegPass usr) ->
  step s (RecvOther c l)
  = goto c Returned (Fprintln2 c msgRegFail (Error ErrNoTable) s).
Proof. intros Hp. now rewrite (step_RecvOther _ _ _ _ Hp). Qed.

Lemma login_elsewhere s c usr l :
  handlers s !! c = Some (AtLoginPass usr) ->
  step s (RecvOther c l) = goto c Returned (Fprintln c msgBadLogin s).
Proof. intros Hp. now rewrite (step_RecvOther _ _ _ _ Hp). Qed.

Lemma goto_Fprintln_goto c p q a s :
  goto c p (Fprintln c a (goto c q s)) = goto c p (Fprintln c a s).
Proof.
  unfold goto, Fprintln, Write, written.
  cbn [clients users masterRegKey handlers wire].
  now rewrite insert_insert_eq.
Qed.

(** C4. From the user-name prompt, a login under a name the table does not
    hold and a login under a name it holds with a password of another
    digest write the same two lines, the password prompt and the rejection;
    both handlers return; and, started from the same state on the same
    connection, the two attempts end in the same state of the server. *)
Theorem login_rejection_uniform s1 c1 u1 p1 s2 c2 u2 p2 stored :
  handlers s1 !! c1 = Some AtLoginUser ->
  select_password (TrimSpace u1) (users s1) = None ->
  handlers s2 !! c2 = Some AtLoginUser ->
  select_password (TrimSpace u2) (users s2) = Some stored ->
  hashPassword (TrimSpace p2) <> stored ->
  let sa := step (step s1 (Recv c1 (Bytes u1))) (Recv c1 (Bytes p1)) in
  let sb := step (step s2 (Recv c2 (Bytes u2))) (Recv c2 (Bytes p2)) in
  written sa c1 = written s1 c1 ++ [msgPass +:+ LF; msgBadLogin +:+ LF]
  /\ written sb c2 = written s2 c2 ++ [msgPass +:+ LF; msgBadLogin +:+ LF]
  /\ handlers sa !! c1 = Some Returned
  /\ handlers sb !! c2 = Some Returned
  /\ (s1 = s2 -> c1 = c2 -> sa = sb).
Proof.
  intros Hp1 Hn Hp2 Hs Hne sa sb.
  assert (Ea : sa = goto c1 Returned (Fprintln c1 msgBadLogin (Fprintln c1 msgPass s1))).
  { unfold sa. rewrite (login_user_step _ _ _ Hp1).
    rewrite (login_rejected _ c1 (TrimSpace u1) p1).
    - apply goto_Fprintln_goto.
    - apply handlers_goto.
    - cbn [users goto Fprintln Write]. now rewrite Hn. }
  assert (Eb : sb = goto c2 Returned (Fprintln c2 msgBadLogin (Fprintln c2 msgPass s2))).
  { unfold sb. rewrite (login_user_step _ _ _ Hp2).
    rewrite (login_rejected _ c2 (TrimSpace u2) p2).
    - apply goto_Fprintln_goto.
    - apply handlers_goto.
    - cbn [users goto Fprintln Write]. now rewrite Hs. }
  rewrite Ea, Eb, !written_goto, !written_Fprintln, !handlers_goto, <- !app_assoc.
  repeat split; try reflexivity. intros -> ->. reflexivity.
Qed.

Lemma login_rejection_uniform_witness :
  let s := run (start exKey) (registers 1%nat "alice" "pw1"
                              ++ [Accept 2%nat; Recv 2%nat (line "login")]) in
  handlers s !! 2%nat = Some AtLoginUser
  /\ select_password "mallory" (users s) = None
  /\ select_password "alice" (users s) = Some (hashPassword "pw1")
  /\ hashPassword "guess" <> hashPassword "pw1"
  /\ let sa := step (step s (Recv 2%nat (line "mallory"))) (Recv 2%nat (line "guess")) in
     let sb := step (step s (Recv 2%nat (line "alice"))) (Recv 2%nat (line "guess")) in
     written sa 2%nat = written s 2%nat ++ [msgPass +:+ LF; msgBadLogin +:+ LF]
     /\ written sb 2%nat = written s 2%nat ++ [msgPass +:+ LF; msgBadLogin +:+ LF]
     /\ sa = sb.
Proof.
  intros s.
  assert (Hp : handlers s !! 2%nat = Some AtLoginUser) by (vm_compute; reflexivity).
  assert (Hn : select_password (TrimSpace ("mallory" +:+ LF)) (users s) = None)
    by (vm_compute; reflexivity).
  assert (Hs : select_password (TrimSpace ("alice" +:+ LF)) (users s)
               = Some (hashPassword "pw1")) by (vm_compute; reflexivity).
  assert (Hne : hashPassword (TrimSpace ("guess" +:+ LF)) <> hashPassword "pw1")
    by (vm_compute; discriminate).
  destruct (login_rejection_uniform s 2%nat ("mallory" +:+ LF) ("guess" +:+ LF)
              s 2%nat ("alice" +:+ LF) ("guess" +:+ LF) _ Hp Hn Hp Hs Hne)
    as (Ha & Hb & _ & _ & Heq).
  split; [exact Hp|]. split; [exact Hn|]. split; [exact Hs|]. split; [exact Hne|].
  split; [exact Ha|]. split; [exact Hb|]. now apply Heq.
Defined.

(** *** The chat loop *)

Lemma broadcast_others message sender s :
  let s' := broadcast message sender s in
  clients s' = clients s
  /\ handlers s' = handlers s
  /\ written s' sender = written s sender
  /\ (forall c, c <> sender -> is_Some (clients s !! c) ->
        written s' c = written s c ++ [message +:+ LF])
  /\ (forall c, clients s !! c = None -> written s' c = written s c).
Proof.
  cbv zeta. rewrite clients_broadcast, handlers_broadcast.
  split; [reflexivity|]. split; [reflexivity|]. split; [|split].
  - rewrite written_broadcast. destruct (decide _) as [[_ H]|_]; [contradiction|reflexivity].
  - intros c Hne Hin. rewrite written_broadcast.
    destruct (decide _) as [_|H]; [reflexivity|]. exfalso. apply H. now split.
  - intros c Hc. rewrite written_broadcast.
    destruct (decide _) as [[[x Hx] _]|_]; [congruence|reflexivity].
Qed.

Lemma relay_others usr sender chunks s :
  let s' := relay usr sender chunks s in
  clients s' = clients s
  /\ handlers s' = handlers s
  /\ written s' sender = written s sender
  /\ (forall c, c <> sender -> is_Some (clients s !! c) ->
        written s' c = written s c ++ map (fun m => msgChat usr m +:+ LF) chunks)
  /\ (forall c, clients s !! c = None -> written s' c = written s c).
Proof.
  cbv zeta. destruct (relay_spec usr sender chunks s) as (Hc & _ & _ & Hh & Hw).
  split; [assumption|]. split; [assumption|]. split; [|split].
  - rewrite Hw. destruct (decide _) as [[_ H]|_]; [contradiction|reflexivity].
  - intros c Hne Hin. rewrite Hw.
    destruct (decide _) as [_|H]; [reflexivity|]. exfalso. apply H. now split.
  - intros c Hc'. rewrite Hw.
    destruct (decide _) as [[[x Hx] _]|_]; [congruence|reflexivity].
Qed.

Lemma connReads_one chunk :
  (0 < String.length chunk <= bufLen)%nat -> connReads chunk = [chunk].
Proof. intros H. apply reads_one; [assumption | lia]. Qed.

(** C5. While session [A] is in the chat loop, a broadcast with [A] as
    sender writes the message once to every registered connection other
    than [A], writes nothing to [A] and nothing to a connection that is not
    registered, and leaves the registry as it is; so does everything the
    chat loop of [A] sends for the data it reads. *)
Theorem broadcast_fanout s A usr :
  handlers s !! A = Some (AtChat usr) ->
  (forall message,
     let s' := broadcast message A s in
     clients s' = clients s
     /\ written s' A = written s A
     /\ (forall c, c <> A -> is_Some (clients s !! c) ->
           written s' c = written s c ++ [message +:+ LF])
     /\ (forall c, clients s !! c = None -> written s' c = written s c))
  /\ (forall data,
       let s' := step s (Recv A (Bytes data)) in
       clients s' = clients s
       /\ written s' A = written s A
       /\ (forall c, c <> A -> is_Some (clients s !! c) ->
             written s' c =
               written s c ++ map (fun m => msgChat usr m +:+ LF) (connReads data))
       /\ (forall c, clients s !! c = None -> written s' c = written s c)).
Proof.
  intros Hp. split.
  - intros message. destruct (broadcast_others message A s) as (? & _ & ? & ? & ?).
    auto.
  - intros data. cbv zeta. rewrite (step_Recv _ _ _ _ Hp), resume_chat.
    destruct (relay_others usr A (connReads data) s) as (? & _ & ? & ? & ?).
    auto.
Qed.

Lemma broadcast_fanout_witness :
  handlers twoChatting !! 4%nat = Some (AtChat "bob")
  /\ let s' := step twoChatting (Recv 4%nat (line "hello")) in
     clients s' = clients twoChatting
     /\ written s' 4%nat = written twoChatting 4%nat
     /\ written s' 3%nat = written twoChatting 3%nat ++ ["bob: hello" +:+ LF +:+ LF]
     /\ written s' 1%nat = written twoChatting 1%nat.
Proof.
  assert (Hp : handlers twoChatting !! 4%nat = Some (AtChat "bob"))
    by (vm_compute; reflexivity).
  split; [exact Hp|].
  destruct (broadcast_fanout twoChatting 4%nat "bob" Hp) as [_ H].
  destruct (H ("hello" +:+ LF)) as (H1 & H2 & H3 & H4).
  split; [exact H1|]. split; [exact H2|]. split.
  - assert (Hin : is_Some (clients twoChatting !! 3%nat))
      by (exists {| conn := 3%nat; username := "alice" |}; vm_compute; reflexivity).
    assert (H5 := H3 3%nat ltac:(discriminate) Hin).
    vm_compute in H5. vm_compute. exact H5.
  - apply (H4 1%nat). vm_compute. reflexivity.
Defined.

Lemma chat_one_read s c usr chunk :
  handlers s !! c = Some (AtChat usr) ->
  (0 < String.length chunk <= bufLen)%nat ->
  step s (Recv c (Bytes chunk)) = broadcast (usr +:+ ": " +:+ chunk) c s.
Proof.
  intros Hp Hlen.
  now rewrite (step_Recv _ _ _ _ Hp), resume_chat, connReads_one by assumption.
Qed.

(** C6 (amended). In the chat loop the handler reads raw data, not lines:
    for a read that returns a chunk of one to [bufLen] bytes it makes one
    broadcast, of the display name, a colon, a space and the chunk as read,
    line terminators included, and stays in the loop. *)
Theorem chat_read_broadcast s c usr chunk :
  handlers s !! c = Some (AtChat usr) ->
  (0 < String.length chunk <= bufLen)%nat ->
  let s' := step s (Recv c (Bytes chunk)) in
  s' = broadcast (usr +:+ ": " +:+ chunk) c s
  /\ handlers s' !! c = Some (AtChat usr)
  /\ (forall c', c' <> c -> is_Some (clients s !! c') ->
        written s' c' = written s c' ++ [(usr +:+ ": " +:+ chunk) +:+ LF]).
Proof.
  intros Hp Hlen s'. subst s'. rewrite (chat_one_read s c usr chunk Hp Hlen).
  destruct (broadcast_others (usr +:+ ": " +:+ chunk) c s) as (_ & Hh & _ & Hw & _).
  cbv zeta in Hh, Hw. split; [reflexivity|]. split; [now rewrite Hh | exact Hw].
Qed.

Lemma chat_read_broadcast_witness :
  handlers twoChatting !! 4%nat = Some (AtChat "bob")
  /\ (0 < String.length ("hello" +:+ LF) <= bufLen)%nat
  /\ let s' := step twoChatting (Recv 4%nat (line "hello")) in
     s' = broadcast ("bob: hello" +:+ LF) 4%nat twoChatting
     /\ written s' 3%nat = written twoChatting 3%nat ++ ["bob: hello" +:+ LF +:+ LF].
Proof.
  assert (Hp : handlers twoChatting !! 4%nat = Some (AtChat "bob"))
    by (vm_compute; reflexivity).
  assert (Hl : (0 < String.length ("hello" +:+ LF) <= bufLen)%nat)
    by (vm_compute; lia).
  destruct (chat_read_broadcast twoChatting 4%nat "bob" ("hello" +:+ LF) Hp Hl)
    as (H1 & _ & H3).
  split; [exact Hp|]. split; [exact Hl|]. split; [exact H1|].
  assert (Hin : is_Some (clients twoChatting !! 3%nat))
    by (exists {| conn := 3%nat; username := "alice" |}; vm_compute; reflexivity).
  assert (H5 := H3 3%nat ltac:(discriminate) Hin).
  vm_compute in H5. vm_compute. exact H5.
Defined.

(** C6, as stated, fails: Bob's handler reads two lines at once and Alice
    is sent one message, holding both line feeds, where the specification
    has two, one for each line; and for the single line [hello] she is sent
    the line feed of the line too. *)
Lemma chat_read_broadcast_counterexample :
  let s1 := step twoChatting (Recv 4%nat (Bytes ("a" +:+ LF +:+ "b" +:+ LF))) in
  let s2 := step twoChatting (Recv 4%nat (Bytes ("hello" +:+ LF))) in
  written s1 3%nat
    = written twoChatting 3%nat ++ ["bob: a" +:+ LF +:+ "b" +:+ LF +:+ LF]
  /\ written s1 3%nat
     <> written twoChatting 3%nat ++ ["bob: a" +:+ LF; "bob: b" +:+ LF]
  /\ written s2 3%nat = written twoChatting 3%nat ++ ["bob: hello" +:+ LF +:+ LF]
  /\ written s2 3%nat <> written twoChatting 3%nat ++ ["bob: hello" +:+ LF].
Proof. vm_compute. repeat split; discriminate. Qed.

(** *** Leaving *)

Lemma chat_failed s c usr :
  handlers s !! c = Some (AtChat usr) ->
  let s' := step s (Recv c Failed) in
  clients s' = delete c (clients s)
  /\ handlers s' !! c = Some Returned
  /\ written s' c = written s c
  /\ (forall c', c' <> c -> is_Some (clients s !! c') ->
        written s' c' = written s c' ++ [msgLeft usr +:+ LF])
  /\ (forall c', clients s !! c' = None -> written s' c' = written s c').
Proof.
  intros Hp s'. subst s'. rewrite (step_Recv _ _ _ _ Hp).
  cbn [handleClient_resume Exec_insert QueryRow_Scan database].
  destruct (broadcast_others (msgLeft usr) c (set_clients (delete c (clients s)) s))
    as (Hc & _ & Hw0 & Hw1 & Hw2).
  cbv zeta in Hc, Hw0, Hw1, Hw2. cbn [clients set_clients] in Hc, Hw1, Hw2.
  rewrite handlers_goto. cbn [clients goto]. rewrite Hc.
  split; [reflexivity|]. split; [reflexivity|]. split; [|split].
  - rewrite written_goto, Hw0. reflexivity.
  - intros c' Hne Hin. rewrite written_goto, Hw1; [reflexivity|assumption|].
    now rewrite lookup_delete_ne by congruence.
  - intros c' Hn. rewrite written_goto, Hw2; [reflexivity|].
    destruct (decide (c = c')) as [->|Hne];
      [apply lookup_delete_eq | now rewrite lookup_delete_ne].
Qed.

(** C7. In a reachable state, when the read of a session in the chat loop
    fails, the session, which was registered under its name, is removed
    from the registry; every other registered connection is written the
    one notice that the name has left, and no other connection is written
    anything. From then on, whatever happens, the connection is not in the
    registry, nothing more is written to it, and a read or an accept on it
    changes nothing. *)
Theorem leave_once regKey evs c usr :
  let s := run (start regKey) evs in
  handlers s !! c = Some (AtChat usr) ->
  let s' := step s (Recv c Failed) in
  clients s !! c = Some {| conn := c; username := usr |}
  /\ clients s' = delete c (clients s)
  /\ (forall c', c' <> c -> is_Some (clients s !! c') ->
        written s' c' = written s c' ++ [msgLeft usr +:+ LF])
  /\ (forall c', clients s !! c' = None -> written s' c' = written s c')
  /\ written s' c = written s c
  /\ forall evs',
       let s'' := run s' evs' in
       clients s'' !! c = None
       /\ handlers s'' !! c = Some Returned
       /\ written s'' c = written s c
       /\ (forall r, step s'' (Recv c r) = s'')
       /\ step s'' (Accept c) = s''.
Proof.
  intros s Hp s'.
  assert (HI : Inv s) by apply Inv_run, Inv_start.
  destruct (chat_failed s c usr Hp) as (Hc & Hh & Hw & Hw1 & Hw2).
  fold s' in Hc, Hh, Hw, Hw1, Hw2.
  split; [now apply HI|]. split; [assumption|]. split; [assumption|].
  split; [assumption|]. split; [assumption|].
  intros evs' s''.
  assert (Hg : gone s' c) by (split; [assumption | rewrite Hc; apply lookup_delete_eq]).
  destruct (gone_run s' c evs' Hg) as [[Hh'' Hc''] Hw''].
  fold s'' in Hh'', Hc'', Hw''.
  split; [assumption|]. split; [assumption|]. split; [congruence|].
  split; [intros r|]; cbn [step]; rewrite Hh''; reflexivity.
Qed.

Lemma leave_once_witness :
  let evs := registers 1%nat "alice" "pw1" ++ registers 2%nat "bob" "pw2"
             ++ logsIn 3%nat "alice" "pw1" ++ logsIn 4%nat "bob" "pw2" in
  let s := run (start exKey) evs in
  let s' := step s (Recv 4%nat Failed) in
  handlers s !! 4%nat = Some (AtChat "bob")
  /\ clients s' = delete 4%nat (clients s)
  /\ written s' 3%nat = written s 3%nat ++ ["bob has left the chat" +:+ LF]
  /\ written s' 4%nat = written s 4%nat
  /\ let s'' := run s' [Recv 3%nat (line "anyone?"); Recv 4%nat (line "me")] in
     clients s'' !! 4%nat = None /\ written s'' 4%nat = written s 4%nat.
Proof.
  intros evs s s'.
  assert (Hp : handlers s !! 4%nat = Some (AtChat "bob")) by (vm_compute; reflexivity).
  destruct (leave_once exKey evs 4%nat "bob" Hp) as (_ & H2 & H3 & _ & H5 & H6).
  split; [exact Hp|]. split; [exact H2|]. split; [|split; [exact H5|]].
  - assert (Hin : is_Some (clients s !! 3%nat))
      by (exists {| conn := 3%nat; username := "alice" |}; vm_compute; reflexivity).
    exact (H3 3%nat ltac:(discriminate) Hin).
  - destruct (H6 [Recv 3%nat (line "anyone?"); Recv 4%nat (line "me")])
      as (H7 & _ & H8 & _).
    split; [exact H7 | exact H8].
Defined.

(** *** What is kept of a line *)

(** C8 (amended). A line read for a user name or a password is kept with
    its leading and trailing white space removed and otherwise as it is (a
    contiguous piece of the line; the whole line but its line feed when it
    starts and ends with ASCII bytes that are not white space), without any
    validation: the name goes as such to the password prompt and into the
    table, the password is hashed as such. The data read in the chat loop
    is relayed unchanged. *)
Theorem fields_trimmed s c l :
  (handlers s !! c = Some AtRegUser ->
     handlers (step s (Recv c (Bytes l))) !! c = Some (AtRegPass (TrimSpace l)))
  /\ (handlers s !! c = Some AtLoginUser ->
     handlers (step s (Recv c (Bytes l))) !! c = Some (AtLoginPass (TrimSpace l)))
  /\ (forall usr, handlers s !! c = Some (AtRegPass usr) ->
       select_password usr (users s) = None ->
       users (step s (Recv c (Bytes l))) =
         users s ++ [ {| row_id := Z.of_nat (length (users s)) + 1;
                         row_username := usr;
                         row_password := hashPassword (TrimSpace l) |} ])
  /\ (forall usr stored, handlers s !! c = Some (AtLoginPass usr) ->
       select_password usr (users s) = Some stored ->
       (handlers (step s (Recv c (Bytes l))) !! c = Some (AtChat usr)
        <-> hashPassword (TrimSpace l) = stored))
  /\ (forall usr, handlers s !! c = Some (AtChat usr) ->
       (0 < String.length l <= bufLen)%nat ->
       step s (Recv c (Bytes l)) = broadcast (usr +:+ ": " +:+ l) c s)
  /\ (exists a b, l = a +:+ TrimSpace l +:+ b)
  /\ (forall a m b, plainByte a -> plainByte b ->
       l = String a (m +:+ String b LF) ->
       TrimSpace l = String a (m +:+ String b "")).
Proof.
  split; [|split; [|split; [|split; [|split; [|split]]]]].
  - intros Hp. rewrite (step_Recv _ _ _ _ Hp). apply handlers_goto.
  - intros Hp. rewrite (step_Recv _ _ _ _ Hp). apply handlers_goto.
  - intros usr Hp Hn. now apply register_fresh.
  - intros usr stored Hp Hsel. split.
    + intros Hh. destruct (string_dec (hashPassword (TrimSpace l)) stored) as [|Hne];
        [assumption|].
      rewrite (login_rejected s c usr l Hp), handlers_goto in Hh by now rewrite Hsel.
      discriminate.
    + intros <-. now apply login_accepted.
  - intros usr Hp Hlen. now apply chat_one_read.
  - apply TrimSpace_infix.
  - intros a m b Ha Hb ->. now apply TrimSpace_plain_line.
Qed.

Lemma fields_trimmed_witness :
  let s := run (start exKey)
             [Accept 1%nat; Recv 1%nat (line "register"); Recv 1%nat (line exKey)] in
  let s1 := step s (Recv 1%nat (line "   ")) in
  handlers s !! 1%nat = Some AtRegUser
  /\ handlers s1 !! 1%nat = Some (AtRegPass "")
  /\ select_password "" (users s1) = None
  /\ users (step s1 (Recv 1%nat (line " p w "))) =
       [ {| row_id := 1; row_username := ""; row_password := hashPassword "p w" |} ].
Proof.
  intros s s1.
  assert (Hp : handlers s !! 1%nat = Some AtRegUser) by (vm_compute; reflexivity).
  destruct (fields_trimmed s 1%nat ("   " +:+ LF)) as (H1 & _).
  assert (Hp1 : handlers s1 !! 1%nat = Some (AtRegPass "")) by exact (H1 Hp).
  assert (Hn : select_password "" (users s1) = None) by (vm_compute; reflexivity).
  destruct (fields_trimmed s1 1%nat (" p w " +:+ LF)) as (_ & _ & H3 & _).
  split; [exact Hp|]. split; [exact Hp1|]. split; [exact Hn|].
  assert (H4 := H3 "" Hp1 Hn). vm_compute in H4. vm_compute. exact H4.
Defined.

(** C8, as stated, fails: the user name line [ bob ] is stored as [bob]. *)
Lemma fields_trimmed_counterexample :
  let s := run (start exKey)
             [Accept 1%nat; Recv 1%nat (line "register"); Recv 1%nat (line exKey);
              Recv 1%nat (line " bob "); Recv 1%nat (line "pw")] in
  written s 1%nat =
    [msgWelcome +:+ LF; msgChoice +:+ LF; msgRegCode +:+ LF; msgRegUser +:+ LF;
     msgRegPass +:+ LF; msgRegOk +:+ LF]
  /\ map row_username (users s) = ["bob"]
  /\ map row_username (users s) <> [" bob "].
Proof. vm_compute. repeat split; discriminate. Qed.

(** *** The registry *)




(** *** Reads of at most 1024 bytes *)

Lemma relay_app usr c (l1 l2 : list string) s :
  relay usr c (l1 ++ l2) s = relay usr c l2 (relay usr c l1 s).
Proof. apply fold_left_app. Qed.

(** The chat loop over the successive arrivals of data on the socket. *)
Lemma run_chat s c usr (arrivals : list string) :
  handlers s !! c = Some (AtChat usr) ->
  run s (map (fun d => Recv c (Bytes d)) arrivals)
  = relay usr c (flat_map connReads arrivals) s.
Proof.
  revert s. induction arrivals as [|d arrivals IH]; intros s Hp; [reflexivity|].
  cbn [map flat_map]. rewrite run_cons, (step_Recv _ _ _ _ Hp), resume_chat.
  rewrite relay_app. apply IH.
  destruct (relay_spec usr c (connReads d) s) as (_ & _ & _ & Hh & _).
  now rewrite Hh.
Qed.

Lemma sconcat_app (l1 l2 : list string) :
  sconcat (l1 ++ l2) = sconcat l1 +:+ sconcat l2.
Proof.
  induction l1 as [|x l1 IH]; [reflexivity|].
  cbn [app sconcat fold_right]. fold (sconcat (l1 ++ l2)). fold (sconcat l1).
  now rewrite IH, sapp_assoc.
Qed.

Lemma sconcat_reads (arrivals : list string) :
  sconcat (flat_map connReads arrivals) = sconcat arrivals.
Proof.
  induction arrivals as [|d arrivals IH]; [reflexivity|].
  cbn [flat_map]. rewrite sconcat_app, IH.
  unfold connReads. rewrite reads_concat by lia. reflexivity.
Qed.

Lemma reads_bounded_all (arrivals : list string) :
  Forall (fun chunk => (0 < String.length chunk <= bufLen)%nat)
         (flat_map connReads arrivals).
Proof.
  induction arrivals as [|d arrivals IH]; [constructor|].
  cbn [flat_map]. apply Forall_app. split; [apply reads_bounded | exact IH].
Qed.

Lemma length_sconcat_le (l : list string) :
  Forall (fun chunk => (0 < String.length chunk <= bufLen)%nat) l ->
  (String.length (sconcat l) <= bufLen * length l)%nat.
Proof.
  induction 1 as [|x l [_ Hx] _ IH]; [cbn; lia|].
  cbn [sconcat fold_right length]. fold (sconcat l). rewrite length_sapp. lia.
Qed.

(** C10. Whatever the pieces in which the bytes of a client reach the
    socket, the chat loop makes one broadcast per read. The chunks read are
    not empty, hold at most 1024 bytes, and put end to end are the bytes
    sent, line feeds included; every other registered connection is
    written, for each chunk in order, the name, a colon, a space, the chunk
    and a line feed. More than 1024 bytes make at least two broadcasts. *)
Theorem chat_chunks s c usr (arrivals : list string) :
  handlers s !! c = Some (AtChat usr) ->
  let s' := run s (map (fun d => Recv c (Bytes d)) arrivals) in
  let chunks := flat_map connReads arrivals in
  s' = relay usr c chunks s
  /\ sconcat chunks = sconcat arrivals
  /\ Forall (fun chunk => (0 < String.length chunk <= 1024)%nat) chunks
  /\ ((1024 < String.length (sconcat arrivals))%nat -> (2 <= length chunks)%nat)
  /\ (forall c', c' <> c -> is_Some (clients s !! c') ->
        written s' c' =
          written s c' ++ map (fun chunk => (usr +:+ ": " +:+ chunk) +:+ LF) chunks).
Proof.
  intros Hp s' chunks. subst s' chunks. rewrite (run_chat _ _ _ _ Hp).
  split; [reflexivity|]. split; [apply sconcat_reads|].
  split; [apply reads_bounded_all|]. split; [|apply relay_others].
  intros H. rewrite <- sconcat_reads in H.
  pose proof (length_sconcat_le _ (reads_bounded_all arrivals)) as Hle.
  unfold bufLen in Hle. lia.
Qed.

Lemma chat_chunks_witness :
  let data := string_of_bytes (repeat 0x61 1500) in
  let s' := run twoChatting [Recv 4%nat (Bytes data)] in
  handlers twoChatting !! 4%nat = Some (AtChat "bob")
  /\ (1024 < String.length data)%nat
  /\ (2 <= length (flat_map connReads [data]))%nat
  /\ written s' 3%nat =
       written twoChatting 3%nat
       ++ [ ("bob: " +:+ string_of_bytes (repeat 0x61 1024)) +:+ LF;
            ("bob: " +:+ string_of_bytes (repeat 0x61 476)) +:+ LF ].
Proof.
  intros data s'.
  assert (Hp : handlers twoChatting !! 4%nat = Some (AtChat "bob"))
    by (vm_compute; reflexivity).
  assert (Hl : (1024 < String.length (sconcat [data]))%nat) by (vm_compute; lia).
  destruct (chat_chunks twoChatting 4%nat "bob" [data] Hp) as (_ & _ & _ & H4 & H5).
  split; [exact Hp|]. split; [vm_compute; lia|]. split; [exact (H4 Hl)|].
  assert (Hin : is_Some (clients twoChatting !! 3%nat))
    by (exists {| conn := 3%nat; username := "alice" |}; vm_compute; reflexivity).
  assert (H6 := H5 3%nat ltac:(discriminate) Hin).
  vm_compute in H6. vm_compute. exact H6.
Defined.

End ServerProperties.

(** * More of server.go *)

(** ** The digest and the keys *)

Section DigestFacts.

Lemma length_be_bytes n x : length (SHA256.be_bytes n x) = n.
Proof. induction n as [|n IH]; [reflexivity|]. cbn [SHA256.be_bytes length]. now rewrite IH. Qed.

Lemma length_round st kw : length st = 8%nat -> length (SHA256.round st kw) = 8%nat.
Proof.
  intros H. do 9 (destruct st as [|? st]; try discriminate). reflexivity.
Qed.

Lemma length_rounds l st :
  length st = 8%nat -> length (fold_left SHA256.round l st) = 8%nat.
Proof.
  revert st. induction l as [|kw l IH]; intros st H; [assumption|].
  cbn [fold_left]. apply IH, length_round, H.
Qed.

Lemma length_block h blk : length h = 8%nat -> length (SHA256.block h blk) = 8%nat.
Proof.
  intros H. unfold SHA256.block, SHA256.zip_add.
  rewrite length_map, length_combine, length_rounds by assumption. lia.
Qed.

Lemma length_blocks n h l : length h = 8%nat -> length (SHA256.blocks n h l) = 8%nat.
Proof.
  revert h l. induction n as [|n IH]; intros h l H; [assumption|].
  cbn [SHA256.blocks]. apply IH, length_block, H.
Qed.

Lemma length_flat_be_bytes (l : list Z) :
  length (flat_map (SHA256.be_bytes 4) l) = (4 * length l)%nat.
Proof.
  induction l as [|x l IH]; [reflexivity|].
  cbn [flat_map]. rewrite length_app, length_be_bytes, IH. cbn [length]. lia.
Qed.

Lemma length_Sum256 msg : length (SHA256.Sum256 msg) = 32%nat.
Proof.
  unfold SHA256.Sum256. cbv zeta.
  rewrite length_flat_be_bytes, length_blocks; reflexivity.
Qed.

Lemma length_EncodeToString l :
  String.length (EncodeToString l) = (2 * length l)%nat.
Proof.
  induction l as [|v l IH]; [reflexivity|].
  cbn [EncodeToString String.length length]. rewrite IH. lia.
Qed.

Lemma EncodeToString_app l1 l2 :
  EncodeToString (l1 ++ l2) = EncodeToString l1 +:+ EncodeToString l2.
Proof.
  induction l1 as [|v l1 IH]; [reflexivity|].
  cbn [app EncodeToString]. now rewrite IH.
Qed.

Lemma stake_app_exact s t : stake (String.length s) (s +:+ t) = s.
Proof.
  induction s as [|c s IH]; [now destruct t|].
  rewrite sapp_cons. cbn [String.length stake]. now rewrite IH.
Qed.

Lemma hashPassword_digest password :
  String.length (hashPassword password) = 64%nat
  /\ allBytes isHex (hashPassword password) = true.
Proof.
  unfold hashPassword. cbv zeta. split.
  - now rewrite length_EncodeToString, length_Sum256.
  - apply EncodeToString_isHex.
Qed.

(** X1. Whatever the password, empty or not, [hashPassword] returns 64
    characters, all of them hexadecimal digits in lower case. *)
Theorem hashPassword_shape password :
  String.length (hashPassword password) = 64%nat
  /\ allBytes isHex (hashPassword password) = true.
Proof. apply hashPassword_digest. Qed.

(** X2. From ten random bytes or more, as from the twenty [rand.Read]
    fills, the registration key is 20 hexadecimal digits; it is the
    encoding of the first ten bytes, and the bytes after them have no part
    in it. *)
Theorem generateRegistrationKey_shape (key : list Z) :
  (10 <= length key)%nat ->
  String.length (generateRegistrationKey key) = 20%nat
  /\ allBytes isHex (generateRegistrationKey key) = true
  /\ generateRegistrationKey key = EncodeToString (firstn 10 key)
  /\ forall key', firstn 10 key' = firstn 10 key ->
       generateRegistrationKey key' = generateRegistrationKey key.
Proof.
  intros H.
  assert (E : forall k : list Z, (10 <= length k)%nat ->
            generateRegistrationKey k = EncodeToString (firstn 10 k)).
  { intros k Hk. unfold generateRegistrationKey.
    rewrite <- (firstn_skipn 10 k) at 1. rewrite EncodeToString_app.
    replace 20%nat with (String.length (EncodeToString (firstn 10 k)))
      by (rewrite length_EncodeToString, length_firstn; lia).
    apply stake_app_exact. }
  split; [|split; [apply generateRegistrationKey_isHex|split; [now apply E|]]].
  - rewrite E, length_EncodeToString, length_firstn by assumption. lia.
  - intros key' Hk.
    assert (10 <= length key')%nat.
    { apply (f_equal (@length Z)) in Hk. rewrite !length_firstn in Hk. lia. }
    now rewrite !E, Hk by assumption.
Qed.

Lemma generateRegistrationKey_shape_witness :
  (10 <= length (map Z.of_nat (seq 1 20)))%nat
  /\ String.length (generateRegistrationKey (map Z.of_nat (seq 1 20))) = 20%nat
  /\ generateRegistrationKey (map Z.of_nat (seq 1 10) ++ repeat 0 10)
     = generateRegistrationKey (map Z.of_nat (seq 1 20)).
Proof.
  assert (H : (10 <= length (map Z.of_nat (seq 1 20)))%nat) by (vm_compute; lia).
  destruct (generateRegistrationKey_shape _ H) as (H1 & _ & _ & H4).
  split; [exact H|]. split; [exact H1|]. apply H4. reflexivity.
Defined.

End DigestFacts.

Section KeyFacts.

Lemma hexval_hexdigit z : 0 <= z < 16 -> hexval (hexdigit z) = z.
Proof.
  intros H. rewrite <- (Z2Nat.id z) by lia.
  assert (Hn : (Z.to_nat z < 16)%nat) by lia.
  generalize dependent (Z.to_nat z). intros n Hn.
  do 16 (destruct n as [|n]; [reflexivity|]). lia.
Qed.

Lemma decodeHex_EncodeToString (l : list Z) :
  Forall (fun v => 0 <= v < 256) l -> decodeHex (EncodeToString l) = l.
Proof.
  induction 1 as [|v l Hv _ IH]; [reflexivity|].
  cbn [EncodeToString decodeHex]. rewrite IH. f_equal.
  change 15 with (Z.ones 4). rewrite Z.land_ones, Z.shiftr_div_pow2 by lia.
  rewrite !hexval_hexdigit.
  - change (2 ^ 4) with 16. pose proof (Z.div_mod v 16). lia.
  - apply Z.mod_pos_bound. lia.
  - change (2 ^ 4) with 16. split; [apply Z.div_pos; lia|].
    apply Z.div_lt_upper_bound; lia.
Qed.

Lemma countByte_app x (s1 s2 : string) :
  countByte x (s1 +:+ s2) = (countByte x s1 + countByte x s2)%nat.
Proof.
  induction s1 as [|c s1 IH]; [reflexivity|].
  rewrite sapp_cons. cbn [countByte]. rewrite IH. lia.
Qed.

Lemma countByte_none x (s1 : string) :
  allBytes (isNot x) s1 = true -> countByte x s1 = 0%nat.
Proof.
  induction s1 as [|c s1 IH]; [reflexivity|]. cbn [allBytes countByte].
  rewrite andb_true_iff. intros [Hc Hs]. unfold isNot in Hc.
  apply negb_true_iff in Hc. now rewrite Hc, IH.
Qed.

(** X3. From the 32 bytes [rand.Read] fills, the encryption key is 64
    hexadecimal digits; the PRAGMA statement built around it holds two
    quotes, the ones that delimit the key; and the bytes are recovered from
    the key, so different bytes give different keys. *)
Theorem generateEncryptionKey_shape (key : list Z) :
  length key = 32%nat ->
  Forall (fun v => 0 <= v < 256) key ->
  String.length (generateEncryptionKey key) = 64%nat
  /\ allBytes isHex (generateEncryptionKey key) = true
  /\ countByte "'" (pragmaKey (generateEncryptionKey key)) = 2%nat
  /\ decodeHex (generateEncryptionKey key) = key
  /\ forall key', Forall (fun v => 0 <= v < 256) key' ->
       generateEncryptionKey key' = generateEncryptionKey key -> key' = key.
Proof.
  intros Hlen Hb. unfold generateEncryptionKey.
  split; [rewrite length_EncodeToString; lia|].
  split; [apply EncodeToString_isHex|].
  split; [|split; [now apply decodeHex_EncodeToString|]].
  - unfold pragmaKey.
    rewrite !countByte_app, (countByte_none _ (EncodeToString key)); [reflexivity|].
    apply (allBytes_impl isHex); [|apply EncodeToString_isHex].
    intros c. now apply isHex_isNot.
  - intros key' Hb' He.
    rewrite <- (decodeHex_EncodeToString key'), He by assumption.
    now apply decodeHex_EncodeToString.
Qed.

Lemma generateEncryptionKey_shape_witness :
  let key := map Z.of_nat (seq 100 32) in
  length key = 32%nat
  /\ Forall (fun v => 0 <= v < 256) key
  /\ String.length (generateEncryptionKey key) = 64%nat
  /\ decodeHex (generateEncryptionKey key) = key.
Proof.
  intros key.
  assert (Hl : length key = 32%nat) by reflexivity.
  assert (Hb : Forall (fun v => 0 <= v < 256) key).
  { apply Forall_forall. intros v Hv. apply list_elem_of_In in Hv.
    apply in_map_iff in Hv as (n & <- & Hn). apply in_seq in Hn. lia. }
  destruct (generateEncryptionKey_shape key Hl Hb) as (H1 & _ & _ & H4 & _).
  split; [exact Hl|]. split; [exact Hb|]. split; [exact H1 | exact H4].
Defined.

End KeyFacts.

(** ** The dialogue *)

Section DialogueFacts.

Implicit Types (s : Server) (c : Conn) (p : pc) (usr l : string) (e : Event).

Lemma lowerIs_ascii (w t : string) :
  allBytes isASCII t = true -> lowerIs w t = String.eqb (lowerBytes t) w.
Proof.
  revert w. induction t as [|a t IH]; intros w H; destruct w as [|x w];
    try reflexivity.
  cbn [allBytes] in H. apply andb_true_iff in H as [Ha Ht].
  cbn [lowerIs lowerBytes String.eqb]. unfold isASCII in Ha. rewrite Ha.
  now rewrite IH.
Qed.

(** X4. The choice is read without regard to case or to the white space
    around it: when the trimmed line is made of ASCII bytes, the handler
    goes on to register or to log in exactly when its lower-case form is
    [register] or [login], and for any other it writes the invalid-choice
    line and returns. In all three cases the table and the registry are
    left alone. *)
Theorem choice_case_insensitive s c l :
  handlers s !! c = Some AtChoice ->
  allBytes isASCII (TrimSpace l) = true ->
  let s' := step s (Recv c (Bytes l)) in
  let w := lowerBytes (TrimSpace l) in
  (w = "register"%string ->
     written s' c = written s c ++ [msgRegCode +:+ LF]
     /\ handlers s' !! c = Some AtRegCode)
  /\ (w = "login"%string ->
     written s' c = written s c ++ [msgUser +:+ LF]
     /\ handlers s' !! c = Some AtLoginUser)
  /\ (w <> "register"%string -> w <> "login"%string ->
     written s' c = written s c ++ [msgBadChoice +:+ LF]
     /\ handlers s' !! c = Some Returned)
  /\ clients s' = clients s /\ users s' = users s.
Proof.
  intros Hp Ha s' w. subst s'. rewrite (step_Recv _ _ _ _ Hp).
  cbn [handleClient_resume Exec_insert QueryRow_Scan database]. cbv zeta. rewrite !lowerIs_ascii by assumption.
  fold w. destruct (String.eqb_spec w "register") as [Hr|Hr].
  { rewrite written_goto, written_Fprintln, handlers_goto.
    repeat split; try reflexivity; intros; congruence. }
  destruct (String.eqb_spec w "login") as [Hl|Hl];
    rewrite written_goto, written_Fprintln, handlers_goto;
    repeat split; try reflexivity; intros; congruence.
Qed.

Lemma choice_case_insensitive_witness :
  let s := run (start exKey) [Accept 1%nat] in
  handlers s !! 1%nat = Some AtChoice
  /\ (let s' := step s (Recv 1%nat (line "  LogIn ")) in
      written s' 1%nat = written s 1%nat ++ [msgUser +:+ LF]
      /\ handlers s' !! 1%nat = Some AtLoginUser)
  /\ (let s' := step s (Recv 1%nat (line "signup")) in
      written s' 1%nat = written s 1%nat ++ [msgBadChoice +:+ LF]
      /\ handlers s' !! 1%nat = Some Returned).
Proof.
  intros s.
  assert (Hp : handlers s !! 1%nat = Some AtChoice) by (vm_compute; reflexivity).
  split; [exact Hp|]. split.
  - destruct (choice_case_insensitive s 1%nat ("  LogIn " +:+ LF) Hp eq_refl)
      as (_ & H & _).
    exact (H eq_refl).
  - destruct (choice_case_insensitive s 1%nat ("signup" +:+ LF) Hp eq_refl)
      as (_ & _ & H & _).
    apply H; vm_compute; discriminate.
Defined.

(** X5. A read that fails before the chat loop ends the handler and
    nothing else: no byte is written to any connection, and the table and
    the registry are as they were. *)
Theorem dialogue_read_failure s c p :
  handlers s !! c = Some p -> notChat p ->
  let s' := step s (Recv c Failed) in
  handlers s' !! c = Some Returned
  /\ wire s' = wire s /\ clients s' = clients s /\ users s' = users s.
Proof.
  intros Hp Hn s'. subst s'. rewrite (step_Recv _ _ _ _ Hp).
  destruct p as [| | |usr| |usr|usr|]; cbn [handleClient_resume Exec_insert QueryRow_Scan database];
    try (rewrite handlers_goto; repeat split; reflexivity).
  - now destruct (Hn usr).
  - repeat split; try reflexivity. exact Hp.
Qed.

Lemma dialogue_read_failure_witness :
  let s := run (start exKey)
             [Accept 1%nat; Recv 1%nat (line "register"); Recv 1%nat (line exKey);
              Recv 1%nat (line "alice")] in
  let s' := step s (Recv 1%nat Failed) in
  handlers s !! 1%nat = Some (AtRegPass "alice")
  /\ handlers s' !! 1%nat = Some Returned
  /\ wire s' = wire s /\ users s' = [].
Proof.
  intros s s'.
  assert (Hp : handlers s !! 1%nat = Some (AtRegPass "alice")) by (vm_compute; reflexivity).
  assert (Hn : notChat (AtRegPass "alice")) by (intros ?; discriminate).
  destruct (dialogue_read_failure s 1%nat _ Hp Hn) as (H1 & H2 & _ & H4).
  split; [exact Hp|]. split; [exact H1|]. split; [exact H2|].
  fold s' in H4. rewrite H4. vm_compute. reflexivity.
Defined.

Lemma Returned_step s c e :
  handlers s !! c = Some Returned -> handlers (step s e) !! c = Some Returned.
Proof.
  intros H.
  destruct (step_cases s e) as [->|[(c' & _ & Hp & ->)|(k & p & r & Hp & ->)]];
    [assumption| |set (c' := event_conn e) in *].
  - unfold handleClient_start. cbn [handlers goto].
    rewrite lookup_insert_ne; [assumption | congruence].
  - destruct (decide (c' = c)) as [Heq|Hne].
    { rewrite Heq, H in Hp. injection Hp as <-. exact H. }
    destruct (resume_shape k c' p r s) as (_ & _ & Hshape).
    destruct Hshape as [(usr & _ & _ & _ & Hh)
                       |[(usr & _ & _ & Hh)
                       |[(usr & _ & _ & Hh)
                       |[(_ & Hs)
                       |(_ & _ & p' & _ & Hh)]]]];
      rewrite ?Hs, ?Hh, ?lookup_insert_ne by assumption; assumption.
Qed.

Lemma Returned_run s c evs :
  handlers s !! c = Some Returned -> handlers (run s evs) !! c = Some Returned.
Proof.
  revert s. induction evs as [|e evs IH]; intros s H; [assumption|].
  rewrite run_cons. apply IH, Returned_step, H.
Qed.

(** X6. A registration, accepted or refused, does not log in: the handler
    returns, the registry is as it was, no other connection is written
    anything, and whatever comes later the handler of this connection
    stays returned, so that the user has to connect again to log in. *)
Theorem registration_never_logs_in s c usr l :
  handlers s !! c = Some (AtRegPass usr) ->
  let s' := step s (Recv c (Bytes l)) in
  handlers s' !! c = Some Returned
  /\ clients s' = clients s
  /\ (forall c', c' <> c -> written s' c' = written s c')
  /\ forall evs, handlers (run s' evs) !! c = Some Returned.
Proof.
  intros Hp s'.
  assert (Hr : handlers s' !! c = Some Returned
               /\ clients s' = clients s
               /\ forall c', c' <> c -> written s' c' = written s c').
  { subst s'. rewrite (step_Recv _ _ _ _ Hp).
    cbn [handleClient_resume Exec_insert QueryRow_Scan database]. cbv zeta.
    destruct (insert_user usr (hashPassword (TrimSpace l)) (users s));
      rewrite handlers_goto; (split; [reflexivity|]); (split; [reflexivity|]);
      intros c' Hne; rewrite written_goto; unfold Fprintln, Fprintln2;
      rewrite written_Write; (destruct (decide (c = c')); [congruence|reflexivity]). }
  destruct Hr as (H1 & H2 & H3). repeat split; try assumption.
  intros evs. now apply Returned_run.
Qed.

Lemma registration_never_logs_in_witness :
  let s := run (start exKey)
             (logsIn 3%nat "alice" "pw1" ++
              [Accept 1%nat; Recv 1%nat (line "register"); Recv 1%nat (line exKey);
               Recv 1%nat (line "alice")]) in
  let s' := step s (Recv 1%nat (line "pw1")) in
  handlers s !! 1%nat = Some (AtRegPass "alice")
  /\ clients s' = clients s
  /\ handlers (run s' [Recv 1%nat (line "login"); Recv 1%nat (line "alice")]) !! 1%nat
     = Some Returned.
Proof.
  intros s s'.
  assert (Hp : handlers s !! 1%nat = Some (AtRegPass "alice")) by (vm_compute; reflexivity).
  destruct (registration_never_logs_in s 1%nat "alice" ("pw1" +:+ LF) Hp)
    as (_ & H2 & _ & H4).
  split; [exact Hp|]. split; [exact H2|]. apply H4.
Defined.



End DialogueFacts.

(** ** What the server keeps *)

Section KeepFacts.

Implicit Types (s : Server) (c : Conn) (p : pc) (usr l : string) (e : Event)
  (evs : list Event).

(** A step leaves the table as it is or adds one row under a new name. *)
Lemma users_step_shape s e :
  users (step s e) = users s
  \/ exists usr l, select_password usr (users s) = None
                   /\ users (step s e) = users s ++ [new_row (users s) usr l].
Proof.
  destruct (step_cases s e) as [->|[(c & _ & _ & ->)|(k & p & r & _ & ->)]];
    [now left|now left|].
  set (c := event_conn e).
  destruct p as [| | |usr| |usr|usr|]; destruct r as [l|];
    cbn [handleClient_resume]; cbv zeta; try (left; reflexivity).
  - left. destruct (lowerIs "register" (TrimSpace l));
      [|destruct (lowerIs "login" (TrimSpace l))]; reflexivity.
  - left. now destruct (negb _).
  - destruct (Exec_insert (database k (users s)) usr (hashPassword (TrimSpace l)))
      as [err|t] eqn:Hi; [now left|].
    destruct k; [|discriminate]. rewrite Exec_insert_Creator in Hi.
    right. exists usr, l. apply insert_user_inr in Hi as [Hn ->]. auto.
  - left. destruct (QueryRow_Scan (database k (users s)) usr); [destruct (negb _)|];
      try reflexivity.
    cbn [users goto]. now rewrite users_broadcast.
  - left. apply relay_spec.
  - left. cbn [users goto]. now rewrite users_broadcast.
Qed.

Lemma select_password_None_notin usr (t : list user_row) :
  select_password usr t = None -> ~ In usr (map row_username t).
Proof.
  unfold select_password. induction t as [|r t IH]; cbn [List.find map In]; [tauto|].
  destruct (String.eqb_spec (row_username r) usr) as [He|Hne]; [discriminate|].
  intros H [Hin|Hin]; [contradiction | now apply IH].
Qed.

Lemma table_ok_step s e : table_ok (users s) -> table_ok (users (step s e)).
Proof.
  intros (Hnd & Hid & Hrow).
  destruct (users_step_shape s e) as [->|(usr & l & Hn & ->)]; [now repeat split|].
  repeat split.
  - rewrite map_app. cbn [map new_row row_username].
    apply NoDup_ListNoDup, NoDup_app. split; [now apply NoDup_ListNoDup|].
    split; [|apply NoDup_singleton].
    intros x Hx Hx'. apply list_elem_of_singleton in Hx' as ->.
    apply select_password_None_notin in Hn. apply Hn. now apply list_elem_of_In.
  - rewrite map_app, length_app. cbn [length map new_row row_id].
    rewrite Nat.add_1_r, seq_S, map_app, Hid. reflexivity.
  - apply Forall_app. split; [assumption|]. constructor; [|constructor].
    apply hashPassword_digest.
Qed.

(** X9. In every reachable state the user names of the table are
    pairwise different, the ids are 1, 2, 3, ... in the order of insertion,
    and every stored password is a digest of 64 hexadecimal digits. *)
Theorem users_table_invariant regKey evs :
  let t := users (run (start regKey) evs) in
  List.NoDup (map row_username t)
  /\ map row_id t = map (fun i => Z.of_nat i + 1) (seq 0 (length t))
  /\ Forall row_ok t.
Proof.
  cbv zeta. change (table_ok (users (run (start regKey) evs))).
  assert (H : forall s, table_ok (users s) -> table_ok (users (run s evs))).
  { induction evs as [|e evs IH]; intros s Hs; [assumption|].
    rewrite run_cons. apply IH, table_ok_step, Hs. }
  apply H. repeat split; constructor.
Qed.



(** X11. Once a handler has returned, on whatever path, and its connection
    is closed, the server writes nothing more to that connection and never
    registers it, whatever happens afterwards. *)
Theorem closed_connection_silent regKey evs c evs' :
  let s := run (start regKey) evs in
  handlers s !! c = Some Returned ->
  written (run s evs') c = written s c
  /\ clients (run s evs') !! c = None
  /\ handlers (run s evs') !! c = Some Returned.
Proof.
  intros s Hp.
  assert (HI : Inv s) by apply Inv_run, Inv_start.
  assert (Hg : gone s c).
  { split; [assumption|]. destruct (clients s !! c) as [cl|] eqn:Hc; [|reflexivity].
    destruct (proj1 HI c cl Hc) as (_ & Hh & _). congruence. }
  destruct (gone_run s c evs' Hg) as [[H1 H2] H3]. auto.
Qed.

Lemma closed_connection_silent_witness :
  let s := run (start exKey)
             (logsIn 3%nat "alice" "pw1" ++ registers 1%nat "alice" "pw1") in
  let evs' := logsIn 4%nat "alice" "pw1" ++ [Recv 4%nat (line "hi"); Recv 3%nat (line "x")] in
  handlers s !! 3%nat = Some Returned
  /\ written (run s evs') 3%nat = written s 3%nat
  /\ clients (run s evs') !! 3%nat = None.
Proof.
  intros s evs'.
  assert (Hp : handlers s !! 3%nat = Some Returned) by (vm_compute; reflexivity).
  destruct (closed_connection_silent exKey
              (logsIn 3%nat "alice" "pw1" ++ registers 1%nat "alice" "pw1")
              3%nat evs' Hp) as (H1 & H2 & _).
  split; [exact Hp|]. split; [exact H1 | exact H2].
Defined.

(** X12. In every reachable state the registry holds exactly the sessions
    whose handler is in the chat loop, each under its connection and the
    name its handler chats under. *)
Theorem registry_is_chat_loop regKey evs c usr :
  let s := run (start regKey) evs in
  handlers s !! c = Some (AtChat usr)
  <-> clients s !! c = Some {| conn := c; username := usr |}.
Proof.
  intros s.
  assert (HI : Inv s) by apply Inv_run, Inv_start.
  split; [apply HI|].
  intros H. now destruct (proj1 HI c _ H) as (_ & Hh & _).
Qed.

Lemma registry_is_chat_loop_witness :
  let s := run (start exKey) (registers 1%nat "alice" "pw1" ++ logsIn 3%nat "alice" "pw1") in
  handlers s !! 3%nat = Some (AtChat "alice")
  /\ clients s !! 3%nat = Some {| conn := 3%nat; username := "alice" |}.
Proof.
  intros s.
  assert (H : handlers s !! 3%nat = Some (AtChat "alice")) by (vm_compute; reflexivity).
  split; [exact H|].
  exact (proj1 (registry_is_chat_loop exKey
                  (registers 1%nat "alice" "pw1" ++ logsIn 3%nat "alice" "pw1")
                  3%nat "alice") H).
Defined.

Lemma broadcast_alone message sender s :
  (forall c, is_Some (clients s !! c) -> c = sender) ->
  broadcast message sender s = s.
Proof.
  unfold broadcast.
  apply (map_fold_weak_ind (fun r (m : gmap Conn Client) =>
           (forall c, is_Some (m !! c) -> c = sender) -> r = s)).
  - reflexivity.
  - intros i x m r Hi IH H.
    assert (i = sender) as -> by (apply H; rewrite lookup_insert_eq; eauto).
    destruct (decide (sender <> sender)) as [Hne|_]; [contradiction|].
    apply IH. intros c Hc. apply H.
    destruct (decide (sender = c)) as [->|Hne]; [rewrite lookup_insert_eq; eauto|].
    now rewrite lookup_insert_ne.
Qed.

(** X13. A session that chats alone talks to no one: when no other
    session is registered, the data its handler reads changes nothing in
    the server, and neither does a broadcast in its name. *)
Theorem lone_chatter s c usr data :
  handlers s !! c = Some (AtChat usr) ->
  (forall c', is_Some (clients s !! c') -> c' = c) ->
  step s (Recv c (Bytes data)) = s
  /\ forall message, broadcast message c s = s.
Proof.
  intros Hp Hlone. split; [|intros message; now apply broadcast_alone].
  rewrite (step_Recv _ _ _ _ Hp), resume_chat. unfold relay.
  induction (connReads data) as [|m chunks IH]; [reflexivity|].
  cbn [fold_left]. now rewrite broadcast_alone.
Qed.

Lemma lone_chatter_witness :
  let s := run (start exKey) (registers 1%nat "alice" "pw1" ++ logsIn 3%nat "alice" "pw1") in
  handlers s !! 3%nat = Some (AtChat "alice")
  /\ step s (Recv 3%nat (line "anyone here?")) = s.
Proof.
  intros s.
  assert (Hp : handlers s !! 3%nat = Some (AtChat "alice")) by (vm_compute; reflexivity).
  split; [exact Hp|].
  assert (Hlone : forall c', is_Some (clients s !! c') -> c' = 3%nat).
  { assert (Hcl : clients s = <[3%nat := {| conn := 3%nat; username := "alice" |}]> ∅)
      by (vm_compute; reflexivity).
    intros c' [cl Hc]. rewrite Hcl in Hc.
    destruct (decide (3%nat = c')) as [<-|Hne]; [reflexivity|].
    rewrite lookup_insert_ne, lookup_empty in Hc by assumption. discriminate. }
  destruct (lone_chatter s 3%nat "alice" ("anyone here?" +:+ LF) Hp Hlone) as [H _].
  exact H.
Defined.

End KeepFacts.

(** ** What a connection is written *)

Section TranscriptFacts.

Implicit Types (s : Server) (c : Conn) (p : pc) (usr l : string) (e : Event)
  (evs : list Event).

Ltac wr_all :=
  repeat first
    [ rewrite written_goto | rewrite written_set_clients
    | rewrite written_set_users | rewrite written_broadcast
    | rewrite written_Write
    | progress unfold Fprintln, Fprintln2 ].

Ltac appended :=
  repeat (destruct (decide _) as [?|?]); subst;
  first [ exists []; rewrite app_nil_r; reflexivity
        | rewrite <- ?app_assoc; eexists; reflexivity ].

(** A handler only ever appends to what a connection was written. *)
Lemma resume_written_app k c' p r s c :
  exists w, written (handleClient_resume k c' p r s) c = written s c ++ w.
Proof.
  destruct p as [| | |usr| |usr|usr|]; destruct r as [l|];
    cbn [handleClient_resume Exec_insert QueryRow_Scan database]; cbv zeta;
    try (exists []; rewrite app_nil_r; reflexivity).
  - destruct (lowerIs "register" (TrimSpace l));
      [|destruct (lowerIs "login" (TrimSpace l))]; wr_all; appended.
  - destruct (negb _); wr_all; appended.
  - wr_all; appended.
  - destruct (Exec_insert _ _ _); wr_all; appended.
  - wr_all; appended.
  - destruct (QueryRow_Scan _ _); [destruct (negb _)|]; wr_all; appended.
  - change (exists w, written (relay usr c' (connReads l) s) c = written s c ++ w).
    destruct (relay_spec usr c' (connReads l) s) as (_ & _ & _ & _ & Hw).
    rewrite Hw. destruct (decide _); [eauto|]. exists []. now rewrite app_nil_r.
  - wr_all; appended.
Qed.

Lemma step_written_app s e c :
  exists w, written (step s e) c = written s c ++ w.
Proof.
  destruct (step_cases s e) as [->|[(c' & _ & _ & ->)|(k & p & r & _ & ->)]].
  - exists []. now rewrite app_nil_r.
  - unfold handleClient_start. wr_all. appended.
  - apply resume_written_app.
Qed.

Lemma handlers_insert_None c' (p : pc) (m : gmap Conn pc) c :
  <[c' := p]> m !! c = None <-> c' <> c /\ m !! c = None.
Proof.
  destruct (decide (c' = c)) as [->|Hne].
  - rewrite lookup_insert_eq. split; [discriminate|]. now intros [[] _].
  - rewrite lookup_insert_ne by assumption. tauto.
Qed.

Lemma handlers_step_None s e c :
  handlers (step s e) !! c = None -> handlers s !! c = None.
Proof.
  destruct (step_cases s e) as [->|[(c' & _ & _ & ->)|(k & p & r & Hp & ->)]];
    [trivial| |].
  - unfold handleClient_start. cbn [handlers goto Fprintln Write].
    intros H. now apply handlers_insert_None in H.
  - intros H. destruct (decide (event_conn e = c)) as [<-|Hne].
    + exfalso. revert H.
      destruct (resume_shape k (event_conn e) p r s) as (_ & _ & Hshape).
      destruct Hshape as [(usr & _ & _ & _ & Hh)
                         |[(usr & _ & _ & Hh)
                         |[(usr & _ & _ & Hh)
                         |[(_ & Hs)
                         |(_ & _ & p' & _ & Hh)]]]];
        rewrite ?Hs, ?Hh, ?lookup_insert_eq, ?Hp; discriminate.
    + revert H.
      destruct (resume_shape k (event_conn e) p r s) as (_ & _ & Hshape).
      destruct Hshape as [(usr & _ & _ & _ & Hh)
                         |[(usr & _ & _ & Hh)
                         |[(usr & _ & _ & Hh)
                         |[(_ & Hs)
                         |(_ & _ & p' & _ & Hh)]]]];
        rewrite ?Hs, ?Hh, ?lookup_insert_ne by assumption; trivial.
Qed.

Lemma handlers_resume_kept k c' p r s c :
  handlers s !! c' = Some p -> handlers s !! c = None ->
  handlers (handleClient_resume k c' p r s) !! c = None.
Proof.
  intros Hp H.
  assert (Hne : c' <> c) by congruence.
  destruct (resume_shape k c' p r s) as (_ & _ & Hshape).
  destruct Hshape as [(usr & _ & _ & _ & Hh)
                     |[(usr & _ & _ & Hh)
                     |[(usr & _ & _ & Hh)
                     |[(_ & Hs)
                     |(_ & _ & p' & _ & Hh)]]]];
    rewrite ?Hs, ?Hh, ?lookup_insert_ne by assumption; assumption.
Qed.

Lemma transcript_ok_step s e : Inv s -> transcript_ok s -> transcript_ok (step s e).
Proof.
  intros HI HT c. destruct (handlers (step s e) !! c) as [p|] eqn:Hp'.
  - pose proof (HT c) as HTc. destruct (handlers s !! c) as [p0|] eqn:Hp.
    + destruct (step_written_app s e c) as [w Hw]. rewrite Hw.
      destruct HTc as [rest ->]. exists (rest ++ w). reflexivity.
    + (* accepted by this step *)
      destruct (step_cases s e) as [He|[(c' & _ & Hc' & He)|(k & p1 & r & Hp1 & He)]];
        rewrite He in Hp' |- *.
      * congruence.
      * destruct (decide (c' = c)) as [->|Hne].
        -- unfold handleClient_start. rewrite written_goto.
           rewrite !written_Fprintln, HTc. eexists. reflexivity.
        -- unfold handleClient_start in Hp'. cbn [handlers goto] in Hp'.
           rewrite lookup_insert_ne in Hp' by assumption.
           cbn [handlers Fprintln Write] in Hp'. congruence.
      * rewrite (handlers_resume_kept k _ p1 r s c Hp1 Hp) in Hp'. discriminate.
  - pose proof (handlers_step_None _ _ _ Hp') as Hp. specialize (HT c).
    rewrite Hp in HT.
    destruct (step_cases s e) as [He|[(c' & _ & Hc' & He)|(k & p1 & r & Hp1 & He)]];
      rewrite He in Hp' |- *.
    + assumption.
    + assert (c' <> c).
      { intros ->. unfold handleClient_start in Hp'. cbn [handlers goto] in Hp'.
        now rewrite lookup_insert_eq in Hp'. }
      unfold handleClient_start. rewrite written_goto. unfold Fprintln.
      rewrite !written_Write. destruct (decide (c' = c)); [contradiction|assumption].
    + rewrite resume_written_other; [assumption | congruence |].
      destruct (clients s !! c) as [cl|] eqn:Hcl; [|reflexivity].
      destruct (proj1 HI c cl Hcl) as (_ & Hh & _). congruence.
Qed.

(** X14. In every reachable state, a connection that was not accepted has
    been written nothing, and what an accepted connection has been written
    starts with the welcome line and the prompt for the choice. *)
Theorem transcript_begins regKey evs c :
  let s := run (start regKey) evs in
  match handlers s !! c with
  | None => written s c = []
  | Some _ =>
      exists rest, written s c = (msgWelcome +:+ LF) :: (msgChoice +:+ LF) :: rest
  end.
Proof.
  cbv zeta.
  assert (H : forall s, Inv s -> transcript_ok s -> transcript_ok (run s evs)).
  { induction evs as [|e evs IH]; intros s HI HT; [assumption|].
    rewrite run_cons. apply IH; [apply Inv_step, HI | apply transcript_ok_step; assumption]. }
  apply H; [apply Inv_start|]. intros c0. reflexivity.
Qed.

End TranscriptFacts.

(** * chat_client.go: properties *)

Section ClientFacts.

Import ChatClient.

Implicit Types (m : model) (msg : Msg) (i str : string).

Lemma set_input_id m : set_input (input m) m = m.
Proof. now destruct m. Qed.

Lemma stake_stake (a b : nat) (x : string) :
  stake a (stake b x) = stake (Nat.min a b) x.
Proof.
  revert b x. induction a as [|a IH]; intros [|b] [|c x]; try reflexivity.
  cbn [stake Nat.min]. now rewrite IH.
Qed.

Lemma stake_all (x : string) : stake (String.length x) x = x.
Proof. induction x as [|a x IH]; [reflexivity|]. cbn [String.length stake]. now rewrite IH. Qed.

Lemma sapp_not_nil (x y : string) : x <> ""%string -> x +:+ y <> ""%string.
Proof. destruct x; [congruence|]. rewrite sapp_cons. discriminate. Qed.

Lemma length_pos_iff (x : string) :
  (0 <? String.length x)%nat = negb (String.eqb x "").
Proof. now destruct x. Qed.

(** X15. What [View] shows of the input in the password state is one
    asterisk for each byte and nothing else: two inputs of the same length
    give the same view. In the other states the view ends with the input
    as typed. *)
Theorem View_masks_password m :
  (state m = statePassword ->
     exists head, forall i,
       View (set_input i m) = head +:+ Repeat "*" (String.length i))
  /\ (state m = statePassword ->
     forall i1 i2, String.length i1 = String.length i2 ->
       View (set_input i1 m) = View (set_input i2 m))
  /\ (state m <> statePassword ->
     exists head, forall i, View (set_input i m) = head +:+ i).
Proof.
  assert (Hp : state m = statePassword ->
            exists head, forall i,
              View (set_input i m) = head +:+ Repeat "*" (String.length i)).
  { intros Hs. eexists. intros i. unfold View. cbn [messages state set_input input].
    rewrite Hs. cbn [clientState_eqb]. reflexivity. }
  split; [exact Hp|]. split.
  - intros Hs i1 i2 Hlen. destruct (Hp Hs) as [head Hh]. now rewrite !Hh, Hlen.
  - intros Hs. eexists. intros i. unfold View. cbn [messages state set_input input].
    destruct (state m); [|contradiction|]; reflexivity.
Qed.

Lemma View_masks_password_witness :
  let m := {| messages := ["Password (typing not hidden):"]; input := "";
              conn := Some 0%nat; exit := false;
              state := statePassword; prevState := stateLogin |} in
  state m = statePassword
  /\ View (set_input "hunter2" m) = View (set_input "*******" m).
Proof.
  intros m. assert (Hs : state m = statePassword) by reflexivity.
  split; [exact Hs|].
  destruct (View_masks_password m) as (_ & H & _). now apply (H Hs).
Defined.

Lemma Enter_line m str :
  conn m <> None -> input m <> ""%string -> input m <> "/exit"%string ->
  let r := Update m (KeyMsg KeyEnter str) in
  sent r = Some (input m +:+ LF)
  /\ cmd r = None
  /\ input (next r) = ""%string
  /\ messages (next r) =
       match state m with
       | stateChat => messages m ++ ["You: " +:+ input m]
       | _ => messages m
       end
  /\ state (next r) =
       match state m with
       | statePassword => prevState m
       | st => st
       end
  /\ exit (next r) = exit m /\ conn (next r) = conn m.
Proof.
  intros Hc Hi He r. subst r. cbn [Update].
  destruct (conn m) as [k|] eqn:Hk; [|contradiction].
  rewrite length_pos_iff.
  apply String.eqb_neq in Hi, He. rewrite Hi, He. cbn [negb].
  destruct (state m) eqn:Hs; cbn; rewrite ?Hs; cbn; repeat split; assumption.
Qed.

(** X16. Enter, with a connection and an input that is neither empty nor
    [/exit], writes to the server the input and a line feed, once; it
    empties the input, adds the line after [You: ] to the messages in the
    chat state only, and leaves the password state for the state that was
    current before the prompt. *)
Theorem Enter_sends_line m str :
  conn m <> None -> input m <> ""%string -> input m <> "/exit"%string ->
  let r := Update m (KeyMsg KeyEnter str) in
  sent r = Some (input m +:+ LF)
  /\ cmd r = None
  /\ input (next r) = ""%string
  /\ messages (next r) =
       match state m with
       | stateChat => messages m ++ ["You: " +:+ input m]
       | _ => messages m
       end
  /\ state (next r) =
       match state m with
       | statePassword => prevState m
       | st => st
       end
  /\ exit (next r) = exit m /\ conn (next r) = conn m.
Proof. apply Enter_line. Qed.

Lemma Enter_sends_line_witness :
  let m := {| messages := ["Password (typing not hidden):"]; input := "hunter2";
              conn := Some 0%nat; exit := false;
              state := statePassword; prevState := stateLogin |} in
  let r := Update m (KeyMsg KeyEnter "enter") in
  conn m <> None /\ input m <> ""%string /\ input m <> "/exit"%string
  /\ sent r = Some ("hunter2" +:+ LF)
  /\ messages (next r) = ["Password (typing not hidden):"]
  /\ state (next r) = stateLogin.
Proof.
  intros m r.
  assert (H1 : conn m <> None) by discriminate.
  assert (H2 : input m <> ""%string) by discriminate.
  assert (H3 : input m <> "/exit"%string) by discriminate.
  destruct (Enter_sends_line m "enter" H1 H2 H3) as (E1 & _ & _ & E4 & E5 & _).
  split; [exact H1|]. split; [exact H2|]. split; [exact H3|].
  split; [exact E1|]. split; [exact E4 | exact E5].
Defined.

(** X17. [Update] writes to the server on no other occasion: when it
    writes, the message was Enter, there is a connection, and what is
    written is the input, not empty and not [/exit], with a line feed. In
    particular [/exit], an empty line and the lines of the server are never
    sent. *)
Theorem Update_sends_only_typed m msg w :
  sent (Update m msg) = Some w ->
  (exists str, msg = KeyMsg KeyEnter str)
  /\ conn m <> None
  /\ w = input m +:+ LF
  /\ input m <> ""%string /\ input m <> "/exit"%string.
Proof.
  destruct msg as [[| |] str|l|]; cbn [Update]; cbv zeta.
  - destruct (conn m) as [k|]; [|discriminate].
    rewrite length_pos_iff.
    destruct (String.eqb_spec (input m) "") as [|Hi]; [discriminate|]. cbn [negb].
    destruct (String.eqb_spec (input m) "/exit") as [|He]; [discriminate|].
    cbn [sent]. intros [= <-]. repeat split; eauto; discriminate.
  - discriminate.
  - discriminate.
  - destruct (String.eqb _ msgClosed); [discriminate|].
    destruct (Contains _ markWelcome || Contains _ markJoined); discriminate.
  - discriminate.
Qed.

Lemma Update_sends_only_typed_witness :
  let m := {| messages := []; input := "hello"; conn := Some 0%nat; exit := false;
              state := stateChat; prevState := stateLogin |} in
  sent (Update m (KeyMsg KeyEnter "enter")) = Some ("hello" +:+ LF)
  /\ conn m <> None /\ input m <> "/exit"%string.
Proof.
  intros m.
  assert (H : sent (Update m (KeyMsg KeyEnter "enter")) = Some ("hello" +:+ LF))
    by reflexivity.
  destruct (Update_sends_only_typed m _ _ H) as (_ & H2 & _ & _ & H5).
  split; [exact H|]. split; [exact H2 | exact H5].
Defined.

Lemma backspaces m x (n : nat) :
  updates (set_input x m) (repeat (KeyMsg KeyBackspace "") n)
  = set_input (stake (String.length x - n) x) m.
Proof.
  revert x. induction n as [|n IH]; intros x.
  - cbn [repeat updates fold_left]. now rewrite Nat.sub_0_r, stake_all.
  - cbn [repeat]. unfold updates. cbn [fold_left]. fold (updates (next (Update (set_input x m) (KeyMsg KeyBackspace ""))) (repeat (KeyMsg KeyBackspace "") n)).
    cbn [Update]. cbv zeta. cbn [input set_input next].
    destruct x as [|a x].
    + cbn [String.length Nat.ltb Nat.leb]. rewrite IH. reflexivity.
    + change (0 <? String.length (String a x))%nat with true. cbv iota.
      change (set_input (stake (String.length (String a x) - 1) (String a x))
                (set_input (String a x) m))
        with (set_input (stake (String.length (String a x) - 1) (String a x)) m).
      rewrite IH, stake_stake, length_stake. f_equal. f_equal.
      cbn [String.length]. lia.
Qed.

(** X18. Backspace removes the last byte of the input, so typing a text
    and then pressing Backspace once for each of its bytes gives back the
    model as it was; Backspace on an empty input changes nothing. *)
Theorem type_then_erase m str :
  updates (next (Update m (KeyMsg KeyOther str)))
          (repeat (KeyMsg KeyBackspace "") (String.length str)) = m
  /\ (input m = ""%string -> next (Update m (KeyMsg KeyBackspace "")) = m).
Proof.
  split.
  - cbn [Update next]. rewrite backspaces, length_sapp.
    replace (String.length (input m) + String.length str - String.length str)%nat
      with (String.length (input m)) by lia.
    rewrite stake_app_exact. apply set_input_id.
  - intros Hi. cbn [Update next]. cbv zeta. now rewrite Hi.
Qed.

End ClientFacts.

(** ** White space, lines and tokens *)

Section LineFacts.

Implicit Types (s t x y : string) (a b c d e : ascii).

Lemma space3_ascii_m c d e : byte_val d < 0x80 -> space3 c d e = false.
Proof.
  intros H. unfold space3.
  rewrite !(byte_eqb_ascii d) by (assumption || lia).
  rewrite !andb_false_r. reflexivity.
Qed.

Lemma countByte_srev a s : countByte a (srev s) = countByte a s.
Proof.
  induction s as [|c s IH]; [reflexivity|].
  cbn [srev countByte]. rewrite countByte_app, IH. cbn [countByte]. lia.
Qed.

Lemma countByte_stripSpace a sp2 sp3 s :
  plainByte a ->
  (forall c d, sp2 c d = true -> c <> a /\ d <> a) ->
  (forall c d e, sp3 c d e = true -> c <> a /\ d <> a /\ e <> a) ->
  countByte a (stripSpace sp2 sp3 s) = countByte a s.
Proof.
  intros [Ha Hsp] H2 H3.
  assert (Heq : forall c, c <> a -> Ascii.eqb c a = false)
    by (intros c Hc; now apply Ascii.eqb_neq).
  assert (H : forall n s, (String.length s < n)%nat ->
            countByte a (stripSpace sp2 sp3 s) = countByte a s).
  { clear s. induction n as [|n IH]; intros s Hn; [lia|].
    destruct s as [|c s1]; [reflexivity|].
    cbn [stripSpace]. destruct (asciiSpace c) eqn:Hc.
    { rewrite IH by (cbn [String.length] in Hn; lia).
      cbn [countByte]. rewrite Heq; [reflexivity|]. intros ->. congruence. }
    destruct s1 as [|d s2]; [reflexivity|].
    destruct (sp2 c d) eqn:H2'.
    { rewrite IH by (cbn [String.length] in Hn; lia).
      destruct (H2 _ _ H2') as [? ?]. cbn [countByte]. now rewrite !Heq. }
    destruct s2 as [|e s3]; [reflexivity|].
    destruct (sp3 c d e) eqn:H3'; [|reflexivity].
    rewrite IH by (cbn [String.length] in Hn; lia).
    destruct (H3 _ _ _ H3') as (? & ? & ?). cbn [countByte]. now rewrite !Heq. }
  apply (H (S (String.length s))). lia.
Qed.

Lemma space2_not_plain a c d :
  byte_val a < 0x80 -> space2 c d = true -> c <> a /\ d <> a.
Proof.
  intros Ha H. split; intros ->;
    [rewrite space2_ascii_l in H | rewrite space2_ascii_r in H];
    (assumption || discriminate).
Qed.

Lemma space3_not_plain a c d e :
  byte_val a < 0x80 -> space3 c d e = true -> c <> a /\ d <> a /\ e <> a.
Proof.
  intros Ha H. repeat split; intros ->;
    [rewrite space3_ascii_l in H | rewrite space3_ascii_m in H
    | rewrite space3_ascii_r in H]; (assumption || discriminate).
Qed.

Lemma countByte_TrimSpace a s : plainByte a -> countByte a (TrimSpace s) = countByte a s.
Proof.
  intros Ha. unfold TrimSpace, TrimRightSpace, TrimLeftSpace.
  rewrite countByte_srev, countByte_stripSpace, countByte_srev; try assumption.
  - apply countByte_stripSpace; try assumption.
    + intros c d. apply space2_not_plain, Ha.
    + intros c d e. apply space3_not_plain, Ha.
  - intros c d H. destruct (space2_not_plain a d c (proj1 Ha) H). auto.
  - intros c d e H. destruct (space3_not_plain a e d c (proj1 Ha) H) as (? & ? & ?). auto.
Qed.

Lemma TrimRight_last x b cutset :
  inCutset b cutset = false ->
  TrimRight (x +:+ String b "") cutset = x +:+ String b "".
Proof.
  intros H. unfold TrimRight. rewrite srev_app.
  change (srev (String b "") +:+ srev x) with (String b (srev x)).
  cbn [dropWhileIn]. rewrite H.
  cbn [srev]. now rewrite srev_involutive.
Qed.

Lemma dropCR_id x : endsWithCR x = false -> dropCR x = x.
Proof.
  unfold endsWithCR, dropCR. destruct (srev x) as [|c r]; [reflexivity|].
  now intros ->.
Qed.

Lemma endsWithCR_last x b :
  Ascii.eqb b (byte_of 13) = false -> endsWithCR (x +:+ String b "") = false.
Proof.
  intros H. unfold endsWithCR. rewrite srev_app.
  change (srev (String b "") +:+ srev x) with (String b (srev x)).
  exact H.
Qed.

Lemma allBytes_app P x y :
  allBytes P (x +:+ y) = allBytes P x && allBytes P y.
Proof.
  induction x as [|c x IH]; [reflexivity|].
  rewrite sapp_cons. cbn [allBytes]. now rewrite IH, andb_assoc.
Qed.

(** The scan of a line that ends with a line feed. *)
Lemma scanFrom_line cur x rest :
  allBytes (isNot (byte_of 10)) x = true ->
  Z.of_nat (String.length (cur +:+ x)) < maxScanTokenSize ->
  scanFrom cur (x +:+ String (byte_of 10) rest)
  = (dropCR (cur +:+ x) :: fst (scanFrom "" rest), snd (scanFrom "" rest)).
Proof.
  revert cur. induction x as [|c x IH]; intros cur Ha Hlen.
  - rewrite sapp_nil_l. rewrite sapp_nil_r in Hlen |- *. cbn [scanFrom].
    rewrite Ascii.eqb_refl.
    replace (Z.of_nat (String.length cur) + 1 <=? maxScanTokenSize) with true
      by (symmetry; apply Z.leb_le; lia).
    now destruct (scanFrom "" rest).
  - cbn [allBytes] in Ha. apply andb_true_iff in Ha as [Hc Hx].
    rewrite sapp_cons. cbn [scanFrom].
    unfold isNot in Hc. apply negb_true_iff in Hc. rewrite Hc.
    rewrite IH; [|assumption|].
    + now rewrite sapp_assoc.
    + now rewrite sapp_assoc.
Qed.

Lemma scanLines_lines (lines : list string) :
  Forall wholeLine lines ->
  scanLines (sconcat (map (fun l => l +:+ LF) lines)) = (lines, ScanDone).
Proof.
  unfold scanLines. induction 1 as [|l lines (Ha & Hcr & Hlen) _ IH]; [reflexivity|].
  cbn [map sconcat fold_right].
  fold (sconcat (map (fun l => l +:+ LF) lines)).
  unfold LF at 1. rewrite sapp_assoc, sapp_cons, sapp_nil_l.
  rewrite scanFrom_line by (rewrite ?sapp_nil_l; assumption).
  rewrite IH, sapp_nil_l, dropCR_id by assumption. reflexivity.
Qed.

(** X19. [TrimSpace] removes white space only: every ASCII byte that is
    not white space occurs in the trimmed string as many times as in the
    line, so the name and the password the handler keeps have all the
    visible ASCII characters that were sent. *)
Theorem TrimSpace_keeps_visible a l :
  plainByte a -> countByte a (TrimSpace l) = countByte a l.
Proof. apply countByte_TrimSpace. Qed.

Lemma TrimSpace_keeps_visible_witness :
  plainByte "o" /\ countByte "o" (TrimSpace ("  foo boo " +:+ LF)) = 4%nat.
Proof.
  assert (H : plainByte "o") by (split; [vm_compute|]; reflexivity).
  split; [exact H|]. rewrite (TrimSpace_keeps_visible "o" _ H). reflexivity.
Defined.

(** X20. What the server writes line by line with [fmt.Fprintln] the
    reading goroutine of the client gets back line by line: for lines
    without a line feed, not ending with a carriage return and shorter than
    the buffer of the Scanner, the scan of the lines, each followed by a
    line feed, gives these lines in order and ends without error; the
    messages sent to [Update] are the lines and then the notice that the
    server closed the connection. *)
Theorem scan_round_trip (lines : list string) :
  Forall wholeLine lines ->
  let data := sconcat (map (fun l => l +:+ LF) lines) in
  scanLines data = (lines, ScanDone)
  /\ ChatClient.serverMsgs data
     = map ChatClient.ServerLine lines
       ++ [ChatClient.ServerLine ChatClient.msgClosed].
Proof.
  intros H data. pose proof (scanLines_lines lines H) as Hs. fold data in Hs.
  split; [exact Hs|]. unfold ChatClient.serverMsgs. now rewrite Hs.
Qed.

Lemma scan_round_trip_witness :
  let lines := [msgWelcome; msgChoice; ""%string; "bob: hi"%string] in
  Forall wholeLine lines
  /\ scanLines (sconcat (map (fun l => l +:+ LF) lines)) = (lines, ScanDone).
Proof.
  intros lines.
  assert (H : Forall wholeLine lines)
    by (repeat constructor; vm_compute; reflexivity).
  split; [exact H|]. apply (scan_round_trip lines H).
Defined.

End LineFacts.

(** ** The client and the server together *)

Section TogetherFacts.

Import ChatClient.

Implicit Types (s : Server) (c peer : Conn) (usr l text : string) (m : model).

Lemma type_then_erase_witness :
  let m := {| messages := []; input := ""; conn := Some 0%nat; exit := false;
              state := stateLogin; prevState := stateLogin |} in
  input m = ""%string
  /\ next (Update m (KeyMsg KeyBackspace "")) = m
  /\ updates (next (Update m (KeyMsg KeyOther "abc")))
             (repeat (KeyMsg KeyBackspace "") 3) = m.
Proof.
  intros m. assert (H : input m = ""%string) by reflexivity.
  destruct (type_then_erase m "abc") as [H1 H2].
  split; [exact H|]. split; [exact (H2 H) | exact H1].
Defined.

Lemma allBytes_srev P (x : string) : allBytes P (srev x) = allBytes P x.
Proof.
  induction x as [|a x IH]; [reflexivity|].
  cbn [srev allBytes]. rewrite allBytes_app, IH. cbn [allBytes].
  rewrite andb_true_r. apply andb_comm.
Qed.

Lemma TrimRight_wholeLine (x : string) :
  wholeLine x -> TrimRight x (CR +:+ LF) = x.
Proof.
  intros (Ha & Hcr & _). unfold TrimRight.
  rewrite <- allBytes_srev in Ha. unfold endsWithCR in Hcr.
  rewrite <- (srev_involutive x) at 2.
  destruct (srev x) as [|b r]; [reflexivity|].
  cbn [allBytes] in Ha. apply andb_true_iff in Ha as [Hb _].
  unfold isNot in Hb. apply negb_true_iff in Hb.
  cbn [dropWhileIn]. change (inCutset b (CR +:+ LF))
    with (Ascii.eqb b (byte_of 13) || (Ascii.eqb b (byte_of 10) || false)).
  now rewrite Hcr, Hb.
Qed.

Lemma prefix_refl (x : string) : String.prefix x x = true.
Proof.
  induction x as [|a x IH]; [reflexivity|]. cbn [String.prefix].
  destruct (ascii_dec a a); [assumption|contradiction].
Qed.

Lemma Contains_app_r (x y sub : string) :
  Contains y sub = true -> Contains (x +:+ y) sub = true.
Proof.
  intros H. induction x as [|a x IH]; [assumption|].
  rewrite sapp_cons. cbn [Contains]. rewrite IH. apply orb_true_r.
Qed.

Lemma Update_closed m : cmd (Update m (ServerLine msgClosed)) = Some Quit
                        /\ exit (next (Update m (ServerLine msgClosed))) = true.
Proof. split; reflexivity. Qed.

Lemma Update_blank m : Update m (ServerLine "") = {| next := m; cmd := None; sent := None |}.
Proof. reflexivity. Qed.

(** X21. The password never shows: after a line of the server that holds
    the mark of a password prompt, the client is in the password state;
    what is typed appears in the view as asterisks only; Enter sends the
    text typed with a line feed, puts nothing of it in the messages, and
    brings back the state the client was in before the prompt. *)
Theorem password_prompt_round_trip m prompt pw :
  let sl := TrimRight prompt (CR +:+ LF) in
  Contains sl markPassword = true ->
  Contains sl markWelcome = false -> Contains sl markJoined = false ->
  conn m <> None -> input m = ""%string ->
  pw <> ""%string -> pw <> "/exit"%string ->
  let m1 := next (Update m (ServerLine prompt)) in
  let m2 := next (Update m1 (KeyMsg KeyOther pw)) in
  let r := Update m2 (KeyMsg KeyEnter "") in
  state m1 = statePassword
  /\ View m2 = View m1 +:+ Repeat "*" (String.length pw)
  /\ sent r = Some (pw +:+ LF)
  /\ state (next r) = state m
  /\ messages (next r) = messages m1
  /\ input (next r) = ""%string.
Proof.
  intros sl Hpw Hw Hj Hc Hi Hne Hex m1 m2 r.
  assert (Hcl : String.eqb sl msgClosed = false).
  { apply String.eqb_neq. intros E. rewrite E in Hpw. discriminate. }
  assert (E1 : state m1 = statePassword /\ prevState m1 = state m
               /\ input m1 = ""%string /\ conn m1 = conn m).
  { subst m1. cbn [Update]. cbv zeta. fold sl. rewrite Hcl, Hpw, Hw, Hj. cbn [orb].
    destruct (negb _); cbn; auto. }
  destruct E1 as (Es & Ep & Ei & Ec).
  assert (E2 : input m2 = pw /\ state m2 = statePassword /\ prevState m2 = state m
               /\ conn m2 = conn m /\ messages m2 = messages m1).
  { subst m2. cbn [Update next set_input input state prevState conn messages].
    rewrite Ei. auto. }
  destruct E2 as (Fi & Fs & Fp & Fc & Fm).
  split; [exact Es|]. split.
  - unfold View. rewrite Es, Fs, Fm, Fi, Ei. cbn [clientState_eqb String.length Repeat].
    now rewrite sapp_nil_r.
  - assert (Hc2 : conn m2 <> None) by now rewrite Fc.
    assert (Hi2 : input m2 <> ""%string) by now rewrite Fi.
    assert (He2 : input m2 <> "/exit"%string) by now rewrite Fi.
    destruct (Enter_line m2 "" Hc2 Hi2 He2) as (G1 & _ & G3 & G4 & G5 & _).
    fold r in G1, G3, G4, G5. rewrite Fs in G4, G5. rewrite G1, G5, G4, G3, Fi, Fp, Fm.
    auto.
Qed.

Lemma password_prompt_round_trip_witness :
  let m := {| messages := ["Username: "]; input := ""; conn := Some 0%nat;
              exit := false; state := stateLogin; prevState := stateLogin |} in
  let m1 := next (Update m (ServerLine msgPass)) in
  let m2 := next (Update m1 (KeyMsg KeyOther "hunter2")) in
  let r := Update m2 (KeyMsg KeyEnter "") in
  Contains (TrimRight msgPass (CR +:+ LF)) markPassword = true
  /\ state m1 = statePassword
  /\ sent r = Some ("hunter2" +:+ LF)
  /\ state (next r) = stateLogin
  /\ messages (next r) = ["Username: "; "Password (typing not hidden):"].
Proof.
  intros m m1 m2 r.
  assert (H1 : Contains (TrimRight msgPass (CR +:+ LF)) markPassword = true) by reflexivity.
  destruct (password_prompt_round_trip m msgPass "hunter2" H1 eq_refl eq_refl
              ltac:(discriminate) eq_refl ltac:(discriminate) ltac:(discriminate))
    as (E1 & _ & E3 & E4 & E5 & _).
  split; [exact H1|]. split; [exact E1|]. split; [exact E3|]. split; [exact E4|].
  exact E5.
Defined.

Lemma wholeLine_blank : wholeLine "".
Proof. repeat split. Qed.

Lemma wholeLine_closed : wholeLine msgClosed.
Proof. repeat split. Qed.

Lemma chat_written s c usr chunk peer :
  handlers s !! c = Some (AtChat usr) ->
  (0 < String.length chunk <= bufLen)%nat ->
  peer <> c -> is_Some (clients s !! peer) ->
  written (step s (Recv c (Bytes chunk))) peer
  = written s peer ++ [(usr +:+ ": " +:+ chunk) +:+ LF].
Proof.
  intros Hp Hlen Hne Hin. rewrite (chat_one_read s c usr chunk Hp Hlen).
  now apply broadcast_others.
Qed.

(** X22. A line of chat reaches the peer as it was sent. When a session
    in the chat loop sends a line [text] with its line feed, and the name,
    a colon, a space and the text make a whole line that holds none of the
    three marks the client looks for, then the server writes that line and
    two line feeds to every other registered connection; the Scanner of the
    client reads them as the line and an empty line; and the client adds to
    its messages the line, with the white space around it removed, and
    changes nothing else. *)
Theorem chat_line_shown s c usr text peer m :
  handlers s !! c = Some (AtChat usr) ->
  peer <> c -> is_Some (clients s !! peer) ->
  (String.length text < bufLen)%nat ->
  let shown := usr +:+ ": " +:+ text in
  wholeLine shown ->
  Contains shown markPassword = false ->
  Contains shown markWelcome = false ->
  Contains shown markJoined = false ->
  let s' := step s (Recv c (Bytes (text +:+ LF))) in
  written s' peer = written s peer ++ [shown +:+ LF +:+ LF]
  /\ scanLines (shown +:+ LF +:+ LF) = ([shown; ""%string], ScanDone)
  /\ updates m [ServerLine shown; ServerLine ""]
     = set_messages (messages m ++ [TrimSpace shown]) m.
Proof.
  intros Hp Hne Hin Hlen shown Hwl Hpw Hw Hj s'.
  assert (Hcolon : plainByte ":") by (split; [vm_compute|]; reflexivity).
  assert (Hcnt : (1 <= countByte ":" shown)%nat).
  { unfold shown. rewrite !countByte_app.
    change (countByte ":" ": ") with 1%nat. lia. }
  split; [|split].
  - assert (Hl : (0 < String.length (text +:+ LF) <= bufLen)%nat).
    { rewrite length_sapp. change (String.length LF) with 1%nat.
      unfold bufLen in *. lia. }
    unfold s'. rewrite (chat_written s c usr _ peer Hp Hl Hne Hin).
    unfold shown. now rewrite !sapp_assoc.
  - replace (shown +:+ LF +:+ LF)
      with (sconcat (map (fun l0 => l0 +:+ LF) [shown; ""%string]))
      by (unfold sconcat; cbn [map fold_right];
          rewrite ?sapp_assoc, ?sapp_nil_l, ?sapp_nil_r; reflexivity).
    apply scanLines_lines.
    constructor; [exact Hwl|]. constructor; [exact wholeLine_blank | constructor].
  - unfold updates. cbn [fold_left].
    assert (E : next (Update m (ServerLine shown))
                = set_messages (messages m ++ [TrimSpace shown]) m).
    { cbn [Update]. cbv zeta. rewrite (TrimRight_wholeLine shown Hwl).
      replace (String.eqb shown msgClosed) with false.
      2:{ symmetry. apply String.eqb_neq. intros E. rewrite E in Hcnt.
          vm_compute in Hcnt. lia. }
      rewrite Hpw, Hw, Hj. cbn [orb].
      replace (String.eqb (TrimSpace shown) "") with false; [reflexivity|].
      symmetry. apply String.eqb_neq. intros E.
      rewrite <- (countByte_TrimSpace ":" shown Hcolon), E in Hcnt.
      cbn in Hcnt. lia. }
    rewrite E. reflexivity.
Qed.

Lemma chat_line_shown_witness :
  let m := {| messages := ["Welcome back, alice!"]; input := "dra"; conn := Some 0%nat;
              exit := false; state := stateChat; prevState := stateLogin |} in
  handlers twoChatting !! 4%nat = Some (AtChat "bob")
  /\ wholeLine "bob: hello"
  /\ written (step twoChatting (Recv 4%nat (line "hello"))) 3%nat
     = written twoChatting 3%nat ++ ["bob: hello" +:+ LF +:+ LF]
  /\ updates m [ServerLine "bob: hello"; ServerLine ""]
     = set_messages ["Welcome back, alice!"; "bob: hello"] m.
Proof.
  intros m.
  assert (Hp : handlers twoChatting !! 4%nat = Some (AtChat "bob"))
    by (vm_compute; reflexivity).
  assert (Hin : is_Some (clients twoChatting !! 3%nat)) by (vm_compute; eexists; reflexivity).
  assert (Hlen : (String.length "hello" < bufLen)%nat) by (vm_compute; lia).
  assert (Hwl : wholeLine "bob: hello") by (repeat split).
  destruct (chat_line_shown twoChatting 4%nat "bob" "hello" 3%nat m Hp
              ltac:(discriminate) Hin Hlen Hwl eq_refl eq_refl eq_refl)
    as (H1 & _ & H3).
  split; [exact Hp|]. split; [exact Hwl|]. split; [exact H1 | exact H3].
Defined.

(** X23. The notice of a login empties the history of the peers. When a
    login is accepted under a name without line feed and short enough for
    the Scanner, the server writes the joined notice to every session
    registered before; the Scanner of the client reads it as one line; and
    the client, whatever its messages were, then holds that notice alone
    and is in the chat state, its input untouched. *)
Theorem join_notice_clears_history s c usr l peer m :
  handlers s !! c = Some (AtLoginPass usr) ->
  select_password usr (users s) = Some (hashPassword (TrimSpace l)) ->
  peer <> c -> is_Some (clients s !! peer) ->
  allBytes (isNot (byte_of 10)) usr = true ->
  Z.of_nat (String.length usr) + 20 < maxScanTokenSize ->
  let notice := msgJoined usr in
  let s' := step s (Recv c (Bytes l)) in
  let m' := next (Update m (ServerLine notice)) in
  written s' peer = written s peer ++ [notice +:+ LF]
  /\ scanLines (notice +:+ LF) = ([notice], ScanDone)
  /\ messages m' = [notice] /\ state m' = stateChat /\ input m' = input m
  /\ cmd (Update m (ServerLine notice)) = None.
Proof.
  intros Hp Hsel Hne Hin Ha Hlen notice s' m'.
  assert (Esplit : notice = (usr +:+ " has joined the cha") +:+ String "t" "")
    by (unfold notice, msgJoined; now rewrite sapp_assoc).
  assert (Hwl : wholeLine notice).
  { split; [|split].
    - unfold notice, msgJoined. now rewrite allBytes_app, Ha.
    - rewrite Esplit. now apply endsWithCR_last.
    - unfold notice, msgJoined. rewrite length_sapp.
      change (String.length " has joined the chat") with 20%nat. lia. }
  assert (Hcl : String.eqb notice msgClosed = false).
  { apply String.eqb_neq. intros E. apply (f_equal srev) in E.
    rewrite Esplit, srev_app in E.
    change (srev (String "t" "") +:+ srev (usr +:+ " has joined the cha"))
      with (String "t" (srev (usr +:+ " has joined the cha"))) in E.
    vm_compute in E. discriminate. }
  assert (Hj : Contains notice markJoined = true)
    by (unfold notice, msgJoined; now apply Contains_app_r).
  split; [|split].
  - destruct (login_accepted s c usr l Hp Hsel) as (_ & _ & _ & H4).
    now apply H4.
  - replace (notice +:+ LF) with (sconcat (map (fun l0 => l0 +:+ LF) [notice]))
      by (unfold sconcat; cbn [map fold_right];
          rewrite ?sapp_assoc, ?sapp_nil_l, ?sapp_nil_r; reflexivity).
    apply scanLines_lines. constructor; [exact Hwl | constructor].
  - subst m'. cbn [Update]. cbv zeta. rewrite (TrimRight_wholeLine notice Hwl).
    rewrite Hcl, Hj, orb_true_r.
    destruct (Contains notice markPassword); repeat split; reflexivity.
Qed.

Lemma join_notice_clears_history_witness :
  let s := run (start exKey)
             (registers 1%nat "alice" "pw1" ++ registers 2%nat "bob" "pw2"
              ++ logsIn 3%nat "alice" "pw1"
              ++ [Accept 4%nat; Recv 4%nat (line "login"); Recv 4%nat (line "bob")]) in
  let m := {| messages := ["Welcome back, alice!"; "carol: see you"];
              input := "dra"; conn := Some 0%nat; exit := false;
              state := stateChat; prevState := stateLogin |} in
  handlers s !! 4%nat = Some (AtLoginPass "bob")
  /\ written (step s (Recv 4%nat (line "pw2"))) 3%nat
     = written s 3%nat ++ ["bob has joined the chat" +:+ LF]
  /\ messages (next (Update m (ServerLine "bob has joined the chat")))
     = ["bob has joined the chat"%string].
Proof.
  intros s m.
  assert (Hp : handlers s !! 4%nat = Some (AtLoginPass "bob")) by (vm_compute; reflexivity).
  assert (Hs : select_password "bob" (users s)
               = Some (hashPassword (TrimSpace ("pw2" +:+ LF)))) by (vm_compute; reflexivity).
  assert (Hin : is_Some (clients s !! 3%nat)) by (vm_compute; eexists; reflexivity).
  assert (Hlen : Z.of_nat (String.length "bob") + 20 < maxScanTokenSize)
    by (vm_compute; reflexivity).
  destruct (join_notice_clears_history s 4%nat "bob" ("pw2" +:+ LF) 3%nat m Hp Hs
              ltac:(discriminate) Hin eq_refl Hlen) as (H1 & _ & H3 & _).
  split; [exact Hp|]. split; [exact H1 | exact H3].
Defined.

(** X24. A peer can close a client. When a session in the chat loop sends,
    after a first line, the line [Connection closed by server.], the
    server relays both to every other registered connection; the Scanner
    of the client reads the second as a line of its own; and the client,
    in whatever state, takes it for the notice of its reading goroutine:
    it sets [exit] and returns the command to quit. *)
Theorem peer_line_quits_client s c usr x peer m :
  handlers s !! c = Some (AtChat usr) ->
  peer <> c -> is_Some (clients s !! peer) ->
  (String.length x + 30 <= bufLen)%nat ->
  let first := usr +:+ ": " +:+ x in
  wholeLine first ->
  let chunk := x +:+ LF +:+ msgClosed +:+ LF in
  let s' := step s (Recv c (Bytes chunk)) in
  let data := first +:+ LF +:+ msgClosed +:+ LF +:+ LF in
  written s' peer = written s peer ++ [data]
  /\ scanLines data = ([first; msgClosed; ""%string], ScanDone)
  /\ let r := Update (next (Update m (ServerLine first))) (ServerLine msgClosed) in
     cmd r = Some Quit /\ exit (next r) = true.
Proof.
  intros Hp Hne Hin Hlen first Hwl chunk s' data. split; [|split].
  - assert (Hl : (0 < String.length chunk <= bufLen)%nat).
    { unfold chunk. rewrite !length_sapp.
      change (String.length LF) with 1%nat.
      change (String.length msgClosed) with 28%nat. unfold bufLen in *. lia. }
    unfold s'. rewrite (chat_written s c usr _ peer Hp Hl Hne Hin).
    unfold data, first, chunk. now rewrite !sapp_assoc.
  - replace data
      with (sconcat (map (fun l0 => l0 +:+ LF) [first; msgClosed; ""%string]))
      by (unfold data, sconcat; cbn [map fold_right];
          rewrite ?sapp_assoc, ?sapp_nil_l, ?sapp_nil_r; reflexivity).
    apply scanLines_lines.
    constructor; [exact Hwl|].
    constructor; [exact wholeLine_closed|].
    constructor; [exact wholeLine_blank | constructor].
  - apply Update_closed.
Qed.

Lemma peer_line_quits_client_witness :
  let m := {| messages := ["Welcome back, alice!"]; input := ""; conn := Some 0%nat;
              exit := false; state := stateChat; prevState := stateLogin |} in
  let chunk := "bye" +:+ LF +:+ msgClosed +:+ LF in
  handlers twoChatting !! 4%nat = Some (AtChat "bob")
  /\ wholeLine "bob: bye"
  /\ written (step twoChatting (Recv 4%nat (Bytes chunk))) 3%nat
     = written twoChatting 3%nat
       ++ ["bob: bye" +:+ LF +:+ msgClosed +:+ LF +:+ LF]
  /\ exit (updates m [ServerLine "bob: bye"; ServerLine msgClosed]) = true.
Proof.
  intros m chunk.
  assert (Hp : handlers twoChatting !! 4%nat = Some (AtChat "bob"))
    by (vm_compute; reflexivity).
  assert (Hin : is_Some (clients twoChatting !! 3%nat)) by (vm_compute; eexists; reflexivity).
  assert (Hlen : (String.length "bye" + 30 <= bufLen)%nat) by (vm_compute; lia).
  assert (Hwl : wholeLine "bob: bye") by (repeat split).
  destruct (peer_line_quits_client twoChatting 4%nat "bob" "bye" 3%nat m Hp
              ltac:(discriminate) Hin Hlen Hwl) as (H1 & _ & _ & H4).
  split; [exact Hp|]. split; [exact Hwl|]. split; [exact H1 | exact H4].
Defined.

End TogetherFacts.

(** ** The gates of the dialogue *)

Section GateFacts.

Implicit Types (s : Server) (c : Conn) (p : pc) (usr l : string) (e : Event).

Lemma handlers_step_other s e c :
  event_conn e <> c -> handlers (step s e) !! c = handlers s !! c.
Proof.
  intros Hne.
  destruct (step_cases s e) as [->|[(c' & -> & _ & ->)|(k & p & r & Hp & ->)]];
    [reflexivity| |set (c' := event_conn e) in *].
  - cbn [event_conn] in Hne.
    unfold handleClient_start. cbn [handlers goto Fprintln Write].
    now rewrite lookup_insert_ne.
  - destruct (resume_shape k c' p r s) as (_ & _ & Hshape).
    destruct Hshape as [(usr & _ & _ & _ & Hh)
                       |[(usr & _ & _ & Hh)
                       |[(usr & _ & _ & Hh)
                       |[(_ & Hs)
                       |(_ & _ & p' & _ & Hh)]]]];
      rewrite ?Hs, ?Hh, ?lookup_insert_ne by assumption; reflexivity.
Qed.

Lemma handlers_Accept s c' c p :
  handlers (step s (Accept c')) !! c = Some p ->
  handlers s !! c = Some p \/ p = AtChoice.
Proof.
  cbn [step]. destruct (handlers s !! c') eqn:Hc'; [now left|].
  unfold handleClient_start. cbn [handlers goto Fprintln Write].
  destruct (decide (c' = c)) as [->|Hne].
  - rewrite lookup_insert_eq. intros [= <-]. now right.
  - rewrite lookup_insert_ne by assumption. now left.
Qed.

(** A statement served by a connection without the table is refused: the
    handler writes the failure and returns. *)
Lemma RecvOther_refused s c l :
  step s (RecvOther c l) = s
  \/ (exists usr, handlers s !! c = Some (AtRegPass usr)
        /\ step s (RecvOther c l)
           = goto c Returned (Fprintln2 c msgRegFail (Error ErrNoTable) s))
  \/ (exists usr, handlers s !! c = Some (AtLoginPass usr)
        /\ step s (RecvOther c l) = goto c Returned (Fprintln c msgBadLogin s)).
Proof.
  cbn [step]. destruct (handlers s !! c) as [p|]; [|now left].
  destruct p as [| | |u| |u|u|]; cbn [beforeStatement]; try (now left).
  - right; left. exists u. split; reflexivity.
  - right; right. exists u. split; reflexivity.
Qed.

Ltac other_step H s c' c l :=
  destruct (decide (c' = c)) as [->|?];
    [|left; now rewrite handlers_step_other in H];
  let He := fresh "He" in
  destruct (RecvOther_refused s c l) as [He|[(? & _ & He)|(? & _ & He)]];
    rewrite He in H;
    [now left | rewrite handlers_goto in H; discriminate
    | rewrite handlers_goto in H; discriminate].

Ltac own_step H :=
  cbn [handleClient_resume Exec_insert QueryRow_Scan database] in H; cbv zeta in H;
  repeat match type of H with
         | context [if ?b then _ else _] => destruct b eqn:?
         | context [match insert_user ?u ?h ?t with _ => _ end] =>
             destruct (insert_user u h t) eqn:?
         | context [match select_password ?u ?t with _ => _ end] =>
             destruct (select_password u t) eqn:?
         end;
  rewrite ?handlers_goto in H.

(** X25. No chat without credentials: a handler enters the chat loop under
    a name only by the step in which it reads, at the password prompt of a
    login under that name, a line whose trimmed SHA-256 digest is the one
    the table holds for the name. *)
Theorem chat_needs_credentials s e c usr :
  handlers (step s e) !! c = Some (AtChat usr) ->
  handlers s !! c = Some (AtChat usr)
  \/ exists l, e = Recv c (Bytes l)
               /\ handlers s !! c = Some (AtLoginPass usr)
               /\ select_password usr (users s) = Some (hashPassword (TrimSpace l)).
Proof.
  intros H. destruct e as [c'|c' r|c' l0].
  - apply handlers_Accept in H as [H|H]; [now left | discriminate].
  - destruct (decide (c' = c)) as [->|Hne];
      [|left; now rewrite handlers_step_other in H].
    cbn [step] in H. destruct (handlers s !! c) as [p|] eqn:Hp;
        [|exfalso; cbv beta iota in H; congruence].
    destruct p as [| | |u| |u|u|]; destruct r as [l|];
      try (own_step H; rewrite ?Hp in H; discriminate).
    + own_step H; try discriminate. injection H as <-.
      right. exists l. repeat split.
      match goal with E : negb _ = false |- _ =>
        apply negb_false_iff, String.eqb_eq in E; now rewrite E end.
    + left. change (handlers (relay u c (connReads l) s) !! c = Some (AtChat usr)) in H.
      destruct (relay_spec u c (connReads l) s) as (_ & _ & _ & Hh & _).
      now rewrite Hh, Hp in H.
  - other_step H s c' c l0.
Qed.

Lemma chat_needs_credentials_witness :
  let s := run (start exKey)
             (registers 1%nat "alice" "pw1"
              ++ [Accept 3%nat; Recv 3%nat (line "login"); Recv 3%nat (line "alice")]) in
  handlers (step s (Recv 3%nat (line "pw1"))) !! 3%nat = Some (AtChat "alice")
  /\ exists l, handlers s !! 3%nat = Some (AtLoginPass "alice")
              /\ select_password "alice" (users s) = Some (hashPassword (TrimSpace l)).
Proof.
  intros s.
  assert (H : handlers (step s (Recv 3%nat (line "pw1"))) !! 3%nat = Some (AtChat "alice"))
    by (vm_compute; reflexivity).
  split; [exact H|].
  destruct (chat_needs_credentials s _ 3%nat "alice" H) as [H1|(l & _ & H2 & H3)].
  - exfalso. vm_compute in H1. discriminate.
  - exists l. split; [exact H2 | exact H3].
Defined.

(** X26. No registration without the code: the table changes only by the
    step of a handler at the password prompt of a registration; a handler
    comes to that prompt only from the user-name prompt of a registration;
    and it comes to the user-name prompt only by the step in which it
    reads, at the code prompt, a line that, trimmed and without brackets,
    is the registration key. *)
Theorem registration_needs_code s e c :
  (users (step s e) <> users s ->
     exists c' usr l, e = Recv c' (Bytes l)
                      /\ handlers s !! c' = Some (AtRegPass usr))
  /\ (forall usr, handlers (step s e) !! c = Some (AtRegPass usr) ->
       handlers s !! c = Some (AtRegPass usr)
       \/ exists l, e = Recv c (Bytes l)
                    /\ handlers s !! c = Some AtRegUser /\ usr = TrimSpace l)
  /\ (handlers (step s e) !! c = Some AtRegUser ->
       handlers s !! c = Some AtRegUser
       \/ exists l, e = Recv c (Bytes l)
                    /\ handlers s !! c = Some AtRegCode
                    /\ submittedCode l = masterRegKey s).
Proof.
  split; [|split].
  - intros Hu. destruct e as [c'|c' r|c' l0];
      [| |exfalso; apply Hu;
          destruct (RecvOther_refused s c' l0) as [->|[(? & _ & ->)|(? & _ & ->)]];
          reflexivity];
      cbn [step] in Hu.
    + exfalso. apply Hu. now destruct (handlers s !! c').
    + destruct (handlers s !! c') as [p|] eqn:Hp; [|contradiction].
      destruct p as [| | |u| |u|u|]; destruct r as [l|];
        try (exfalso; apply Hu; reflexivity).
      * exfalso. apply Hu. cbn [handleClient_resume Exec_insert QueryRow_Scan database]. cbv zeta.
        destruct (lowerIs "register" (TrimSpace l));
          [|destruct (lowerIs "login" (TrimSpace l))]; reflexivity.
      * exfalso. apply Hu. cbn [handleClient_resume Exec_insert QueryRow_Scan database]. cbv zeta.
        now destruct (negb _).
      * eauto.
      * exfalso. apply Hu. cbn [handleClient_resume Exec_insert QueryRow_Scan database]. cbv zeta.
        destruct (select_password u (users s)); [destruct (negb _)|]; try reflexivity.
        cbn [users goto]. now rewrite users_broadcast.
      * exfalso. apply Hu. apply relay_spec.
      * exfalso. apply Hu. cbn [handleClient_resume Exec_insert QueryRow_Scan database users goto].
        now rewrite users_broadcast.
  - intros usr H. destruct e as [c'|c' r|c' l0]; [| |other_step H s c' c l0].
    + apply handlers_Accept in H as [H|H]; [now left | discriminate].
    + destruct (decide (c' = c)) as [->|Hne];
        [|left; now rewrite handlers_step_other in H].
      cbn [step] in H. destruct (handlers s !! c) as [p|] eqn:Hp;
        [|exfalso; cbv beta iota in H; congruence].
      destruct p as [| | |u| |u|u|]; destruct r as [l|];
        try (own_step H; rewrite ?Hp in H; discriminate).
      * own_step H. injection H as <-. right. eauto.
      * left. change (handlers (relay u c (connReads l) s) !! c = Some (AtRegPass usr)) in H.
        destruct (relay_spec u c (connReads l) s) as (_ & _ & _ & Hh & _).
        rewrite Hh, Hp in H. discriminate.
  - intros H. destruct e as [c'|c' r|c' l0]; [| |other_step H s c' c l0].
    + apply handlers_Accept in H as [H|H]; [now left | discriminate].
    + destruct (decide (c' = c)) as [->|Hne];
        [|left; now rewrite handlers_step_other in H].
      cbn [step] in H. destruct (handlers s !! c) as [p|] eqn:Hp;
        [|exfalso; cbv beta iota in H; congruence].
      destruct p as [| | |u| |u|u|]; destruct r as [l|];
        try (own_step H; rewrite ?Hp in H; discriminate).
      * own_step H; try discriminate. right. exists l. repeat split.
        match goal with E : negb _ = false |- _ =>
          apply negb_false_iff, String.eqb_eq in E; exact E end.
      * left. change (handlers (relay u c (connReads l) s) !! c = Some AtRegUser) in H.
        destruct (relay_spec u c (connReads l) s) as (_ & _ & _ & Hh & _).
        rewrite Hh, Hp in H. discriminate.
Qed.

Lemma registration_needs_code_witness :
  let s := run (start exKey) [Accept 1%nat; Recv 1%nat (line "register")] in
  let e := Recv 1%nat (line exKey) in
  handlers (step s e) !! 1%nat = Some AtRegUser
  /\ exists l, e = Recv 1%nat (Bytes l)
              /\ handlers s !! 1%nat = Some AtRegCode
              /\ submittedCode l = masterRegKey s.
Proof.
  intros s e.
  assert (H : handlers (step s e) !! 1%nat = Some AtRegUser) by (vm_compute; reflexivity).
  split; [exact H|].
  destruct (registration_needs_code s e 1%nat) as (_ & _ & H3).
  destruct (H3 H) as [H1|H1]; [exfalso; vm_compute in H1; discriminate | exact H1].
Defined.

End GateFacts.

(** * The credentials and the pool *)

Section CredentialFacts.

Implicit Types (s : Server) (c : Conn) (usr l : string) (evs : list Event).

Lemma be_bytes_range n x : Forall (fun v => 0 <= v < 256) (SHA256.be_bytes n x).
Proof.
  induction n as [|n IH]; [constructor|]. cbn [SHA256.be_bytes].
  constructor; [apply Z.mod_pos_bound; lia | exact IH].
Qed.

Lemma Sum256_range msg : Forall (fun v => 0 <= v < 256) (SHA256.Sum256 msg).
Proof.
  unfold SHA256.Sum256. cbv zeta.
  generalize (SHA256.blocks (length (SHA256.pad msg) `div` 64) SHA256.H0 (SHA256.pad msg)).
  intros h. induction h as [|x h IH]; [constructor|].
  cbn [flat_map]. apply Forall_app. split; [apply be_bytes_range | exact IH].
Qed.

(** Two passwords have the same digest exactly when they have the same
    hash: the hexadecimal encoding loses nothing. *)
Lemma hashPassword_eq_iff p q :
  hashPassword p = hashPassword q
  <-> SHA256.Sum256 (bytes_of_string p) = SHA256.Sum256 (bytes_of_string q).
Proof.
  unfold hashPassword. cbv zeta. split; [|now intros ->].
  intros H. apply (f_equal decodeHex) in H.
  now rewrite !decodeHex_EncodeToString in H by apply Sum256_range.
Qed.

Lemma bytesNumber_bound (l : list Z) :
  Forall (fun v => 0 <= v < 256) l ->
  0 <= bytesNumber l < 256 ^ Z.of_nat (length l).
Proof.
  induction 1 as [|b l Hb _ IH]; [cbn; lia|].
  cbn [bytesNumber length]. rewrite Nat2Z.inj_succ, Z.pow_succ_r by lia. lia.
Qed.

Lemma bytesNumber_inj (l1 l2 : list Z) :
  length l1 = length l2 ->
  Forall (fun v => 0 <= v < 256) l1 -> Forall (fun v => 0 <= v < 256) l2 ->
  bytesNumber l1 = bytesNumber l2 -> l1 = l2.
Proof.
  revert l2. induction l1 as [|a l1 IH]; intros [|b l2] Hl H1 H2 He;
    try discriminate; [reflexivity|].
  inversion H1 as [|? ? Ha H1']; subst. inversion H2 as [|? ? Hb H2']; subst.
  cbn [bytesNumber] in He.
  assert (a = b /\ bytesNumber l1 = bytesNumber l2) as [-> Hn] by lia.
  f_equal. apply IH; [now injection Hl | assumption..].
Qed.

(** A function from the natural numbers to the numbers below a bound takes
    some value twice. *)
Lemma bounded_repeats (N : nat) (f : nat -> nat) :
  (forall i, (f i < N)%nat) -> exists i j, (i < j)%nat /\ f i = f j.
Proof.
  intros Hf.
  destruct (nat_pigeonhole f (S N) N (Nat.lt_succ_diag_r N) (fun i _ => Hf i))
    as (i & j & [Hij _] & He).
  eauto.
Qed.

Lemma length_Repeat_byte (a : ascii) n :
  String.length (Repeat (String a "") n) = n.
Proof.
  induction n as [|n IH]; [reflexivity|].
  cbn [Repeat]. rewrite sapp_cons, sapp_nil_l. cbn [String.length]. now rewrite IH.
Qed.

Lemma length_longPassword n : String.length (longPassword n) = S (S n).
Proof.
  unfold longPassword. cbn [String.length].
  rewrite length_sapp, length_Repeat_byte. cbn. lia.
Qed.

Lemma TrimSpace_longPassword n : TrimSpace (longPassword n +:+ LF) = longPassword n.
Proof.
  unfold longPassword. rewrite sapp_cons, sapp_assoc.
  apply TrimSpace_plain_line; (split; [vm_compute|]; reflexivity).
Qed.

(** The digests are finitely many and the passwords are not: two of the
    passwords [longPassword] have the same one. *)
Lemma hashPassword_collision :
  exists i j, (i < j)%nat /\ hashPassword (longPassword i) = hashPassword (longPassword j).
Proof.
  set (sum := fun i : nat => SHA256.Sum256 (bytes_of_string (longPassword i))).
  destruct (bounded_repeats (Z.to_nat (256 ^ 32)) (fun i => Z.to_nat (bytesNumber (sum i))))
    as (i & j & Hij & He).
  - intros i. pose proof (bytesNumber_bound (sum i) (Sum256_range _)) as Hb.
    replace (length (sum i)) with 32%nat in Hb by (symmetry; apply length_Sum256).
    change (Z.of_nat 32) with 32 in Hb.
    apply Z2Nat.inj_lt; [apply Hb | apply Z.pow_nonneg; lia | apply Hb].
  - exists i, j. split; [assumption|]. apply hashPassword_eq_iff. fold (sum i) (sum j).
    apply bytesNumber_inj.
    + unfold sum. now rewrite !length_Sum256.
    + apply Sum256_range.
    + apply Sum256_range.
    + apply Z2Nat.inj; [apply bytesNumber_bound, Sum256_range..|exact He].
Qed.


Lemma lineSum_digest l1 l2 :
  lineSum l2 = lineSum l1 <-> hashPassword (TrimSpace l2) = hashPassword (TrimSpace l1).
Proof. symmetry. apply hashPassword_eq_iff. Qed.

(** C1 (amended). After a registration that wrote the success line, and
    whatever happened since, a login under the same name whose query is
    served by the connection that holds the table is decided by the SHA-256
    hash of the trimmed password line. If it is the hash of the registered
    one, as it is for the same password and for one that differs from it in
    the white space around it only, the handler writes the welcome line,
    registers the session and enters the chat loop. If it is another hash,
    the handler writes the generic rejection and returns, and the registry
    is as before. *)
Theorem login_after_registration s c1 usr l1 evs c2 l2 :
  handlers s !! c1 = Some (AtRegPass usr) ->
  let s1 := step s (Recv c1 (Bytes l1)) in
  written s1 c1 = written s c1 ++ [msgRegOk +:+ LF] ->
  let s2 := run s1 evs in
  handlers s2 !! c2 = Some (AtLoginPass usr) ->
  let s3 := step s2 (Recv c2 (Bytes l2)) in
  let accepted :=
    written s3 c2 = written s2 c2 ++ [msgWelcomeBack usr]
    /\ handlers s3 !! c2 = Some (AtChat usr)
    /\ clients s3 !! c2 = Some {| conn := c2; username := usr |} in
  (l2 = l1 -> accepted)
  /\ (TrimSpace l2 = TrimSpace l1 -> accepted)
  /\ (lineSum l2 = lineSum l1 -> accepted)
  /\ (lineSum l2 <> lineSum l1 ->
      written s3 c2 = written s2 c2 ++ [msgBadLogin +:+ LF]
      /\ handlers s3 !! c2 = Some Returned
      /\ clients s3 = clients s2).
Proof.
  intros Hp1 s1 Hok s2 Hp2 s3 accepted.
  destruct (login_decided s c1 usr l1 evs c2 l2 Hp1 Hok Hp2) as [Hacc Hrej].
  fold s1 s2 s3 in Hacc, Hrej. fold accepted in Hacc.
  split; [intros ->; now apply Hacc|].
  split; [intros He; apply Hacc; now rewrite He|].
  split; [intros He; now apply Hacc, lineSum_digest|].
  intros Hne. apply Hrej. intros He. now apply Hne, lineSum_digest.
Qed.

Lemma login_after_registration_witness :
  let s := run (start exKey)
             [Accept 1%nat; Recv 1%nat (line "register"); Recv 1%nat (line exKey);
              Recv 1%nat (line "alice")] in
  let s1 := step s (Recv 1%nat (line "pw1")) in
  let s2 := run s1 [Accept 2%nat; Recv 2%nat (line "login"); Recv 2%nat (line "alice")] in
  handlers s !! 1%nat = Some (AtRegPass "alice")
  /\ written s1 1%nat = written s 1%nat ++ [msgRegOk +:+ LF]
  /\ handlers s2 !! 2%nat = Some (AtLoginPass "alice")
  /\ (let s3 := step s2 (Recv 2%nat (line "pw1")) in
      written s3 2%nat = written s2 2%nat ++ [msgWelcomeBack "alice"]
      /\ handlers s3 !! 2%nat = Some (AtChat "alice")
      /\ clients s3 !! 2%nat = Some {| conn := 2%nat; username := "alice" |})
  /\ lineSum ("pw2" +:+ LF) <> lineSum ("pw1" +:+ LF)
  /\ (let s3 := step s2 (Recv 2%nat (line "pw2")) in
      written s3 2%nat = written s2 2%nat ++ [msgBadLogin +:+ LF]
      /\ handlers s3 !! 2%nat = Some Returned
      /\ clients s3 = clients s2).
Proof.
  intros s s1 s2.
  assert (Hp1 : handlers s !! 1%nat = Some (AtRegPass "alice")) by (vm_compute; reflexivity).
  assert (Hok : written s1 1%nat = written s 1%nat ++ [msgRegOk +:+ LF])
    by (vm_compute; reflexivity).
  assert (Hp2 : handlers s2 !! 2%nat = Some (AtLoginPass "alice")) by (vm_compute; reflexivity).
  assert (Hne : lineSum ("pw2" +:+ LF) <> lineSum ("pw1" +:+ LF))
    by (vm_compute; discriminate).
  split; [exact Hp1|]. split; [exact Hok|]. split; [exact Hp2|]. split; [|split; [exact Hne|]].
  - apply (login_after_registration s 1%nat "alice" ("pw1" +:+ LF)
             [Accept 2%nat; Recv 2%nat (line "login"); Recv 2%nat (line "alice")]
             2%nat ("pw1" +:+ LF) Hp1 Hok Hp2).
    reflexivity.
  - apply (login_after_registration s 1%nat "alice" ("pw1" +:+ LF)
             [Accept 2%nat; Recv 2%nat (line "login"); Recv 2%nat (line "alice")]
             2%nat ("pw2" +:+ LF) Hp1 Hok Hp2).
    exact Hne.
Defined.

(** C1, as stated, fails twice over. The password [pw1] followed by a
    space is not the registered password [pw1], and the login is accepted.
    And since the digests are finitely many, there are two passwords
    without any white space, different from each other, such that a login
    presenting the one is accepted after the registration of the other. *)
Lemma login_after_registration_counterexample :
  (let s2 := run (start exKey)
               (registers 1%nat "alice" "pw1"
                ++ [Accept 2%nat; Recv 2%nat (line "login"); Recv 2%nat (line "alice")]) in
   let s3 := step s2 (Recv 2%nat (line "pw1 ")) in
   "pw1 "%string <> "pw1"%string
   /\ written s2 1%nat =
        [msgWelcome +:+ LF; msgChoice +:+ LF; msgRegCode +:+ LF; msgRegUser +:+ LF;
         msgRegPass +:+ LF; msgRegOk +:+ LF]
   /\ written s3 2%nat = written s2 2%nat ++ [msgWelcomeBack "alice"]
   /\ handlers s3 !! 2%nat = Some (AtChat "alice"))
  /\ exists pwd pwd' : string,
       pwd' <> pwd
       /\ TrimSpace (pwd +:+ LF) = pwd /\ TrimSpace (pwd' +:+ LF) = pwd'
       /\ let s2 := run (start exKey)
                      (registers 1%nat "alice" pwd
                       ++ [Accept 2%nat; Recv 2%nat (line "login");
                           Recv 2%nat (line "alice")]) in
          let s3 := step s2 (Recv 2%nat (line pwd')) in
          written s2 1%nat =
            [msgWelcome +:+ LF; msgChoice +:+ LF; msgRegCode +:+ LF; msgRegUser +:+ LF;
             msgRegPass +:+ LF; msgRegOk +:+ LF]
          /\ written s3 2%nat = written s2 2%nat ++ [msgWelcomeBack "alice"]
          /\ handlers s3 !! 2%nat = Some (AtChat "alice").
Proof.
  split; [vm_compute; repeat split; discriminate|].
  destruct hashPassword_collision as (i & j & Hij & He).
  pose proof (TrimSpace_longPassword i) as Ti.
  pose proof (TrimSpace_longPassword j) as Tj.
  assert (Hd : longPassword j <> longPassword i).
  { intros H. apply (f_equal String.length) in H.
    rewrite !length_longPassword in H. lia. }
  revert He Ti Tj Hd. generalize (longPassword j). generalize (longPassword i).
  clear i j Hij. intros pwd pwd' He Ti Tj Hd.
  exists pwd, pwd'. split; [exact Hd|]. split; [exact Ti|]. split; [exact Tj|].
  cbv zeta.
  set (s := run (start exKey)
              [Accept 1%nat; Recv 1%nat (line "register"); Recv 1%nat (line exKey);
               Recv 1%nat (line "alice")]).
  set (evs := [Accept 2%nat; Recv 2%nat (line "login"); Recv 2%nat (line "alice")]).
  change (run (start exKey) (registers 1%nat "alice" pwd ++ evs))
    with (run (step s (Recv 1%nat (Bytes (pwd +:+ LF)))) evs).
  assert (Hp1 : handlers s !! 1%nat = Some (AtRegPass "alice")) by (vm_compute; reflexivity).
  assert (Hn : select_password "alice" (users s) = None) by (vm_compute; reflexivity).
  destruct (register_fresh s 1%nat "alice" (pwd +:+ LF) Hp1 Hn) as (Hok & _).
  assert (Hp2 : handlers (run (step s (Recv 1%nat (Bytes (pwd +:+ LF)))) evs) !! 2%nat
                = Some (AtLoginPass "alice")) by (vm_compute; reflexivity).
  destruct (login_decided s 1%nat "alice" (pwd +:+ LF) evs 2%nat (pwd' +:+ LF) Hp1 Hok Hp2)
    as [Hacc _].
  destruct Hacc as (H1 & H2 & _); [now rewrite Ti, Tj|].
  split; [|split; [exact H1 | exact H2]].
  vm_compute. reflexivity.
Qed.


(** C2. Alice and Bob send their passwords at the same time, and so do,
    later, Bob again and Carol. The statements of Alice and of Carol are
    served by the connection that holds the table; those of Bob, both
    times, by another connection of the pool. No row is stored under the
    name bob, and his two registrations are both refused, for want of a
    table. Served by the connection that holds the table, his second one
    would have succeeded. *)
Theorem register_twice_no_success :
  let atPassword c usr :=
    [Accept c; Recv c (line "register"); Recv c (line exKey); Recv c (line usr)] in
  let refusal := "Failed to register: %v" +:+ LF +:+ " no such table: users" +:+ LF in
  let s := run (start exKey) (atPassword 1%nat "alice" ++ atPassword 2%nat "bob") in
  let s1 := run s [Recv 1%nat (line "pwA"); RecvOther 2%nat ("pwB" +:+ LF)] in
  let s2 := run s1 (atPassword 3%nat "bob" ++ atPassword 4%nat "carol") in
  let s3 := run s2 [Recv 4%nat (line "pwC"); RecvOther 3%nat ("pwB" +:+ LF)] in
  handlers s !! 2%nat = Some (AtRegPass "bob")
  /\ select_password "bob" (users s) = None
  /\ written s1 1%nat = written s 1%nat ++ [msgRegOk +:+ LF]
  /\ written s1 2%nat = written s 2%nat ++ [refusal]
  /\ handlers s2 !! 3%nat = Some (AtRegPass "bob")
  /\ select_password "bob" (users s2) = None
  /\ written s3 4%nat = written s2 4%nat ++ [msgRegOk +:+ LF]
  /\ written s3 3%nat = written s2 3%nat ++ [refusal]
  /\ map row_username (users s3) = ["alice"; "carol"]%string
  /\ written (step s2 (Recv 3%nat (line "pwB"))) 3%nat
     = written s2 3%nat ++ [msgRegOk +:+ LF].
Proof. vm_compute. repeat split. Qed.



(** X27. A statement served by a connection of the pool other than the one
    that holds the table is refused, whatever the table holds: a
    registration gets the failure line with the error of the missing table,
    a login the generic rejection; the handler returns; no row is stored,
    nobody is registered and no other connection is written anything. So a
    login with a registered name and its password is refused there. *)
Theorem statement_served_elsewhere s c l :
  let s' := step s (RecvOther c l) in
  (forall usr, handlers s !! c = Some (AtRegPass usr) ->
     written s' c = written s c ++ [msgRegFail +:+ " " +:+ Error ErrNoTable +:+ LF]
     /\ handlers s' !! c = Some Returned)
  /\ (forall usr, handlers s !! c = Some (AtLoginPass usr) ->
     written s' c = written s c ++ [msgBadLogin +:+ LF]
     /\ handlers s' !! c = Some Returned)
  /\ users s' = users s
  /\ clients s' = clients s
  /\ forall c', c' <> c -> written s' c' = written s c'.
Proof.
  intros s'. split; [|split].
  - intros usr Hp. unfold s'. rewrite (register_elsewhere _ _ _ _ Hp).
    now rewrite written_goto, written_Fprintln2, handlers_goto.
  - intros usr Hp. unfold s'. rewrite (login_elsewhere _ _ _ _ Hp).
    now rewrite written_goto, written_Fprintln, handlers_goto.
  - unfold s'.
    destruct (RecvOther_refused s c l) as [->|[(? & _ & ->)|(? & _ & ->)]];
      (split; [reflexivity|]); (split; [reflexivity|]); intros c' Hne;
      try reflexivity;
      rewrite written_goto; unfold Fprintln, Fprintln2; rewrite written_Write;
      (destruct (decide (c = c')); [congruence|reflexivity]).
Qed.

Lemma statement_served_elsewhere_witness :
  let s := run (start exKey)
             (registers 1%nat "alice" "pw1"
              ++ [Accept 2%nat; Recv 2%nat (line "login"); Recv 2%nat (line "alice")]) in
  let s' := step s (RecvOther 2%nat ("pw1" +:+ LF)) in
  handlers s !! 2%nat = Some (AtLoginPass "alice")
  /\ select_password "alice" (users s) = Some (hashPassword (TrimSpace ("pw1" +:+ LF)))
  /\ written s' 2%nat = written s 2%nat ++ [msgBadLogin +:+ LF]
  /\ handlers s' !! 2%nat = Some Returned
  /\ clients s' = clients s.
Proof.
  intros s s'.
  assert (Hp : handlers s !! 2%nat = Some (AtLoginPass "alice")) by (vm_compute; reflexivity).
  assert (Hs : select_password "alice" (users s)
               = Some (hashPassword (TrimSpace ("pw1" +:+ LF)))) by (vm_compute; reflexivity).
  destruct (statement_served_elsewhere s 2%nat ("pw1" +:+ LF)) as (_ & H2 & _ & H4 & _).
  destruct (H2 "alice" Hp) as [Hw Hh].
  split; [exact Hp|]. split; [exact Hs|]. split; [exact Hw|]. split; [exact Hh | exact H4].
Defined.

End CredentialFacts.
